(** * VoiceProcessingEngine: the real-time pipeline and its interruption control

    A shallow embedding of [VoiceProcessingEngine] (services/voice-processing)
    and of the part of [VoiceInterface] that counts interruptions; further
    down, of [AgentManager] (services/agent-manager) and of the statistics
    of the dashboard.

    JavaScript runs the engine on one thread: every callback (animation frame,
    timer, recorder event, promise continuation, audio event) runs to its next
    [await] or to its end before another one starts.  The engine is therefore
    a state machine: [step] runs one callback on the engine's fields.  An async
    call of [processAudioWithInterruption] is a [Run] whose [Stage] says at
    which [await] it is suspended, with the local variables alive there. *)

From Stdlib Require Import ZArith List String Ascii Bool Lia.
From Stdlib Require Import QArith Reals Qreals Lra.
From Stdlib Require Import DecimalString DecimalZ.
From Stdlib Require Floats Uint63.
From Stdlib Require Strings.Byte.
Import ListNotations.

Local Open Scope Z_scope.

(** ** JavaScript values *)

(** A JavaScript string: its sequence of UTF-16 code units. *)
Definition JSString := list N.

Definition js (s : string) : JSString :=
  List.map N_of_ascii (list_ascii_of_string s).

(** WhiteSpace and LineTerminator code points, the ones
    [String.prototype.trim] strips. *)
Definition isWhiteSpace (c : N) : bool :=
  (N.leb 9 c && N.leb c 13)%N
  || N.eqb c 32 || N.eqb c 160 || N.eqb c 5760
  || (N.leb 8192 c && N.leb c 8202)%N
  || N.eqb c 8232 || N.eqb c 8233 || N.eqb c 8239 || N.eqb c 8287
  || N.eqb c 12288 || N.eqb c 65279.

Fixpoint trimStart (s : JSString) : JSString :=
  match s with
  | [] => []
  | c :: s' => if isWhiteSpace c then trimStart s' else s
  end.

Definition trimEnd (s : JSString) : JSString := rev (trimStart (rev s)).

Definition trim (s : JSString) : JSString := trimEnd (trimStart s).

(** Truthiness of a string: it is not empty. *)
Definition truthy (s : JSString) : bool :=
  match s with [] => false | _ :: _ => true end.

(** [Number.prototype.toString] on an integer time value: its decimal
    digits, with a leading minus sign below zero. *)
Definition toString (n : Z) : string := NilZero.string_of_int (Z.to_int n).

(** The number a decimal string denotes. *)
Definition toNumber (s : string) : option Z :=
  option_map Z.of_int (NilZero.int_of_string s).

(** [a !== b] on [string | null]. *)
Definition strictNotEqual (a b : option string) : bool :=
  match a, b with
  | Some x, Some y => negb (String.eqb x y)
  | None, None => false
  | _, _ => true
  end.

(** ** The spectral snapshot and the two volume formulas *)

(** [analyser.fftSize = 2048], so [frequencyBinCount] is 1024. *)
Definition fftSize : Z := 2048.
Definition frequencyBinCount : Z := fftSize / 2.

(** A [Uint8Array] filled by [getByteFrequencyData]. *)
Definition Snapshot := list Byte.byte.

Definition byteValue (b : Byte.byte) : Z := Z.of_N (Byte.to_N b).

Definition bufferLength (dataArray : Snapshot) : Z :=
  Z.of_nat (List.length dataArray).

(** [for (i...) sum += dataArray[i] * dataArray[i]] *)
Definition sumSquares (dataArray : Snapshot) : Z :=
  fold_left (fun sum x => sum + byteValue x * byteValue x) dataArray 0.

(** [for (i...) sum += dataArray[i]] *)
Definition sumValues (dataArray : Snapshot) : Z :=
  fold_left (fun sum x => sum + byteValue x) dataArray 0.

(** [Math.sqrt(sum / bufferLength) / 255], as a real number. *)
Definition rms (dataArray : Snapshot) : R :=
  (sqrt (IZR (sumSquares dataArray) / IZR (bufferLength dataArray)) / 255)%R.

Definition SILENCE_THRESHOLD : R := (1 / 100)%R.
Definition INTERRUPTION_THRESHOLD : R := (5 / 100)%R.
Definition SILENCE_DURATION : Z := 1500.

(** The two comparisons of [detectActivity], decided on integers:
    [rms > 0.05] is [sum / n > 12.75 * 12.75], and [rms < 0.01] is
    [sum / n < 2.55 * 2.55].  [rms_gt_interruption_spec] and
    [rms_lt_silence_spec] relate them to [rms]. *)
Definition rms_gt_interruption (dataArray : Snapshot) : bool :=
  1625625 * bufferLength dataArray <? 10000 * sumSquares dataArray.

Definition rms_lt_silence (dataArray : Snapshot) : bool :=
  10000 * sumSquares dataArray <? 65025 * bufferLength dataArray.

(** The same formula on JavaScript numbers, binary64 floating point, for
    the sum of squares of a snapshot of [frequencyBinCount] bins; the sum is
    an integer below 2^53 and so exact.  [rms_double_boundaries] evaluates
    the two comparisons of [detectActivity] on doubles at the sums on either
    side of each threshold; division and square root round monotonically,
    so the answers at all other sums follow. *)
Definition rms_double (sum : Z) : PrimFloat.float :=
  PrimFloat.div
    (PrimFloat.sqrt
       (PrimFloat.div (PrimFloat.of_uint63 (Uint63.of_Z sum))
          (PrimFloat.of_uint63 (Uint63.of_Z frequencyBinCount))))
    (PrimFloat.of_uint63 (Uint63.of_Z 255)).

(** The literal [0.05] and the literal [0.01]: the doubles nearest to 5/100
    and to 1/100. *)
Definition INTERRUPTION_THRESHOLD_double : PrimFloat.float :=
  PrimFloat.div (PrimFloat.of_uint63 (Uint63.of_Z 5))
    (PrimFloat.of_uint63 (Uint63.of_Z 100)).

Definition SILENCE_THRESHOLD_double : PrimFloat.float :=
  PrimFloat.div (PrimFloat.of_uint63 (Uint63.of_Z 1))
    (PrimFloat.of_uint63 (Uint63.of_Z 100)).

(** ** The engine's objects *)

(** [MediaRecorder.state] *)
Inductive RecordingState := inactive | recording | paused.

(** An [HTMLAudioElement] created by [playAudioWithInterruption].  The
    element outlives the field [currentAudio]: clearing or overwriting the
    field does not pause it.  [awaitedBy] is the run whose promise the
    element's handlers resolve or reject. *)
Record HTMLAudioElement := {
  src : string;
  audio_paused : bool;
  awaitedBy : nat
}.

Definition Error := string.

(** The value an [await] resumes with. *)
Inductive Awaited (A : Type) :=
| Resolved (a : A)
| Rejected (e : Error).
Arguments Resolved {A} a.
Arguments Rejected {A} e.

(** [CallMetrics['latency']].  The fields are differences of readings of
    [performance.now()], in whole milliseconds here (see [performance_now]). *)
Record Latency := { stt : Z; gpt : Z; tts : Z; total : Z }.

(** How a promise ended. *)
Inductive Settlement := Fulfilled | RejectedWith (e : Error).

(** Where a call of [processAudioWithInterruption] is suspended, with the
    local variables that are alive at that [await]. *)
Inductive Stage :=
| ReadingBlob (startTime : Z)
| Transcribing (startTime : Z)
| Generating (startTime sttTime gptStartTime : Z)
| Synthesizing (startTime sttTime gptTime ttsStartTime : Z)
| Playing (audio : nat) (startTime sttTime gptTime ttsStartTime : Z)
| Settled (how : Settlement).

Record Run := { processingId : string; stage : Stage }.

(** What the engine does to the outside: service calls, audio and recorder
    commands, console output. *)
Inductive Effect :=
| TranscribeAudio (run : nat)
| GenerateText (run : nat) (text : JSString)
| GenerateSpeech (run : nat) (text : string)
| AudioPlay (run : nat) (audio : nat)
| AudioPause (audio : nat)
| RecorderStart
| RecorderStop
| ProcessingMetrics (run : nat) (metrics : Latency) (pass : bool)
| ConsoleLog (msg : string)
| ConsoleError (msg : string).

(** The fields of [VoiceProcessingEngine] that the pipeline and the
    detection loop use, the objects they point to, and the history of effects.
    [analyser] says whether the field is non-null.  [stream], [audioContext]
    and [interruptionBuffer] are left out: only [initialize] and [cleanup]
    touch the first two, and nothing reads the third.  [audioChunks] is the
    variable of that name that the recorder's handlers close over.
    [clock] is the event loop's monotonic time in whole milliseconds: it
    drives [setTimeout] and is what [performance.now()] reads.  [silenceTimer]
    holds the time at which the pending timeout fires. *)
Record Engine := {
  mediaRecorder : option RecordingState;
  analyser : bool;
  isProcessing : bool;
  silenceTimer : option Z;
  currentProcessingId : option string;
  currentAudio : option nat;
  audioChunks : list N;
  audios : list HTMLAudioElement;
  runs : list Run;
  clock : Z;
  effects : list Effect
}.

Definition set_mediaRecorder v s :=
  {| mediaRecorder := v; analyser := analyser s; isProcessing := isProcessing s;
     silenceTimer := silenceTimer s; currentProcessingId := currentProcessingId s;
     currentAudio := currentAudio s; audioChunks := audioChunks s;
     audios := audios s; runs := runs s; clock := clock s; effects := effects s |}.

Definition set_analyser v s :=
  {| mediaRecorder := mediaRecorder s; analyser := v; isProcessing := isProcessing s;
     silenceTimer := silenceTimer s; currentProcessingId := currentProcessingId s;
     currentAudio := currentAudio s; audioChunks := audioChunks s;
     audios := audios s; runs := runs s; clock := clock s; effects := effects s |}.

Definition set_isProcessing v s :=
  {| mediaRecorder := mediaRecorder s; analyser := analyser s; isProcessing := v;
     silenceTimer := silenceTimer s; currentProcessingId := currentProcessingId s;
     currentAudio := currentAudio s; audioChunks := audioChunks s;
     audios := audios s; runs := runs s; clock := clock s; effects := effects s |}.

Definition set_silenceTimer v s :=
  {| mediaRecorder := mediaRecorder s; analyser := analyser s; isProcessing := isProcessing s;
     silenceTimer := v; currentProcessingId := currentProcessingId s;
     currentAudio := currentAudio s; audioChunks := audioChunks s;
     audios := audios s; runs := runs s; clock := clock s; effects := effects s |}.

Definition set_currentProcessingId v s :=
  {| mediaRecorder := mediaRecorder s; analyser := analyser s; isProcessing := isProcessing s;
     silenceTimer := silenceTimer s; currentProcessingId := v;
     currentAudio := currentAudio s; audioChunks := audioChunks s;
     audios := audios s; runs := runs s; clock := clock s; effects := effects s |}.

Definition set_currentAudio v s :=
  {| mediaRecorder := mediaRecorder s; analyser := analyser s; isProcessing := isProcessing s;
     silenceTimer := silenceTimer s; currentProcessingId := currentProcessingId s;
     currentAudio := v; audioChunks := audioChunks s;
     audios := audios s; runs := runs s; clock := clock s; effects := effects s |}.

Definition set_audioChunks v s :=
  {| mediaRecorder := mediaRecorder s; analyser := analyser s; isProcessing := isProcessing s;
     silenceTimer := silenceTimer s; currentProcessingId := currentProcessingId s;
     currentAudio := currentAudio s; audioChunks := v;
     audios := audios s; runs := runs s; clock := clock s; effects := effects s |}.

Definition set_audios v s :=
  {| mediaRecorder := mediaRecorder s; analyser := analyser s; isProcessing := isProcessing s;
     silenceTimer := silenceTimer s; currentProcessingId := currentProcessingId s;
     currentAudio := currentAudio s; audioChunks := audioChunks s;
     audios := v; runs := runs s; clock := clock s; effects := effects s |}.

Definition set_runs v s :=
  {| mediaRecorder := mediaRecorder s; analyser := analyser s; isProcessing := isProcessing s;
     silenceTimer := silenceTimer s; currentProcessingId := currentProcessingId s;
     currentAudio := currentAudio s; audioChunks := audioChunks s;
     audios := audios s; runs := v; clock := clock s; effects := effects s |}.

Definition set_clock v s :=
  {| mediaRecorder := mediaRecorder s; analyser := analyser s; isProcessing := isProcessing s;
     silenceTimer := silenceTimer s; currentProcessingId := currentProcessingId s;
     currentAudio := currentAudio s; audioChunks := audioChunks s;
     audios := audios s; runs := runs s; clock := v; effects := effects s |}.

(** Appends one effect to the history. *)
Definition emit (e : Effect) s :=
  {| mediaRecorder := mediaRecorder s; analyser := analyser s; isProcessing := isProcessing s;
     silenceTimer := silenceTimer s; currentProcessingId := currentProcessingId s;
     currentAudio := currentAudio s; audioChunks := audioChunks s;
     audios := audios s; runs := runs s; clock := clock s;
     effects := effects s ++ [e] |}.

(** [l[i] = x] on an index that exists; nothing happens out of range (the
    engine never writes outside the objects it created). *)
Fixpoint replaceAt {A : Type} (i : nat) (x : A) (l : list A) : list A :=
  match l, i with
  | [], _ => []
  | _ :: l', O => x :: l'
  | y :: l', S i' => y :: replaceAt i' x l'
  end.

(** [performance.now()], read at a resolution of one millisecond, as a
    browser that coarsens its timer to 1 ms returns it.  The source gets a
    binary64 number that may carry a fraction of a millisecond; such readings
    are outside this model, so the logged latencies are used below only as
    the values of concrete runs, and no property is drawn from their
    arithmetic. *)
Definition performance_now (s : Engine) : Z := clock s.

(** The engine as the constructor leaves it. *)
Definition created : Engine :=
  {| mediaRecorder := None; analyser := false; isProcessing := false;
     silenceTimer := None; currentProcessingId := None; currentAudio := None;
     audioChunks := []; audios := []; runs := []; clock := 0; effects := [] |}.

(** The engine after [initialize()] succeeded: the analyser exists, the
    recorder exists and is inactive, the detection loop is running. *)
Definition initialized : Engine :=
  set_analyser true (set_mediaRecorder (Some inactive) created).

(** ** The pipeline: [processAudioWithInterruption] *)

(** How the [try] block of [processAudioWithInterruption] leaves a callback:
    suspended at the next [await], returned, or with an exception thrown. *)
Inductive Completion :=
| Suspend (next : Stage)
| Return
| Throw (e : Error).

(** [logProcessingMetrics] *)
Definition logProcessingMetrics (r : nat) (metrics : Latency) (s : Engine) : Engine :=
  emit (ProcessingMetrics r metrics (total metrics <=? 300)) s.

(** [playAudioWithInterruption], up to the return of the promise:
    [new Audio(url)], the handlers, [this.currentAudio = audio],
    [audio.play()], after which the new element's [paused] is false.  The
    previous value of [currentAudio] is overwritten. *)
Definition playAudioWithInterruption (r : nat) (audioUrl : string) (s : Engine)
  : Engine * nat :=
  let audio := List.length (audios s) in
  let s := set_audios (audios s ++ [{| src := audioUrl; audio_paused := false;
                                        awaitedBy := r |}]) s in
  let s := set_currentAudio (Some audio) s in
  (emit (AudioPlay r audio) s, audio).

(** [audio.pause()] *)
Definition pauseAudio (a : nat) (s : Engine) : Engine :=
  match nth_error (audios s) a with
  | Some el =>
      emit (AudioPause a)
        (set_audios (replaceAt a {| src := src el; audio_paused := true;
                                    awaitedBy := awaitedBy el |} (audios s)) s)
  | None => s
  end.

(** [audio.paused]; an element that does not exist is not playing. *)
Definition audioPaused (s : Engine) (a : nat) : bool :=
  match nth_error (audios s) a with
  | Some el => audio_paused el
  | None => true
  end.

(** [interruptCurrentResponse] *)
Definition interruptCurrentResponse (s : Engine) : Engine :=
  let s := match currentAudio s with
           | Some a => set_currentAudio None (pauseAudio a s)
           | None => s
           end in
  let s := set_currentProcessingId None s in
  emit (ConsoleLog "Response interrupted by user") s.

(** [processAudioWithInterruption], from the call to
    [await this.blobToBase64(audioBlob)].  [dateNow] is what [Date.now()]
    returns, the wall-clock time in milliseconds. *)
Definition processAudioWithInterruption (dateNow : Z) (s : Engine) : Engine :=
  let processingId := toString dateNow in
  let s := set_currentProcessingId (Some processingId) s in
  let s := set_isProcessing true s in
  let startTime := performance_now s in
  set_runs (runs s ++ [{| processingId := processingId;
                          stage := ReadingBlob startTime |}]) s.

(** From the result of [blobToBase64] to the [await] inside [performSTT]. *)
Definition afterBase64 (r : nat) (startTime : Z) (res : Awaited unit)
  (s : Engine) : Engine * Completion :=
  match res with
  | Rejected e => (s, Throw e)
  | Resolved _ => (emit (TranscribeAudio r) s, Suspend (Transcribing startTime))
  end.

(** [performSTT] after [await blink.ai.transcribeAudio]: the text with a
    fixed confidence, or the error logged and thrown again. *)
Definition performSTT (res : Awaited JSString) (s : Engine)
  : Engine * Awaited (JSString * Q) :=
  match res with
  | Resolved text => (s, Resolved (text, 95 # 100))
  | Rejected e => (emit (ConsoleError "STT processing failed:") s, Rejected e)
  end.

(** [performGPTProcessing] after [await blink.ai.generateText]. *)
Definition performGPTProcessing (res : Awaited string) (s : Engine)
  : Engine * Awaited string :=
  match res with
  | Resolved response => (s, Resolved response)
  | Rejected e => (emit (ConsoleError "GPT processing failed:") s, Rejected e)
  end.

(** From the result of [performSTT] to the [await] of
    [performGPTProcessing]. *)
Definition afterSTT (r : nat) (processingId : string) (startTime : Z)
  (res : Awaited JSString) (s : Engine) : Engine * Completion :=
  match performSTT res s with
  | (s, Rejected e) => (s, Throw e)
  | (s, Resolved (text, _)) =>
      if strictNotEqual (currentProcessingId s) (Some processingId) then
        (emit (ConsoleLog "Processing interrupted, discarding result") s, Return)
      else
        let sttTime := performance_now s - startTime in
        if negb (truthy (trim text)) || (Z.of_nat (List.length text) <? 3) then
          (emit (ConsoleLog "Skipping empty or very short transcription") s, Return)
        else
          let gptStartTime := performance_now s in
          (emit (GenerateText r text) s,
           Suspend (Generating startTime sttTime gptStartTime))
  end.

(** From the result of [performGPTProcessing] to the [await] of
    [blink.ai.generateSpeech] inside [performTTS]. *)
Definition afterGPT (r : nat) (processingId : string)
  (startTime sttTime gptStartTime : Z)
  (res : Awaited string) (s : Engine) : Engine * Completion :=
  match performGPTProcessing res s with
  | (s, Rejected e) => (s, Throw e)
  | (s, Resolved response) =>
      let gptTime := performance_now s - gptStartTime in
      if strictNotEqual (currentProcessingId s) (Some processingId) then
        (emit (ConsoleLog "Processing interrupted before TTS") s, Return)
      else
        let ttsStartTime := performance_now s in
        (emit (GenerateSpeech r response) s,
         Suspend (Synthesizing startTime sttTime gptTime ttsStartTime))
  end.

(** [performTTS] after [await blink.ai.generateSpeech]: the audio is played,
    or the error is logged and thrown again. *)
Definition afterSpeech (r : nat) (startTime sttTime gptTime ttsStartTime : Z)
  (res : Awaited string) (s : Engine) : Engine * Completion :=
  match res with
  | Resolved url =>
      let (s, audio) := playAudioWithInterruption r url s in
      (s, Suspend (Playing audio startTime sttTime gptTime ttsStartTime))
  | Rejected e => (emit (ConsoleError "TTS processing failed:") s, Throw e)
  end.

(** From the end of [playAudioWithInterruption] through the rest of
    [performTTS] to the metrics. *)
Definition afterPlayback (r : nat) (startTime sttTime gptTime ttsStartTime : Z)
  (res : Awaited unit) (s : Engine) : Engine * Completion :=
  match res with
  | Resolved _ =>
      let ttsTime := performance_now s - ttsStartTime in
      let totalTime := performance_now s - startTime in
      (logProcessingMetrics r {| stt := sttTime; gpt := gptTime;
                                 tts := ttsTime; total := totalTime |} s,
       Return)
  | Rejected e => (emit (ConsoleError "TTS processing failed:") s, Throw e)
  end.

Definition setStage (r : nat) (processingId : string) (st : Stage) (s : Engine)
  : Engine :=
  set_runs (replaceAt r {| processingId := processingId; stage := st |} (runs s)) s.

(** The [catch] and [finally] of [processAudioWithInterruption]: an
    exception is logged, the flag is reset, the promise is fulfilled. *)
Definition tryCatchFinally (r : nat) (processingId : string)
  (body : Engine * Completion) : Engine :=
  let (s, c) := body in
  match c with
  | Suspend next => setStage r processingId next s
  | Return =>
      setStage r processingId (Settled Fulfilled) (set_isProcessing false s)
  | Throw e =>
      let s := emit (ConsoleError "Voice processing error:") s in
      setStage r processingId (Settled Fulfilled) (set_isProcessing false s)
  end.

(** What a run at a given stage waits for. *)
Inductive Resumption :=
| Base64 (res : Awaited unit)
| Transcription (res : Awaited JSString)
| Reply (res : Awaited string)
| Speech (res : Awaited string)
| Playback (audio : nat) (res : Awaited unit).

(** Resumes run [r] with the value it awaits.  A value for an [await] the
    run is not suspended at does nothing: a promise settles once. *)
Definition resume (r : nat) (v : Resumption) (s : Engine) : Engine :=
  match nth_error (runs s) r with
  | None => s
  | Some run =>
      let id := processingId run in
      match stage run, v with
      | ReadingBlob t0, Base64 res =>
          tryCatchFinally r id (afterBase64 r t0 res s)
      | Transcribing t0, Transcription res =>
          tryCatchFinally r id (afterSTT r id t0 res s)
      | Generating t0 t1 t2, Reply res =>
          tryCatchFinally r id (afterGPT r id t0 t1 t2 res s)
      | Synthesizing t0 t1 t2 t3, Speech res =>
          tryCatchFinally r id (afterSpeech r t0 t1 t2 t3 res s)
      | Playing a t0 t1 t2 t3, Playback a' res =>
          if Nat.eqb a a' then
            tryCatchFinally r id (afterPlayback r t0 t1 t2 t3 res s)
          else s
      | _, _ => s
      end
  end.

(** The run that awaits the promise of audio element [a]. *)
Definition settlePlayback (a : nat) (res : Awaited unit) (s : Engine) : Engine :=
  match nth_error (audios s) a with
  | Some el => resume (awaitedBy el) (Playback a res) s
  | None => s
  end.

(** [audio.onended]; the browser has set [paused] before it fires [ended]. *)
Definition audio_onended (a : nat) (s : Engine) : Engine :=
  let s := match nth_error (audios s) a with
           | Some el =>
               set_audios (replaceAt a {| src := src el; audio_paused := true;
                                          awaitedBy := awaitedBy el |} (audios s)) s
           | None => s
           end in
  let s := set_currentAudio None s in
  settlePlayback a (Resolved tt) s.

(** [audio.onerror] *)
Definition audio_onerror (a : nat) (s : Engine) : Engine :=
  let s := set_currentAudio None s in
  settlePlayback a (Rejected "Audio playback failed"%string) s.

(** The [catch] of [audio.play()] *)
Definition audio_play_catch (a : nat) (error : Error) (s : Engine) : Engine :=
  let s := set_currentAudio None s in
  settlePlayback a (Rejected error) s.

(** ** The detection loop, the recorder and the silence timer *)

(** [handleVoiceActivity]; its argument [volume] is not used by the body.
    [start] is what [mediaRecorder.start(100)] does when it is called:
    it puts the recorder in state [recording], or it throws (an inactive
    recorder throws when its stream has ended, for one) and the [catch]
    logs the error, the recorder staying as it was. *)
Definition handleVoiceActivity (start : Awaited unit) (s : Engine) : Engine :=
  let s := match silenceTimer s with
           | Some _ => set_silenceTimer None s
           | None => s
           end in
  let s := match currentAudio s with
           | Some a => if negb (audioPaused s a) then interruptCurrentResponse s
                       else s
           | None => s
           end in
  match mediaRecorder s with
  | Some inactive =>
      match start with
      | Resolved _ => emit RecorderStart (set_mediaRecorder (Some recording) s)
      | Rejected _ => emit (ConsoleError "Failed to start recording:") s
      end
  | _ => s
  end.

(** The callback of the timeout set by [handleSilence]. *)
Definition silenceTimeout (s : Engine) : Engine :=
  let s := match mediaRecorder s with
           | Some recording => emit RecorderStop (set_mediaRecorder (Some inactive) s)
           | _ => s
           end in
  set_silenceTimer None s.

(** [handleSilence]: arms the timeout unless one is pending. *)
Definition handleSilence (s : Engine) : Engine :=
  match silenceTimer s with
  | Some _ => s
  | None => set_silenceTimer (Some (clock s + SILENCE_DURATION)) s
  end.

(** [detectActivity], one animation frame; [dataArray] is what
    [getByteFrequencyData] wrote, [start] what [mediaRecorder.start] does
    if the frame calls it. *)
Definition detectActivity (dataArray : Snapshot) (start : Awaited unit)
  (s : Engine) : Engine :=
  if negb (analyser s) then s
  else if rms_gt_interruption dataArray then handleVoiceActivity start s
  else if rms_lt_silence dataArray then handleSilence s
  else s.

(** Time passes; a timeout that falls due runs its callback. *)
Definition elapse (ms : nat) (s : Engine) : Engine :=
  let t := clock s + Z.of_nat ms in
  match silenceTimer s with
  | Some due => if due <=? t then set_clock t (silenceTimeout s) else set_clock t s
  | None => set_clock t s
  end.

(** [mediaRecorder.ondataavailable] *)
Definition ondataavailable (size : N) (s : Engine) : Engine :=
  if (0 <? size)%N then set_audioChunks (audioChunks s ++ [size]) s else s.

(** [mediaRecorder.onstop] *)
Definition onstop (dateNow : Z) (s : Engine) : Engine :=
  match audioChunks s with
  | [] => s
  | _ :: _ => processAudioWithInterruption dateNow (set_audioChunks [] s)
  end.

(** [cleanup] *)
Definition cleanup (s : Engine) : Engine :=
  let s := match mediaRecorder s with
           | Some recording => emit RecorderStop (set_mediaRecorder (Some inactive) s)
           | _ => s
           end in
  let s := match currentAudio s with
           | Some a => set_currentAudio None (pauseAudio a s)
           | None => s
           end in
  let s := match silenceTimer s with
           | Some _ => set_silenceTimer None s
           | None => s
           end in
  let s := set_mediaRecorder None s in
  let s := set_analyser false s in
  let s := set_isProcessing false s in
  let s := set_currentProcessingId None s in
  emit (ConsoleLog "Voice processing engine cleaned up") s.

(** ** The event loop *)

Inductive Event :=
| Elapse (ms : nat)
| AnimationFrame (dataArray : Snapshot) (start : Awaited unit)
| DataAvailable (size : N)
| RecorderStopped (dateNow : Z)
| Base64Settled (r : nat) (res : Awaited unit)
| TranscribeSettled (r : nat) (res : Awaited JSString)
| GenerateTextSettled (r : nat) (res : Awaited string)
| GenerateSpeechSettled (r : nat) (res : Awaited string)
| AudioEnded (a : nat)
| AudioError (a : nat)
| PlayRejected (a : nat) (error : Error)
| InterruptCurrentResponse
| Cleanup.

Definition step (s : Engine) (ev : Event) : Engine :=
  match ev with
  | Elapse ms => elapse ms s
  | AnimationFrame dataArray start => detectActivity dataArray start s
  | DataAvailable size => ondataavailable size s
  | RecorderStopped dateNow => onstop dateNow s
  | Base64Settled r res => resume r (Base64 res) s
  | TranscribeSettled r res => resume r (Transcription res) s
  | GenerateTextSettled r res => resume r (Reply res) s
  | GenerateSpeechSettled r res => resume r (Speech res) s
  | AudioEnded a => audio_onended a s
  | AudioError a => audio_onerror a s
  | PlayRejected a error => audio_play_catch a error s
  | InterruptCurrentResponse => interruptCurrentResponse s
  | Cleanup => cleanup s
  end.

Definition exec (s : Engine) (evs : list Event) : Engine := fold_left step evs s.

(** The states the engine can be in after [initialize()]. *)
Inductive reachable : Engine -> Prop :=
| reachable_init : reachable initialized
| reachable_step s ev : reachable s -> reachable (step s ev).

(** ** What observers read *)

(** [getCurrentVolume]: the mean of the snapshot over 255. *)
Definition getCurrentVolume (dataArray : Snapshot) (s : Engine) : Q :=
  if negb (analyser s) then 0%Q
  else (inject_Z (sumValues dataArray) / inject_Z (bufferLength dataArray)
        / inject_Z 255)%Q.

Module VoiceProcessingState.
Record t := {
  isListening : bool;
  isProcessing : bool;
  isSpeaking : bool;
  currentVolume : Q;
  silenceDetected : bool;
  interruptionDetected : bool
}.
End VoiceProcessingState.

(** [getProcessingState]; [dataArray] is the analyser's snapshot at the
    moment of the call. *)
Definition getProcessingState (dataArray : Snapshot) (s : Engine)
  : VoiceProcessingState.t :=
  {| VoiceProcessingState.isListening :=
       match mediaRecorder s with Some recording => true | _ => false end;
     VoiceProcessingState.isProcessing := isProcessing s;
     VoiceProcessingState.isSpeaking :=
       match currentAudio s with
       | Some a => negb (audioPaused s a)
       | None => false
       end;
     VoiceProcessingState.currentVolume := getCurrentVolume dataArray s;
     VoiceProcessingState.silenceDetected :=
       match silenceTimer s with Some _ => true | None => false end;
     VoiceProcessingState.interruptionDetected := false |}.

(** ** The interface component that owns the interruption counter *)

(** [VoiceInterface]: the engine it holds in [voiceEngineRef] and
    [metrics.interruptionCount]. *)
Record VoiceInterface := {
  voiceEngineRef : option Engine;
  interruptionCount : nat
}.

(** [interruptAgent], the handler of the Interrupt button. *)
Definition interruptAgent (ui : VoiceInterface) : VoiceInterface :=
  match voiceEngineRef ui with
  | Some engine =>
      {| voiceEngineRef := Some (interruptCurrentResponse engine);
         interruptionCount := interruptionCount ui + 1 |}
  | None => ui
  end.

(** An engine callback running under the interface: only the engine
    changes. *)
Definition engineEvent (ev : Event) (ui : VoiceInterface) : VoiceInterface :=
  match voiceEngineRef ui with
  | Some engine =>
      {| voiceEngineRef := Some (step engine ev);
         interruptionCount := interruptionCount ui |}
  | None => ui
  end.

(** ** Reading the history of effects *)

(** The steps of one run that reach the outside. *)
Inductive Call := STT | GPT | TTS | PLAY | METRICS.

(** The step of run [r] that an effect is, if it is one. *)
Definition callOf (r : nat) (e : Effect) : list Call :=
  match e with
  | TranscribeAudio r' => if Nat.eqb r r' then [STT] else []
  | GenerateText r' _ => if Nat.eqb r r' then [GPT] else []
  | GenerateSpeech r' _ => if Nat.eqb r r' then [TTS] else []
  | AudioPlay r' _ => if Nat.eqb r r' then [PLAY] else []
  | ProcessingMetrics r' _ _ => if Nat.eqb r r' then [METRICS] else []
  | _ => []
  end.

(** The steps run [r] has taken so far, in order. *)
Definition runCalls (r : nat) (s : Engine) : list Call :=
  flat_map (callOf r) (effects s).

(** A complete run: one call of each service, playback, metrics. *)
Definition pipeline : list Call := [STT; GPT; TTS; PLAY; METRICS].

(** The steps a run suspended at a stage has taken. *)
Definition callsAt (st : Stage) (l : list Call) : Prop :=
  match st with
  | ReadingBlob _ => l = []
  | Transcribing _ => l = [STT]
  | Generating _ _ _ => l = [STT; GPT]
  | Synthesizing _ _ _ _ => l = [STT; GPT; TTS]
  | Playing _ _ _ _ _ => l = [STT; GPT; TTS; PLAY]
  | Settled _ => exists rest, pipeline = l ++ rest
  end.

Definition stageOf (r : nat) (s : Engine) : option Stage :=
  option_map stage (nth_error (runs s) r).

(** The milliseconds that pass during a list of events. *)
Fixpoint elapsed (evs : list Event) : Z :=
  match evs with
  | [] => 0
  | Elapse ms :: evs' => Z.of_nat ms + elapsed evs'
  | _ :: evs' => elapsed evs'
  end.

(** The events of a stretch of silence: animation frames whose volume is
    below the silence threshold, the passing of time, and whatever the
    recorder, the services, the audio elements and the interface do
    meanwhile; not [cleanup]. *)
Definition undisturbed (ev : Event) : Prop :=
  match ev with
  | AnimationFrame d _ =>
      bufferLength d = frequencyBinCount /\ (rms d < SILENCE_THRESHOLD)%R
  | Cleanup => False
  | _ => True
  end.

(** The number of times the engine has stopped the recorder. *)
Definition stopOf (e : Effect) : list unit :=
  match e with RecorderStop => [tt] | _ => [] end.

Definition recorderStops (s : Engine) : nat :=
  List.length (flat_map stopOf (effects s)).

(** The detection loop is as it was: the timer, the clock, the recorder,
    the analyser, and the stops of the recorder so far. *)
Definition sameLoop (s s' : Engine) : Prop :=
  silenceTimer s' = silenceTimer s
  /\ clock s' = clock s
  /\ mediaRecorder s' = mediaRecorder s
  /\ analyser s' = analyser s
  /\ recorderStops s' = recorderStops s.

(** A pending timeout lies in the future, at most [SILENCE_DURATION] away. *)
Definition timerPending (s : Engine) : Prop :=
  forall due, silenceTimer s = Some due ->
    clock s < due <= clock s + SILENCE_DURATION.

(** A service call of run [r] failing at the stage that awaits it. *)
Inductive ServiceFailure (r : nat) : Stage -> Event -> Call -> Prop :=
| stt_failure t0 e :
    ServiceFailure r (Transcribing t0) (TranscribeSettled r (Rejected e)) STT
| gpt_failure t0 t1 t2 e :
    ServiceFailure r (Generating t0 t1 t2) (GenerateTextSettled r (Rejected e)) GPT
| tts_failure t0 t1 t2 t3 e :
    ServiceFailure r (Synthesizing t0 t1 t2 t3)
      (GenerateSpeechSettled r (Rejected e)) TTS.

(** The detection loop and the recorder are as they were: the timer, the
    clock, the recorder, the analyser and the chunks gathered so far. *)
Definition sameDevices (s s' : Engine) : Prop :=
  silenceTimer s' = silenceTimer s
  /\ clock s' = clock s
  /\ mediaRecorder s' = mediaRecorder s
  /\ analyser s' = analyser s
  /\ audioChunks s' = audioChunks s.

(** The runs and the steps they have taken are as they were. *)
Definition sameRuns (s s' : Engine) : Prop :=
  runs s' = runs s /\ forall r, runCalls r s' = runCalls r s.

(** Every run has taken exactly the steps that lead to its stage, and no
    step is recorded for a run that does not exist. *)
Definition runsTraced (s : Engine) : Prop :=
  forall r,
    match nth_error (runs s) r with
    | Some run => callsAt (stage run) (runCalls r s)
    | None => runCalls r s = []
    end.

Definition Call_eq_dec (a b : Call) : {a = b} + {a <> b}.
Proof. decide equality. Defined.

(** ** Further readings of events and of the history *)

(** An animation frame or the passing of time. *)
Definition frameOrElapse (ev : Event) : Prop :=
  match ev with
  | AnimationFrame _ _ | Elapse _ => True
  | _ => False
  end.


(** Any event but a frame above the interruption threshold and
    [cleanup]. *)
Definition notLoud (ev : Event) : Prop :=
  match ev with
  | AnimationFrame d _ =>
      bufferLength d = frequencyBinCount /\ (rms d <= INTERRUPTION_THRESHOLD)%R
  | Cleanup => False
  | _ => True
  end.

(** The audio elements of [s] are still there in [s'], with their source
    and their awaiting run, and those that were paused are paused. *)
Definition audiosKept (s s' : Engine) : Prop :=
  forall a el,
    nth_error (audios s) a = Some el ->
    exists el',
      nth_error (audios s') a = Some el'
      /\ src el' = src el
      /\ awaitedBy el' = awaitedBy el
      /\ (audio_paused el = true -> audio_paused el' = true).

(** The current audio, if there is one, is an element that exists. *)
Definition audioValid (s : Engine) : Prop :=
  forall a, currentAudio s = Some a -> (a < List.length (audios s))%nat.

Definition audioOK (s s' : Engine) : Prop :=
  audiosKept s s' /\ (audioValid s -> audioValid s').

(** An event other than the settling of the playback of audio element [a]:
    its [ended] event, its [error] event, the rejection of its [play()]. *)
Definition notPlaybackOf (a : nat) (ev : Event) : Prop :=
  match ev with
  | AudioEnded a' | AudioError a' | PlayRejected a' _ => a' <> a
  | _ => True
  end.

(** A stage at which a run is still in flight. *)
Definition inFlight (st : Stage) : Prop := forall how, st <> Settled how.

(** ** Sample inputs *)

(** Snapshots of [frequencyBinCount] bins: full scale, silence, a level
    inside the gap between the two thresholds, and one full-scale bin. *)
Definition loud : Snapshot := repeat Byte.xff 1024.
Definition quiet : Snapshot := repeat Byte.x00 1024.
Definition murmur : Snapshot := repeat Byte.x08 1024.
Definition spike : Snapshot := Byte.xff :: repeat Byte.x00 1023.

(** An utterance: speech starts the recorder, chunks arrive, silence
    stops it after [SILENCE_DURATION], the recorder's [stop] event starts a
    run at wall-clock time [dateNow]. *)
Definition utterance (dateNow : Z) : list Event :=
  [AnimationFrame loud (Resolved tt); Elapse 100; DataAvailable 1600;
   AnimationFrame quiet (Resolved tt); Elapse 1500; DataAvailable 160;
   RecorderStopped dateNow].

(** Run 0 waits for the transcription of the first utterance. *)
Definition transcribing : Engine :=
  exec initialized (utterance 1700000000000 ++ [Elapse 5; Base64Settled 0 (Resolved tt)]).

(** Run 0 waits for the reply to "hello there". *)
Definition generating : Engine :=
  exec transcribing [Elapse 80; TranscribeSettled 0 (Resolved (js "hello there"))].

(** Run 0 waits for the synthesized speech of the reply. *)
Definition synthesizing : Engine :=
  exec generating [Elapse 90; GenerateTextSettled 0 (Resolved "Hi, how can I help?"%string)].

(** Run 0 plays its reply: audio element 0 is the current audio. *)
Definition speaking : Engine :=
  exec synthesizing [Elapse 60; GenerateSpeechSettled 0 (Resolved "blob:reply-0"%string)].

(** The speaker adds a few words while the first reply is being generated
    and falls silent; the first reply starts playing; then the silence timer
    stops the recorder and run 1 starts, and reaches speech synthesis, while
    the first reply is still playing. *)
Definition second_synthesizing : Engine :=
  exec generating
    [AnimationFrame loud (Resolved tt); Elapse 100; DataAvailable 1600; AnimationFrame quiet (Resolved tt);
     Elapse 90; GenerateTextSettled 0 (Resolved "Hi, how can I help?"%string);
     Elapse 60; GenerateSpeechSettled 0 (Resolved "blob:reply-0"%string);
     Elapse 1350; DataAvailable 160; RecorderStopped 1700000003400;
     Elapse 5; Base64Settled 1 (Resolved tt);
     Elapse 80; TranscribeSettled 1 (Resolved (js "and book it"));
     Elapse 90; GenerateTextSettled 1 (Resolved "Booked."%string)].

(** The second reply arrives and is played. *)
Definition overlap : Engine :=
  exec second_synthesizing
    [Elapse 60; GenerateSpeechSettled 1 (Resolved "blob:reply-1"%string)].

(** The first reply, still playing under the second one, reaches its end:
    its [ended] handler clears [currentAudio], which referred to the second
    element, and run 0 goes on to log its latencies. *)
Definition orphaned : Engine :=
  exec overlap [Elapse 100; AudioEnded 0].

(** A second utterance whose run starts at the same wall-clock reading as
    the first one: the system clock was set back by the 1.6 s between. *)
Definition clock_set_back : Engine :=
  exec transcribing (utterance 1700000000000).

(** ** The platform, [initialize] and the whole of [cleanup] *)

(** What the page finds in [navigator] and [window]. *)
Record Browser := {
  has_mediaDevices : bool;
  has_getUserMedia : bool;
  has_MediaRecorder : bool;
  has_AudioContext : bool;
  has_webkitAudioContext : bool;
  has_FileReader : bool
}.

Record Compatibility := { supported : bool; issues : list string }.

(** [checkBrowserCompatibility] *)
Definition checkBrowserCompatibility (b : Browser) : Compatibility :=
  let issues := [] in
  let issues :=
    if negb (has_mediaDevices b) || negb (has_getUserMedia b)
    then issues ++ ["getUserMedia not supported"%string] else issues in
  let issues :=
    if negb (has_MediaRecorder b)
    then issues ++ ["MediaRecorder not supported"%string] else issues in
  let issues :=
    if negb (has_AudioContext b) && negb (has_webkitAudioContext b)
    then issues ++ ["AudioContext not supported"%string] else issues in
  let issues :=
    if negb (has_FileReader b)
    then issues ++ ["FileReader not supported"%string] else issues in
  {| supported := Nat.eqb (List.length issues) 0; issues := issues |}.

Record MimeFormat := { mimeType : string; bitrate : Z }.

(** The list of [getSupportedMimeType], in its order of preference. *)
Definition mimeTypes : list MimeFormat :=
  [ {| mimeType := "audio/webm;codecs=opus"; bitrate := 16000 |};
    {| mimeType := "audio/webm"; bitrate := 16000 |};
    {| mimeType := "audio/mp4"; bitrate := 16000 |};
    {| mimeType := "audio/ogg;codecs=opus"; bitrate := 16000 |};
    {| mimeType := "audio/wav"; bitrate := 16000 |};
    {| mimeType := "audio/mpeg"; bitrate := 16000 |} ].

(** [AudioContext.state] *)
Inductive ContextState := suspended | running | closed.

(** What the platform answers to [initialize]: the result of each call that
    can fail, what [MediaRecorder.isTypeSupported] says, the snapshot the
    analyser gives to the first call of [detectActivity], and what
    [mediaRecorder.start] does if that call starts the recorder. *)
Record Platform := {
  browser : Browser;
  p_getUserMedia : Awaited unit;
  p_newAudioContext : Awaited ContextState;
  p_resume : Awaited unit;
  p_connect : Awaited unit;
  p_isTypeSupported : string -> bool;
  p_newMediaRecorder : option MimeFormat -> Awaited unit;
  p_firstFrame : Snapshot;
  p_firstStart : Awaited unit
}.

(** The engine with the two fields that only [initialize] and [cleanup]
    touch, and the warnings written to the console. *)
Record Device := {
  dev_engine : Engine;
  stream : bool;
  audioContext : option ContextState;
  warnings : list string
}.

Definition onEngine (f : Engine -> Engine) (d : Device) : Device :=
  {| dev_engine := f (dev_engine d); stream := stream d;
     audioContext := audioContext d; warnings := warnings d |}.

Definition set_stream (v : bool) (d : Device) : Device :=
  {| dev_engine := dev_engine d; stream := v;
     audioContext := audioContext d; warnings := warnings d |}.

Definition set_audioContext (v : option ContextState) (d : Device) : Device :=
  {| dev_engine := dev_engine d; stream := stream d;
     audioContext := v; warnings := warnings d |}.

Definition warn (msg : string) (d : Device) : Device :=
  {| dev_engine := dev_engine d; stream := stream d;
     audioContext := audioContext d; warnings := warnings d ++ [msg] |}.

(** The engine object as [new VoiceProcessingEngine()] makes it. *)
Definition createdDevice : Device :=
  {| dev_engine := created; stream := false; audioContext := None;
     warnings := [] |}.

(** [getSupportedMimeType]: the first entry of the list that the recorder
    supports, or the default. *)
Definition getSupportedMimeType (isTypeSupported : string -> bool) (d : Device)
  : Device * MimeFormat :=
  match List.find (fun format => isTypeSupported (mimeType format)) mimeTypes with
  | Some format =>
      (onEngine
         (emit (ConsoleLog
                  (String.append "Using supported MIME type: " (mimeType format))))
         d,
       format)
  | None =>
      (warn "No preferred MIME type supported, using default" d,
       {| mimeType := ""; bitrate := 16000 |})
  end.

(** [checkMediaRecorderSupport] *)
Definition checkMediaRecorderSupport (b : Browser) (d : Device) : Device * bool :=
  if negb (has_mediaDevices b) || negb (has_getUserMedia b) then
    (onEngine (emit (ConsoleError "getUserMedia not supported")) d, false)
  else if negb (has_MediaRecorder b) then
    (onEngine (emit (ConsoleError "MediaRecorder not supported")) d, false)
  else (d, true).

(** The whole of [cleanup]: the engine's part, the tracks of the stream
    stopped, the audio context closed unless it is closed already. *)
Definition cleanupDevice (d : Device) : Device :=
  {| dev_engine := cleanup (dev_engine d);
     stream := false;
     audioContext := match audioContext d with
                     | Some closed => Some closed
                     | _ => None
                     end;
     warnings := warnings d |}.

(** The creation of the recorder in [initialize]: with the chosen format,
    or without options when there is none; when that throws, once more
    without options. *)
Definition createMediaRecorder (p : Platform) (format : MimeFormat) (d : Device)
  : Device * Awaited unit :=
  let first :=
    if String.eqb (mimeType format) "" then p_newMediaRecorder p None
    else p_newMediaRecorder p (Some format) in
  match first with
  | Resolved _ => (onEngine (set_mediaRecorder (Some inactive)) d, Resolved tt)
  | Rejected _ =>
      let d :=
        warn "Failed to create MediaRecorder with preferred settings, using defaults:"
          d in
      match p_newMediaRecorder p None with
      | Resolved _ => (onEngine (set_mediaRecorder (Some inactive)) d, Resolved tt)
      | Rejected error => (d, Rejected error)
      end
  end.

(** The [try] block of [initialize], taken as one step: before it
    completes the engine has no callback of its own, and no other method of
    the engine is taken to be called between its awaits.  [p_connect] is
    the result of connecting the stream to the analyser. *)
Definition initialize_try (p : Platform) (d : Device) : Device * Awaited unit :=
  let (d, isSupported) := checkMediaRecorderSupport (browser p) d in
  if negb isSupported then
    (d, Rejected "Browser does not support required audio features"%string)
  else
    match p_getUserMedia p with
    | Rejected error => (d, Rejected error)
    | Resolved _ =>
        let d := set_stream true d in
        if negb (has_AudioContext (browser p)) then
          (d, Rejected "AudioContext is not defined"%string)
        else
          match p_newAudioContext p with
          | Rejected error => (d, Rejected error)
          | Resolved state =>
              let d := set_audioContext (Some state) d in
              let resumed :=
                match state with
                | suspended =>
                    match p_resume p with
                    | Resolved _ => (set_audioContext (Some running) d, Resolved tt)
                    | Rejected error => (d, Rejected error)
                    end
                | _ => (d, Resolved tt)
                end in
              match resumed with
              | (d, Rejected error) => (d, Rejected error)
              | (d, Resolved _) =>
                  let d := onEngine (set_analyser true) d in
                  match p_connect p with
                  | Rejected error => (d, Rejected error)
                  | Resolved _ =>
                      let (d, format) :=
                        getSupportedMimeType (p_isTypeSupported p) d in
                      match createMediaRecorder p format d with
                      | (d, Rejected error) => (d, Rejected error)
                      | (d, Resolved _) =>
                          let d :=
                            onEngine
                              (detectActivity (p_firstFrame p) (p_firstStart p))
                              d in
                          (onEngine
                             (emit (ConsoleLog
                                      "Voice processing engine initialized successfully"))
                             d,
                           Resolved tt)
                      end
                  end
              end
          end
    end.

(** [initialize]: on an exception the error is logged, [cleanup] runs and
    the exception is thrown again. *)
Definition initialize (p : Platform) (d : Device) : Device * Settlement :=
  match initialize_try p d with
  | (d, Resolved _) => (d, Fulfilled)
  | (d, Rejected error) =>
      (cleanupDevice
         (onEngine (emit (ConsoleError "Failed to initialize voice processing:")) d),
       RejectedWith error)
  end.

(** The fields of two engines agree, whatever they have written to the
    console. *)
Definition sameFields (s s' : Engine) : Prop :=
  mediaRecorder s' = mediaRecorder s /\ analyser s' = analyser s
  /\ isProcessing s' = isProcessing s /\ silenceTimer s' = silenceTimer s
  /\ currentProcessingId s' = currentProcessingId s
  /\ currentAudio s' = currentAudio s /\ audioChunks s' = audioChunks s
  /\ audios s' = audios s /\ runs s' = runs s /\ clock s' = clock s.

(** A platform on which everything works: a browser with all its parts, a
    recorder that supports WebM, an analyser that starts with silence. *)
Definition chromium : Platform :=
  {| browser := {| has_mediaDevices := true; has_getUserMedia := true;
                   has_MediaRecorder := true; has_AudioContext := true;
                   has_webkitAudioContext := false; has_FileReader := true |};
     p_getUserMedia := Resolved tt;
     p_newAudioContext := Resolved suspended;
     p_resume := Resolved tt;
     p_connect := Resolved tt;
     p_isTypeSupported := fun m => String.eqb m "audio/webm";
     p_newMediaRecorder := fun _ => Resolved tt;
     p_firstFrame := quiet;
     p_firstStart := Resolved tt |}.

(** A browser that has only the prefixed audio context. *)
Definition oldSafari : Platform :=
  {| browser := {| has_mediaDevices := true; has_getUserMedia := true;
                   has_MediaRecorder := true; has_AudioContext := false;
                   has_webkitAudioContext := true; has_FileReader := true |};
     p_getUserMedia := Resolved tt;
     p_newAudioContext := Resolved running;
     p_resume := Resolved tt;
     p_connect := Resolved tt;
     p_isTypeSupported := fun m => String.eqb m "audio/mp4";
     p_newMediaRecorder := fun _ => Resolved tt;
     p_firstFrame := quiet;
     p_firstStart := Resolved tt |}.

(** * AgentManager: routing, contexts and the customer's turns

    A shallow embedding of [AgentManager] (services/agent-manager).  A
    conversation context is an object that the map [activeContexts] and the
    calls of [processMessage] in flight share: the objects are kept in a store
    and named by their index.  A call of [processMessage] is a turn, suspended
    at one of its awaits. *)

Inductive AgentType := booking | consultation.

Definition typeName (type : AgentType) : string :=
  match type with booking => "booking" | consultation => "consultation" end.

(** An [Agent]; its [persona] is left out: only the prompt of a reply reads
    it. *)
Record Agent := {
  agent_id : string;
  agent_name : string;
  agent_type : AgentType;
  voiceId : string;
  isActive : bool
}.

(** A [Map], or an object, with string keys: its entries in the order in
    which the keys were set first. *)
Definition StringMap (V : Type) : Type := list (string * V).

Fixpoint map_get {V : Type} (key : string) (m : StringMap V) : option V :=
  match m with
  | [] => None
  | (k, v) :: m' => if String.eqb k key then Some v else map_get key m'
  end.

Fixpoint map_set {V : Type} (key : string) (value : V) (m : StringMap V)
  : StringMap V :=
  match m with
  | [] => [(key, value)]
  | (k, v) :: m' =>
      if String.eqb k key then (k, value) :: m' else (k, v) :: map_set key value m'
  end.

Definition map_delete {V : Type} (key : string) (m : StringMap V) : StringMap V :=
  List.filter (fun entry => negb (String.eqb (fst entry) key)) m.

Definition map_values {V : Type} (m : StringMap V) : list V := List.map snd m.

(** The object that [generateObject] answers with: string properties. *)
Definition Entities : Type := StringMap string.

(** [{ ...a, ...b }] *)
Definition spread (a b : Entities) : Entities :=
  fold_left (fun object entry => map_set (fst entry) (snd entry) object) b a.

(** [entities.key] where it is used as a condition: the value when it is
    there and not the empty string. *)
Definition truthyProperty (key : string) (e : Entities) : option string :=
  match map_get key e with
  | Some value => if String.eqb value "" then None else Some value
  | None => None
  end.

(** [entities.key || fallback] *)
Definition orElse (key fallback : string) (e : Entities) : string :=
  match truthyProperty key e with
  | Some value => value
  | None => fallback
  end.

Record ConversationContext := {
  customerId : string;
  intent : JSString;
  entities : Entities;
  conversationHistory : list string;
  currentAgent : string;
  transferReason : option string
}.

Definition set_entities v (c : ConversationContext) : ConversationContext :=
  {| customerId := customerId c; intent := intent c; entities := v;
     conversationHistory := conversationHistory c;
     currentAgent := currentAgent c; transferReason := transferReason c |}.

Definition set_conversationHistory v (c : ConversationContext)
  : ConversationContext :=
  {| customerId := customerId c; intent := intent c; entities := entities c;
     conversationHistory := v;
     currentAgent := currentAgent c; transferReason := transferReason c |}.

Definition set_currentAgent v (c : ConversationContext) : ConversationContext :=
  {| customerId := customerId c; intent := intent c; entities := entities c;
     conversationHistory := conversationHistory c;
     currentAgent := v; transferReason := transferReason c |}.

Definition set_transferReason v (c : ConversationContext) : ConversationContext :=
  {| customerId := customerId c; intent := intent c; entities := entities c;
     conversationHistory := conversationHistory c;
     currentAgent := currentAgent c; transferReason := v |}.

Record AppointmentData := {
  appointment_customerName : string;
  appointment_email : string;
  appointment_phone : string;
  preferredDate : string;
  preferredTime : string;
  serviceType : string;
  duration : Z;
  notes : string
}.

Record ConsultationData := {
  consultation_customerName : string;
  consultation_email : string;
  consultation_phone : string;
  consultationType : string;
  urgency : string;
  description : string;
  preferredContact : string;
  followUpRequired : bool
}.

(** Where a call of [processMessage] is suspended, with the local variables
    that are alive there: the context object, and the response once it is
    known. *)
Inductive TurnStage :=
| Responding (context : nat) (message : string)
| Extracting (context : nat) (response : string)
| CalendarPause (context : nat) (response : string) (data : AppointmentData)
| CreatingAppointment (context : nat) (response : string) (data : AppointmentData)
| SheetsPause (context : nat) (response : string) (data : ConsultationData)
| CreatingConsultation (context : nat) (response : string) (data : ConsultationData)
| TurnSettled (result : Awaited string).

(** What the manager does to the outside: console lines, with the record
    printed after the text where there is one, and the rows it creates in
    the database (with status scheduled, or pending, and the time of the
    call). *)
Inductive ManagerEffect :=
| Log (text : string)
| LogError (text : string)
| LogAppointment (text : string) (data : AppointmentData)
| LogConsultation (text : string) (data : ConsultationData)
| CreateAppointment (data : AppointmentData)
| CreateConsultation (data : ConsultationData).

Record AgentManager := {
  agents : StringMap Agent;
  contextObjects : list ConversationContext;
  activeContexts : StringMap nat;
  turns : list TurnStage;
  output : list ManagerEffect
}.

Definition set_contextObjects v (m : AgentManager) : AgentManager :=
  {| agents := agents m; contextObjects := v;
     activeContexts := activeContexts m; turns := turns m; output := output m |}.

Definition set_activeContexts v (m : AgentManager) : AgentManager :=
  {| agents := agents m; contextObjects := contextObjects m;
     activeContexts := v; turns := turns m; output := output m |}.

Definition set_turns v (m : AgentManager) : AgentManager :=
  {| agents := agents m; contextObjects := contextObjects m;
     activeContexts := activeContexts m; turns := v; output := output m |}.

Definition write (e : ManagerEffect) (m : AgentManager) : AgentManager :=
  {| agents := agents m; contextObjects := contextObjects m;
     activeContexts := activeContexts m; turns := turns m;
     output := output m ++ [e] |}.

Definition bookingAgent : Agent :=
  {| agent_id := "booking-agent-001"; agent_name := "Sarah";
     agent_type := booking; voiceId := "nova"; isActive := true |}.

Definition consultationAgent : Agent :=
  {| agent_id := "consultation-agent-001"; agent_name := "Michael";
     agent_type := consultation; voiceId := "onyx"; isActive := true |}.

(** [new AgentManager()], with [initializeAgents]. *)
Definition newAgentManager : AgentManager :=
  {| agents :=
       map_set (agent_id consultationAgent) consultationAgent
         (map_set (agent_id bookingAgent) bookingAgent []);
     contextObjects := []; activeContexts := []; turns := []; output := [] |}.

(** [getActiveAgents] *)
Definition getActiveAgents (m : AgentManager) : list Agent :=
  List.filter isActive (map_values (agents m)).

(** [this.activeContexts.get(customerId)]: the object and its name. *)
Definition activeContext (customerId : string) (m : AgentManager)
  : option (nat * ConversationContext) :=
  match map_get customerId (activeContexts m) with
  | Some ref =>
      match nth_error (contextObjects m) ref with
      | Some context => Some (ref, context)
      | None => None
      end
  | None => None
  end.

(** [getConversationContext] *)
Definition getConversationContext (customerId : string) (m : AgentManager)
  : option ConversationContext :=
  option_map snd (activeContext customerId m).

(** [endCall] *)
Definition endCall (customerId : string) (m : AgentManager) : AgentManager :=
  write (Log ("Ended call for customer " ++ customerId))
    (set_activeContexts (map_delete customerId (activeContexts m)) m).

(** [s.includes(sub)] on code units. *)
Fixpoint startsWith (s sub : JSString) : bool :=
  match sub, s with
  | [], _ => true
  | _ :: _, [] => false
  | c :: sub', d :: s' => N.eqb c d && startsWith s' sub'
  end.

Fixpoint includes (s sub : JSString) : bool :=
  startsWith s sub
  || match s with
     | [] => false
     | _ :: s' => includes s' sub
     end.

(** [extractEntities], given how [generateObject] settled. *)
Definition extractEntities (extracted : Awaited Entities) (m : AgentManager)
  : AgentManager * Entities :=
  match extracted with
  | Resolved object => (m, object)
  | Rejected _ => (write (LogError "Entity extraction failed:") m, [])
  end.

(** The record that [handleBookingCompletion] saves, when the entities
    suffice. *)
Definition appointmentOf (context : ConversationContext) : option AppointmentData :=
  let entities := entities context in
  match truthyProperty "name" entities, truthyProperty "date" entities,
        truthyProperty "time" entities, truthyProperty "service" entities with
  | Some name, Some date, Some time, Some service =>
      Some {| appointment_customerName := name;
              appointment_email := orElse "email" "" entities;
              appointment_phone := orElse "phone" "" entities;
              preferredDate := date;
              preferredTime := time;
              serviceType := service;
              duration := 60;
              notes := String.concat " " (conversationHistory context) |}
  | _, _, _, _ => None
  end.

(** The record that [handleConsultationCompletion] saves. *)
Definition consultationOf (context : ConversationContext) : option ConsultationData :=
  let entities := entities context in
  match truthyProperty "name" entities, truthyProperty "service" entities with
  | Some name, Some service =>
      Some {| consultation_customerName := name;
              consultation_email := orElse "email" "" entities;
              consultation_phone := orElse "phone" "" entities;
              consultationType := service;
              urgency := orElse "urgency" "medium" entities;
              description := String.concat " " (conversationHistory context);
              preferredContact :=
                match truthyProperty "email" entities with
                | Some _ => "email"
                | None => "phone"
                end;
              followUpRequired := true |}
  | _, _ => None
  end.

(** [handleTaskCompletion], to its first await or to its end: the agent is
    the one the context names now. *)
Definition handleTaskCompletion (context : nat) (response : string)
  (m : AgentManager) : AgentManager * TurnStage :=
  match nth_error (contextObjects m) context with
  | None => (m, TurnSettled (Resolved response))
  | Some object =>
      match map_get (currentAgent object) (agents m) with
      | None =>
          (m, TurnSettled
                (Rejected "Cannot read properties of undefined (reading 'type')"%string))
      | Some agent =>
          match agent_type agent with
          | booking =>
              match appointmentOf object with
              | Some data =>
                  (write (LogAppointment "Saving to Google Calendar:" data) m,
                   CalendarPause context response data)
              | None => (m, TurnSettled (Resolved response))
              end
          | consultation =>
              match consultationOf object with
              | Some data =>
                  (write (LogConsultation "Saving to Google Sheets:" data) m,
                   SheetsPause context response data)
              | None => (m, TurnSettled (Resolved response))
              end
          end
      end
  end.

(** [processMessage], to its first await: the message is pushed to the
    history of the context object before the response is asked for. *)
Definition processMessage (customerId message : string) (m : AgentManager)
  : AgentManager :=
  match activeContext customerId m with
  | None =>
      set_turns
        (turns m ++ [TurnSettled (Rejected "No active context for customer"%string)])
        m
  | Some (ref, context) =>
      match map_get (currentAgent context) (agents m) with
      | None =>
          set_turns (turns m ++ [TurnSettled (Rejected "Agent not found"%string)]) m
      | Some agent =>
          let context :=
            set_conversationHistory (conversationHistory context ++ [message])
              context in
          set_turns (turns m ++ [Responding ref message])
            (set_contextObjects (replaceAt ref context (contextObjects m)) m)
      end
  end.

(** What a turn was waiting for, settled. *)
Inductive TurnResumption :=
| AgentResponse (res : Awaited string)
| ExtractedEntities (res : Awaited Entities)
| PauseOver
| Created (res : Awaited unit).

(** The continuation of [processMessage] from one await to the next. *)
Definition resumeTurn (turn : nat) (how : TurnResumption) (m : AgentManager)
  : AgentManager :=
  match nth_error (turns m) turn with
  | None => m
  | Some stage =>
      let next (result : AgentManager * TurnStage) : AgentManager :=
        set_turns (replaceAt turn (snd result) (turns (fst result))) (fst result) in
      match stage, how with
      | Responding context message, AgentResponse res =>
          match res with
          | Resolved text => next (m, Extracting context text)
          | Rejected _ =>
              next (write (LogError "Agent response generation failed:") m,
                    Extracting context
                      "I apologize, I'm having trouble processing that. Could you please repeat?")
          end
      | Extracting context response, ExtractedEntities res =>
          let (m, newEntities) := extractEntities res m in
          let m :=
            match nth_error (contextObjects m) context with
            | Some object =>
                set_contextObjects
                  (replaceAt context
                     (set_entities (spread (entities object) newEntities) object)
                     (contextObjects m))
                  m
            | None => m
            end in
          next (handleTaskCompletion context response m)
      | CalendarPause context response data, PauseOver =>
          next (write (CreateAppointment data) m,
                CreatingAppointment context response data)
      | CreatingAppointment context response data, Created res =>
          let m :=
            match res with
            | Resolved _ => m
            | Rejected _ =>
                write (LogError "Failed to save appointment to database:") m
            end in
          next (write (LogAppointment "Appointment booked successfully:" data) m,
                TurnSettled (Resolved response))
      | SheetsPause context response data, PauseOver =>
          next (write (CreateConsultation data) m,
                CreatingConsultation context response data)
      | CreatingConsultation context response data, Created res =>
          let m :=
            match res with
            | Resolved _ => m
            | Rejected _ =>
                write (LogError "Failed to save consultation to database:") m
            end in
          next (write (LogConsultation "Consultation details saved:" data) m,
                TurnSettled (Resolved response))
      | _, _ => m
      end
  end.

Section CaseMapping.

(** [String.prototype.toLowerCase] and [toUpperCase]: whatever the Unicode
    case mappings are. *)
Variable toLowerCase : JSString -> JSString.
Variable toUpperCase : string -> string.

(** [detectIntent], given how [generateText] settled. *)
Definition detectIntent (generated : Awaited JSString) (m : AgentManager)
  : AgentManager * JSString :=
  match generated with
  | Resolved text => (m, toLowerCase (trim text))
  | Rejected _ =>
      (write (LogError "Intent detection failed:") m, js "general_inquiry")
  end.

(** [routeCall], given how its two requests settled.  Until both have, it
    reads [agents] and writes to the console only. *)
Definition routeCall (customerId initialMessage : string)
  (generated : Awaited JSString) (extracted : Awaited Entities)
  (m : AgentManager) : AgentManager * Awaited Agent :=
  let (m, intent) := detectIntent generated m in
  let selectedAgent :=
    if includes intent (js "appointment") || includes intent (js "booking")
       || includes intent (js "schedule")
    then map_get "booking-agent-001" (agents m)
    else map_get "consultation-agent-001" (agents m) in
  let (m, entities) := extractEntities extracted m in
  match selectedAgent with
  | None =>
      (m, Rejected "Cannot read properties of undefined (reading 'id')"%string)
  | Some selectedAgent =>
      let context :=
        {| customerId := customerId; intent := intent; entities := entities;
           conversationHistory := [initialMessage];
           currentAgent := agent_id selectedAgent;
           transferReason := None |} in
      let ref := List.length (contextObjects m) in
      let m := set_contextObjects (contextObjects m ++ [context]) m in
      let m := set_activeContexts (map_set customerId ref (activeContexts m)) m in
      (write
         (Log ("Routed customer " ++ customerId ++ " to "
               ++ agent_name selectedAgent ++ " ("
               ++ typeName (agent_type selectedAgent) ++ ")"))
         m,
       Resolved selectedAgent)
  end.

(** [transferCall] *)
Definition transferCall (customerId : string) (targetAgentType : AgentType)
  (reason : string) (m : AgentManager) : AgentManager * Awaited Agent :=
  match activeContext customerId m with
  | None => (m, Rejected "No active context for customer"%string)
  | Some (ref, context) =>
      let targetAgentId :=
        match targetAgentType with
        | booking => "booking-agent-001"
        | consultation => "consultation-agent-001"
        end%string in
      let context :=
        set_transferReason (Some reason) (set_currentAgent targetAgentId context) in
      let m := set_contextObjects (replaceAt ref context (contextObjects m)) m in
      match map_get targetAgentId (agents m) with
      | None =>
          (m, Rejected "Cannot read properties of undefined (reading 'name')"%string)
      | Some targetAgent =>
          let context :=
            set_conversationHistory
              (conversationHistory context
               ++ [("[TRANSFERRED TO " ++ toUpperCase (agent_name targetAgent)
                    ++ "]")%string])
              context in
          let m := set_contextObjects (replaceAt ref context (contextObjects m)) m in
          (write
             (Log ("Transferred customer " ++ customerId ++ " to "
                   ++ agent_name targetAgent ++ ": " ++ reason))
             m,
           Resolved targetAgent)
      end
  end.

(** What happens to the manager: the calls of its methods and the
    settling of what its turns wait for. *)
Inductive ManagerEvent :=
| RouteCall (customerId initialMessage : string)
    (generated : Awaited JSString) (extracted : Awaited Entities)
| ProcessMessage (customerId message : string)
| TurnResumed (turn : nat) (how : TurnResumption)
| TransferCall (customerId : string) (targetAgentType : AgentType) (reason : string)
| EndCall (customerId : string).

Definition manage (m : AgentManager) (ev : ManagerEvent) : AgentManager :=
  match ev with
  | RouteCall customerId initialMessage generated extracted =>
      fst (routeCall customerId initialMessage generated extracted m)
  | ProcessMessage customerId message => processMessage customerId message m
  | TurnResumed turn how => resumeTurn turn how m
  | TransferCall customerId targetAgentType reason =>
      fst (transferCall customerId targetAgentType reason m)
  | EndCall customerId => endCall customerId m
  end.

Definition conduct (m : AgentManager) (evs : list ManagerEvent) : AgentManager :=
  fold_left manage evs m.

(** The states of a manager after its construction. *)
Inductive managed : AgentManager -> Prop :=
| managed_new : managed newAgentManager
| managed_step m ev : managed m -> managed (manage m ev).

End CaseMapping.

(** The case mappings on the letters A to Z and a to z, the other characters
    kept: what [toLowerCase] and [toUpperCase] do on ASCII text. *)
Definition asciiLower (s : JSString) : JSString :=
  List.map (fun c => if (N.leb 65 c && N.leb c 90)%N then (c + 32)%N else c) s.

Definition asciiUpper (s : string) : string :=
  string_of_list_ascii
    (List.map
       (fun a =>
          let c := N_of_ascii a in
          if (N.leb 97 c && N.leb c 122)%N then ascii_of_N (c - 32) else a)
       (list_ascii_of_string s)).

(** The context object a turn holds. *)
Definition stageContext (stage : TurnStage) : option nat :=
  match stage with
  | Responding context _ | Extracting context _
  | CalendarPause context _ _ | CreatingAppointment context _ _
  | SheetsPause context _ _ | CreatingConsultation context _ _ => Some context
  | TurnSettled _ => None
  end.

(** The context names one of the two agents. *)
Definition namesAgent (context : ConversationContext) : Prop :=
  currentAgent context = agent_id bookingAgent
  \/ currentAgent context = agent_id consultationAgent.

(** A turn holds an object of the store, and if it was rejected, then
    because its customer had no context. *)
Definition turnOK (m : AgentManager) (stage : TurnStage) : Prop :=
  (forall context, stageContext stage = Some context ->
                   (context < List.length (contextObjects m))%nat)
  /\ (forall e, stage = TurnSettled (Rejected e) ->
                e = "No active context for customer"%string).

Definition managerOK (m : AgentManager) : Prop :=
  agents m = agents newAgentManager
  /\ (forall key ref, map_get key (activeContexts m) = Some ref ->
        exists context, nth_error (contextObjects m) ref = Some context
                        /\ customerId context = key)
  /\ Forall namesAgent (contextObjects m)
  /\ Forall (turnOK m) (turns m).

(** The stage of a turn. *)
Definition turnStage (m : AgentManager) (turn : nat) : option TurnStage :=
  nth_error (turns m) turn.

(** What [routeCall] takes from its two requests: the intent, the entities,
    and the agent for an intent. *)
Definition intentOf (toLowerCase : JSString -> JSString)
  (generated : Awaited JSString) : JSString :=
  match generated with
  | Resolved text => toLowerCase (trim text)
  | Rejected _ => js "general_inquiry"
  end.

Definition entitiesOf (extracted : Awaited Entities) : Entities :=
  match extracted with
  | Resolved object => object
  | Rejected _ => []
  end.

Definition agentFor (intent : JSString) : Agent :=
  if includes intent (js "appointment") || includes intent (js "booking")
     || includes intent (js "schedule")
  then bookingAgent else consultationAgent.

(** The agent of a type. *)
Definition agentOfType (type : AgentType) : Agent :=
  match type with booking => bookingAgent | consultation => consultationAgent end.

(** The response of a turn: the text generated, or the apology of
    [generateAgentResponse] when the request fails. *)
Definition responseOf (res : Awaited string) : string :=
  match res with
  | Resolved text => text
  | Rejected _ =>
      "I apologize, I'm having trouble processing that. Could you please repeat?"
  end.

(** One call of [processMessage] with nothing else in between: the call
    and the four things it may wait for. *)
Definition turnEvents (customerId message : string) (turn : nat)
  (response : Awaited string) (extracted : Awaited Entities)
  (created : Awaited unit) : list ManagerEvent :=
  [ProcessMessage customerId message;
   TurnResumed turn (AgentResponse response);
   TurnResumed turn (ExtractedEntities extracted);
   TurnResumed turn PauseOver;
   TurnResumed turn (Created created)].

(** The rows created in the database. *)
Definition isRow (e : ManagerEffect) : bool :=
  match e with
  | CreateAppointment _ | CreateConsultation _ => true
  | _ => false
  end.

Definition rows (m : AgentManager) : list ManagerEffect :=
  List.filter isRow (output m).

(** ** Sample states of a manager *)

(** A customer routed to the booking agent. *)
Definition routed : AgentManager :=
  conduct asciiLower asciiUpper newAgentManager
    [RouteCall "customer-42" "Hello, I need help"
       (Resolved (js " Appointment_Booking "))
       (Resolved [("name", "Ada")%string])].

(** The same customer after one message that completed the booking. *)
Definition booked : AgentManager :=
  conduct asciiLower asciiUpper routed
    [ProcessMessage "customer-42" "A haircut on Friday at ten, please";
     TurnResumed 0 (AgentResponse (Resolved "Friday at ten it is."%string));
     TurnResumed 0
       (ExtractedEntities
          (Resolved [("date", "Friday"); ("time", "10:00");
                     ("service", "haircut")]%string));
     TurnResumed 0 PauseOver;
     TurnResumed 0 (Created (Rejected "database offline"%string))].

(** The same customer with a turn in flight, its response known. *)
Definition answering : AgentManager :=
  conduct asciiLower asciiUpper routed
    [ProcessMessage "customer-42" "On Friday, please";
     TurnResumed 0 (AgentResponse (Resolved "At what time?"%string))].

(** * Dashboard: the statistics of [loadDashboardStats]

    JavaScript numbers are binary64 floating-point numbers: the average
    and the rate are computed on [PrimFloat.float].  Lengths of arrays are
    natural numbers, exact as floats. *)

(** A row of [callSessions], with the two properties the statistics read. *)
Record CallSession := {
  session_status : string;
  session_avgLatency : option PrimFloat.float
}.

Record DashboardStats := {
  totalCalls : nat;
  activeCalls : nat;
  avgLatency : PrimFloat.float;
  successRate : PrimFloat.float;
  appointmentsBooked : nat;
  consultationsCollected : nat
}.

(** A length as a number. *)
Definition numberOf (n : nat) : PrimFloat.float :=
  PrimFloat.of_uint63 (Uint63.of_Z (Z.of_nat n)).

(** [call.avgLatency || 0]: zero for a missing value, for a zero and for
    NaN. *)
Definition latencyOrZero (call : CallSession) : PrimFloat.float :=
  match session_avgLatency call with
  | Some x =>
      if PrimFloat.eqb x PrimFloat.zero || negb (PrimFloat.eqb x x)
      then PrimFloat.zero else x
  | None => PrimFloat.zero
  end.

Definition hasStatus (status : string) (call : CallSession) : bool :=
  String.eqb (session_status call) status.

(** The statistics computed from the three lists. *)
Definition calculateStats {Appointment Consultation : Type}
  (appointments : list Appointment) (consultations : list Consultation)
  (callSessions : list CallSession) : DashboardStats :=
  let totalCalls := List.length callSessions in
  let activeCalls := List.length (List.filter (hasStatus "active") callSessions) in
  let avgLatency :=
    if Nat.ltb 0 (List.length callSessions) then
      PrimFloat.div
        (fold_left (fun sum call => PrimFloat.add sum (latencyOrZero call))
           callSessions PrimFloat.zero)
        (numberOf (List.length callSessions))
    else PrimFloat.zero in
  let successRate :=
    if Nat.ltb 0 totalCalls then
      PrimFloat.mul
        (PrimFloat.div
           (numberOf (List.length (List.filter (hasStatus "completed") callSessions)))
           (numberOf totalCalls))
        (numberOf 100)
    else PrimFloat.zero in
  {| totalCalls := totalCalls; activeCalls := activeCalls;
     avgLatency := avgLatency; successRate := successRate;
     appointmentsBooked := List.length appointments;
     consultationsCollected := List.length consultations |}.

(** [loadDashboardStats]: nothing without a user that has an id ([user] is
    the id, when there is a user); the statistics are replaced when the
    three lists have arrived, and kept when one of the requests fails.  The
    result is the new value of [stats]. *)
Definition loadDashboardStats {Appointment Consultation : Type}
  (user : option string)
  (appointments : Awaited (list Appointment))
  (consultations : Awaited (list Consultation))
  (callSessions : Awaited (list CallSession))
  (stats : DashboardStats) : DashboardStats :=
  match user with
  | None => stats
  | Some id =>
      if String.eqb id "" then stats
      else
        match appointments, consultations, callSessions with
        | Resolved appointments, Resolved consultations, Resolved callSessions =>
            calculateStats appointments consultations callSessions
        | _, _, _ => stats
        end
  end.

(** The rate for [completed] calls of [total], and the check that it is a
    percentage, run for every pair of numbers up to a limit. *)
Definition rateOf (completed total : Z) : PrimFloat.float :=
  PrimFloat.mul
    (PrimFloat.div (PrimFloat.of_uint63 (Uint63.of_Z completed))
       (PrimFloat.of_uint63 (Uint63.of_Z total)))
    (PrimFloat.of_uint63 (Uint63.of_Z 100)).

Definition rateInRange (completed total : Z) : bool :=
  let rate := rateOf completed total in
  PrimFloat.leb PrimFloat.zero rate
  && PrimFloat.leb rate (PrimFloat.of_uint63 (Uint63.of_Z 100))
  && Bool.eqb (PrimFloat.eqb rate (PrimFloat.of_uint63 (Uint63.of_Z 100)))
       (completed =? total)
  && Bool.eqb (PrimFloat.eqb rate PrimFloat.zero) (completed =? 0).

(** The check for [completed], [completed + 1], ... ([count] numbers). *)
Fixpoint rowInRange (count : nat) (completed total : Z) : bool :=
  match count with
  | O => true
  | S count' =>
      rateInRange completed total && rowInRange count' (completed + 1) total
  end.

(** The check for the totals [total], [total + 1], ... ([count] numbers),
    each with every number of completed calls from 0 to the total;
    [width] is the total plus one. *)
Fixpoint ratesInRange (count width : nat) (total : Z) : bool :=
  match count with
  | O => true
  | S count' =>
      rowInRange width 0 total && ratesInRange count' (S width) (total + 1)
  end.

(** Three calls, two of them completed. *)
Definition threeCalls : list CallSession :=
  [ {| session_status := "completed"; session_avgLatency := None |};
    {| session_status := "active"; session_avgLatency := None |};
    {| session_status := "completed"; session_avgLatency := None |} ].

(** The statistics before anything is loaded, and after the three calls
    are. *)
Definition noStats : DashboardStats :=
  {| totalCalls := 0; activeCalls := 0; avgLatency := PrimFloat.zero;
     successRate := PrimFloat.zero; appointmentsBooked := 0;
     consultationsCollected := 0 |}.

Definition threeCallsStats : DashboardStats :=
  loadDashboardStats (Some "user-1"%string) (Resolved (@nil unit))
    (Resolved (@nil unit)) (Resolved threeCalls) noStats.

(** * Properties *)

(** ** Arithmetic of the volume formulas *)

Lemma byteValue_range (b : Byte.byte) : 0 <= byteValue b <= 255.
Proof.
  unfold byteValue. pose proof (Byte.to_N_bounded b) as H.
  split; [apply N2Z.is_nonneg | lia].
Qed.

Lemma sumSquares_from (d : Snapshot) (acc : Z) :
  fold_left (fun sum x => sum + byteValue x * byteValue x) d acc
  = acc + sumSquares d.
Proof.
  unfold sumSquares. revert acc.
  induction d as [|b d IH]; intros acc; simpl.
  - lia.
  - rewrite IH, (IH (byteValue b * byteValue b)). lia.
Qed.

Lemma sumValues_from (d : Snapshot) (acc : Z) :
  fold_left (fun sum x => sum + byteValue x) d acc = acc + sumValues d.
Proof.
  unfold sumValues. revert acc.
  induction d as [|b d IH]; intros acc; simpl.
  - lia.
  - rewrite IH, (IH (byteValue b)). lia.
Qed.

Lemma sumSquares_cons (b : Byte.byte) (d : Snapshot) :
  sumSquares (b :: d) = byteValue b * byteValue b + sumSquares d.
Proof. unfold sumSquares at 1. simpl. apply sumSquares_from. Qed.

Lemma sumValues_cons (b : Byte.byte) (d : Snapshot) :
  sumValues (b :: d) = byteValue b + sumValues d.
Proof. unfold sumValues at 1. simpl. apply sumValues_from. Qed.

Lemma bufferLength_cons (b : Byte.byte) (d : Snapshot) :
  bufferLength (b :: d) = 1 + bufferLength d.
Proof. unfold bufferLength. simpl List.length. lia. Qed.

Lemma sumSquares_nonneg (d : Snapshot) : 0 <= sumSquares d.
Proof.
  induction d as [|b d IH].
  - reflexivity.
  - rewrite sumSquares_cons. pose proof (byteValue_range b). nia.
Qed.

Lemma sumValues_range (d : Snapshot) :
  0 <= sumValues d <= 255 * bufferLength d.
Proof.
  induction d as [|b d IH].
  - unfold sumValues, bufferLength. simpl. lia.
  - rewrite sumValues_cons, bufferLength_cons.
    pose proof (byteValue_range b). lia.
Qed.

(** The mean never exceeds the root mean square:
    [(sum of x)^2 <= n * (sum of x^2)]. *)
Lemma sumValues_cross (d : Snapshot) (y : Z) :
  2 * y * sumValues d <= sumSquares d + bufferLength d * (y * y).
Proof.
  induction d as [|b d IH].
  - unfold sumValues, sumSquares, bufferLength. simpl. lia.
  - rewrite sumValues_cons, sumSquares_cons, bufferLength_cons.
    generalize dependent (byteValue b). intros v.
    generalize dependent (sumValues d). intros sv IH.
    generalize dependent (sumSquares d). intros sq IH.
    generalize dependent (bufferLength d). intros n IH.
    pose proof (Z.square_nonneg (v - y)) as Hsq.
    replace ((v - y) * (v - y)) with (v * v - 2 * y * v + y * y) in Hsq by ring.
    replace (2 * y * (v + sv)) with (2 * y * v + 2 * y * sv) by ring.
    replace ((1 + n) * (y * y)) with (y * y + n * (y * y)) by ring.
    lia.
Qed.

Lemma sumValues_square_le (d : Snapshot) :
  sumValues d * sumValues d <= bufferLength d * sumSquares d.
Proof.
  induction d as [|b d IH].
  - unfold sumValues, sumSquares, bufferLength. simpl. lia.
  - rewrite sumValues_cons, sumSquares_cons, bufferLength_cons.
    pose proof (sumValues_cross d (byteValue b)) as Hc.
    generalize dependent (byteValue b). intros v.
    generalize dependent (sumValues d). intros sv.
    generalize dependent (sumSquares d). intros sq.
    generalize dependent (bufferLength d). intros n IH Hc.
    replace ((v + sv) * (v + sv)) with (v * v + 2 * v * sv + sv * sv) by ring.
    replace ((1 + n) * (v * v + sq)) with (v * v + sq + n * (v * v) + n * sq) by ring.
    lia.
Qed.

Lemma meanSquare_nonneg (d : Snapshot) :
  0 < bufferLength d ->
  (0 <= IZR (sumSquares d) / IZR (bufferLength d))%R.
Proof.
  intros Hn. apply Rmult_le_pos.
  - apply IZR_le, sumSquares_nonneg.
  - left. apply Rinv_0_lt_compat, IZR_lt, Hn.
Qed.

Lemma Rdiv_gt_iff (a c n : R) :
  (0 < n)%R -> (c < a / n)%R <-> (c * n < a)%R.
Proof.
  intros Hn. split; intros H.
  - replace a with (a / n * n)%R by (field; lra).
    apply Rmult_lt_compat_r; assumption.
  - apply (Rmult_lt_reg_r n); [assumption|].
    replace (a / n * n)%R with a by (field; lra). assumption.
Qed.

Lemma Rdiv_lt_iff (a c n : R) :
  (0 < n)%R -> (a / n < c)%R <-> (a < c * n)%R.
Proof.
  intros Hn. split; intros H.
  - replace a with (a / n * n)%R by (field; lra).
    apply Rmult_lt_compat_r; assumption.
  - apply (Rmult_lt_reg_r n); [assumption|].
    replace (a / n * n)%R with a by (field; lra). assumption.
Qed.

(** [rms > 0.05] is the integer comparison that [detectActivity] runs. *)
Lemma rms_gt_interruption_spec (d : Snapshot) :
  0 < bufferLength d ->
  rms_gt_interruption d = true <-> (INTERRUPTION_THRESHOLD < rms d)%R.
Proof.
  intros Hn. unfold rms_gt_interruption, rms, INTERRUPTION_THRESHOLD.
  pose proof (meanSquare_nonneg d Hn) as Hx.
  assert (Hn' : (0 < IZR (bufferLength d))%R) by (apply IZR_lt, Hn).
  set (x := (IZR (sumSquares d) / IZR (bufferLength d))%R) in *.
  assert (Hsq : sqrt (1275 / 100 * (1275 / 100)) = (1275 / 100)%R)
    by (apply sqrt_square; lra).
  assert (Hcmp : (1275 / 100 * (1275 / 100) < x)%R
                 <-> 1625625 * bufferLength d < 10000 * sumSquares d).
  { unfold x. rewrite (Rdiv_gt_iff _ _ _ Hn'). split; intros H.
    - apply lt_IZR. rewrite !mult_IZR. lra.
    - apply IZR_lt in H. rewrite !mult_IZR in H. lra. }
  rewrite Z.ltb_lt, <- Hcmp. split; intros H.
  - assert (H' : (sqrt (1275 / 100 * (1275 / 100)) < sqrt x)%R)
      by (apply sqrt_lt_1_alt; lra).
    rewrite Hsq in H'. lra.
  - apply sqrt_lt_0_alt. rewrite Hsq. lra.
Qed.

(** [rms < 0.01] is the integer comparison that [detectActivity] runs. *)
Lemma rms_lt_silence_spec (d : Snapshot) :
  0 < bufferLength d ->
  rms_lt_silence d = true <-> (rms d < SILENCE_THRESHOLD)%R.
Proof.
  intros Hn. unfold rms_lt_silence, rms, SILENCE_THRESHOLD.
  pose proof (meanSquare_nonneg d Hn) as Hx.
  assert (Hn' : (0 < IZR (bufferLength d))%R) by (apply IZR_lt, Hn).
  set (x := (IZR (sumSquares d) / IZR (bufferLength d))%R) in *.
  assert (Hsq : sqrt (255 / 100 * (255 / 100)) = (255 / 100)%R)
    by (apply sqrt_square; lra).
  assert (Hcmp : (x < 255 / 100 * (255 / 100))%R
                 <-> 10000 * sumSquares d < 65025 * bufferLength d).
  { unfold x. rewrite (Rdiv_lt_iff _ _ _ Hn'). split; intros H.
    - apply lt_IZR. rewrite !mult_IZR. lra.
    - apply IZR_lt in H. rewrite !mult_IZR in H. lra. }
  rewrite Z.ltb_lt, <- Hcmp. split; intros H.
  - assert (H' : (sqrt x < sqrt (255 / 100 * (255 / 100)))%R)
      by (apply sqrt_lt_1_alt; lra).
    rewrite Hsq in H'. lra.
  - apply sqrt_lt_0_alt. rewrite Hsq. lra.
Qed.

(** On doubles the comparisons switch at the same sums of squares as on
    real numbers: with 1024 bins, [rms > 0.05] fails at 166464 and holds at
    166465, and [rms < 0.01] holds at 6658 and fails at 6659, as
    [rms_gt_interruption] and [rms_lt_silence] have it. *)
Lemma rms_double_boundaries :
  PrimFloat.ltb INTERRUPTION_THRESHOLD_double (rms_double 166464) = false
  /\ PrimFloat.ltb INTERRUPTION_THRESHOLD_double (rms_double 166465) = true
  /\ PrimFloat.ltb (rms_double 6658) SILENCE_THRESHOLD_double = true
  /\ PrimFloat.ltb (rms_double 6659) SILENCE_THRESHOLD_double = false
  /\ (1625625 * 1024 <? 10000 * 166464) = false
  /\ (1625625 * 1024 <? 10000 * 166465) = true
  /\ (10000 * 6658 <? 65025 * 1024) = true
  /\ (10000 * 6659 <? 65025 * 1024) = false.
Proof. vm_compute. repeat split. Qed.

Lemma frequencyBinCount_pos (d : Snapshot) :
  bufferLength d = frequencyBinCount -> 0 < bufferLength d.
Proof. intros ->. reflexivity. Qed.

(** ** Values of the sample snapshots *)

Lemma rms_murmur : rms murmur = (8 / 255)%R.
Proof.
  unfold rms.
  replace (sumSquares murmur) with 65536 by (vm_compute; reflexivity).
  replace (bufferLength murmur) with 1024 by (vm_compute; reflexivity).
  replace (65536 / 1024)%R with (8 * 8)%R by lra.
  rewrite sqrt_square by lra. reflexivity.
Qed.

Lemma rms_spike : rms spike = (1 / 32)%R.
Proof.
  unfold rms.
  replace (sumSquares spike) with 65025 by (vm_compute; reflexivity).
  replace (bufferLength spike) with 1024 by (vm_compute; reflexivity).
  replace (65025 / 1024)%R with (255 / 32 * (255 / 32))%R by lra.
  rewrite sqrt_square by lra. lra.
Qed.

Lemma rms_loud : (INTERRUPTION_THRESHOLD < rms loud)%R.
Proof. apply rms_gt_interruption_spec; vm_compute; reflexivity. Qed.

Lemma rms_quiet : (rms quiet < SILENCE_THRESHOLD)%R.
Proof. apply rms_lt_silence_spec; vm_compute; reflexivity. Qed.

(** ** One undisturbed turn *)

(** An utterance is transcribed, answered, synthesized and played to its
    end: each service is called once, the reply is played, and the stage
    latencies are logged. *)
Lemma undisturbed_turn :
  let done := exec speaking [Elapse 900; AudioEnded 0] in
  effects done
  = [RecorderStart; RecorderStop; TranscribeAudio 0;
     GenerateText 0 (js "hello there");
     GenerateSpeech 0 "Hi, how can I help?"; AudioPlay 0 0;
     ProcessingMetrics 0 {| stt := 85; gpt := 90; tts := 960; total := 1135 |}
       false]
  /\ runCalls 0 done = pipeline
  /\ stageOf 0 done = Some (Settled Fulfilled)
  /\ isProcessing done = false
  /\ currentAudio done = None
  /\ mediaRecorder done = Some inactive.
Proof. vm_compute. repeat split. Qed.

(** ** The gap between the thresholds *)

(** C6: a frame whose RMS volume is above the silence threshold 0.01 and at
    most the interruption threshold 0.05 changes nothing: no speech
    handling, the silence timer neither armed nor disarmed, the recorder as
    it was, no effect emitted. *)
Theorem gap_frame_does_nothing
  (s : Engine) (d : Snapshot) (start : Awaited unit) :
  bufferLength d = frequencyBinCount ->
  (SILENCE_THRESHOLD < rms d <= INTERRUPTION_THRESHOLD)%R ->
  step s (AnimationFrame d start) = s.
Proof.
  intros Hlen [Hlo Hhi]. apply frequencyBinCount_pos in Hlen.
  simpl. unfold detectActivity.
  destruct (analyser s); simpl; [|reflexivity].
  destruct (rms_gt_interruption d) eqn:Hgt.
  - apply rms_gt_interruption_spec in Hgt; [lra | assumption].
  - destruct (rms_lt_silence d) eqn:Hlt; [|reflexivity].
    apply rms_lt_silence_spec in Hlt; [lra | assumption].
Qed.

Lemma gap_frame_does_nothing_witness :
  step initialized (AnimationFrame murmur (Resolved tt)) = initialized.
Proof.
  apply (gap_frame_does_nothing initialized murmur (Resolved tt)).
  - vm_compute. reflexivity.
  - rewrite rms_murmur. unfold SILENCE_THRESHOLD, INTERRUPTION_THRESHOLD. lra.
Defined.

(** ** The state that observers read *)

(** C10: [getProcessingState] reports [interruptionDetected = false] in
    every state of the engine, the states right after an interruption
    included. *)
Theorem interruptionDetected_always_false
  (d : Snapshot) (start : Awaited unit) (s : Engine) :
  VoiceProcessingState.interruptionDetected (getProcessingState d s) = false
  /\ VoiceProcessingState.interruptionDetected
       (getProcessingState d (interruptCurrentResponse s)) = false
  /\ VoiceProcessingState.interruptionDetected
       (getProcessingState d (handleVoiceActivity start s)) = false.
Proof. repeat split. Qed.

(** ** The exposed volume *)

Lemma Q2R_inject_Z (z : Z) : Q2R (inject_Z z) = IZR z.
Proof. unfold Q2R, inject_Z. simpl. lra. Qed.

(** With an analyser, the reading is the mean of the bins over 255. *)
Lemma getCurrentVolume_real (d : Snapshot) (s : Engine) :
  analyser s = true -> 0 < bufferLength d ->
  Q2R (getCurrentVolume d s)
  = (IZR (sumValues d) / IZR (bufferLength d) / 255)%R.
Proof.
  intros Ha Hn. unfold getCurrentVolume. rewrite Ha. simpl.
  assert (Hn' : ~ inject_Z (bufferLength d) == 0).
  { unfold Qeq, inject_Z. simpl. lia. }
  assert (H255 : ~ inject_Z 255 == 0) by (unfold Qeq, inject_Z; simpl; lia).
  rewrite Q2R_div by exact H255. rewrite Q2R_div by exact Hn'.
  rewrite !Q2R_inject_Z. reflexivity.
Qed.

Lemma mean_le_rms (d : Snapshot) :
  0 < bufferLength d ->
  (IZR (sumValues d) / IZR (bufferLength d) / 255 <= rms d)%R.
Proof.
  intros Hn. unfold rms.
  assert (Hn' : (0 < IZR (bufferLength d))%R) by (apply IZR_lt, Hn).
  pose proof (sumValues_range d) as [Hs0 _].
  apply IZR_le in Hs0.
  pose proof (sumValues_square_le d) as Hsq.
  apply IZR_le in Hsq. rewrite !mult_IZR in Hsq.
  set (sv := IZR (sumValues d)) in *. set (n := IZR (bufferLength d)) in *.
  set (sq := IZR (sumSquares d)) in *.
  assert (Hm : (0 <= sv / n)%R).
  { apply Rmult_le_pos; [exact Hs0 | left; apply Rinv_0_lt_compat, Hn']. }
  assert (Hle : (sv / n * (sv / n) <= sq / n)%R).
  { apply (Rmult_le_reg_r (n * n)); [nra|].
    replace (sv / n * (sv / n) * (n * n))%R with (sv * sv)%R by (field; lra).
    replace (sq / n * (n * n))%R with (n * sq)%R by (field; lra).
    exact Hsq. }
  assert (Hroot : (sv / n <= sqrt (sq / n))%R).
  { rewrite <- (sqrt_square (sv / n)) at 1 by exact Hm.
    apply sqrt_le_1_alt, Hle. }
  apply Rmult_le_compat_r; [lra | exact Hroot].
Qed.

(** C9 (as the code has it): the reading is always within [0, 1]; it is 0
    without an analyser and otherwise the arithmetic mean of the latest
    snapshot over 255.  That is not the root mean square of the detection
    loop, which it never exceeds. *)
Theorem getCurrentVolume_is_mean (d : Snapshot) (s : Engine) :
  bufferLength d = frequencyBinCount ->
  (0 <= Q2R (getCurrentVolume d s) <= 1)%R
  /\ (analyser s = false -> getCurrentVolume d s = 0%Q)
  /\ (analyser s = true ->
      Q2R (getCurrentVolume d s)
      = (IZR (sumValues d) / IZR (bufferLength d) / 255)%R)
  /\ (Q2R (getCurrentVolume d s) <= rms d)%R.
Proof.
  intros Hlen. pose proof (frequencyBinCount_pos d Hlen) as Hn.
  assert (Hn' : (0 < IZR (bufferLength d))%R) by (apply IZR_lt, Hn).
  pose proof (sumValues_range d) as [Hs0 Hs1].
  apply IZR_le in Hs0. apply IZR_le in Hs1. rewrite mult_IZR in Hs1.
  assert (Hrms : (0 <= rms d)%R).
  { unfold rms. apply Rmult_le_pos; [apply sqrt_pos | lra]. }
  destruct (analyser s) eqn:Ha.
  - rewrite (getCurrentVolume_real d s Ha Hn).
    repeat split; try discriminate; try (intros _; reflexivity).
    + apply Rmult_le_pos; [|lra].
      apply Rmult_le_pos; [exact Hs0 | left; apply Rinv_0_lt_compat, Hn'].
    + apply (Rmult_le_reg_r (IZR (bufferLength d) * 255)); [nra|].
      replace (IZR (sumValues d) / IZR (bufferLength d) / 255
               * (IZR (bufferLength d) * 255))%R
        with (IZR (sumValues d)) by (field; lra).
      lra.
    + apply mean_le_rms, Hn.
  - unfold getCurrentVolume. rewrite Ha. simpl.
    replace (Q2R 0) with 0%R by (unfold Q2R; simpl; lra).
    repeat split; try discriminate; lra.
Qed.

Lemma getCurrentVolume_is_mean_witness :
  (0 <= Q2R (getCurrentVolume spike initialized) <= 1)%R
  /\ (analyser initialized = false -> getCurrentVolume spike initialized = 0%Q)
  /\ (analyser initialized = true ->
      Q2R (getCurrentVolume spike initialized)
      = (IZR (sumValues spike) / IZR (bufferLength spike) / 255)%R)
  /\ (Q2R (getCurrentVolume spike initialized) <= rms spike)%R.
Proof.
  apply (getCurrentVolume_is_mean spike initialized).
  vm_compute. reflexivity.
Defined.

(** C9, as stated, fails: on a snapshot with one full-scale bin the reading
    is 1/1024 while the root mean square over 255, the formula of the
    detection loop, is 1/32. *)
Lemma getCurrentVolume_is_not_rms :
  bufferLength spike = frequencyBinCount
  /\ Q2R (getCurrentVolume spike initialized) = (1 / 1024)%R
  /\ rms spike = (1 / 32)%R
  /\ Q2R (getCurrentVolume spike initialized) <> rms spike.
Proof.
  assert (Hv : Q2R (getCurrentVolume spike initialized) = (1 / 1024)%R).
  { rewrite getCurrentVolume_real by (vm_compute; reflexivity).
    replace (sumValues spike) with 255 by (vm_compute; reflexivity).
    replace (bufferLength spike) with 1024 by (vm_compute; reflexivity).
    lra. }
  repeat split.
  - exact Hv.
  - exact rms_spike.
  - rewrite Hv, rms_spike. lra.
Qed.

(** ** What each callback leaves alone *)

Lemma sameDevices_refl (s : Engine) : sameDevices s s.
Proof. repeat split. Qed.

Lemma sameDevices_trans (s1 s2 s3 : Engine) :
  sameDevices s1 s2 -> sameDevices s2 s3 -> sameDevices s1 s3.
Proof.
  unfold sameDevices.
  intros (A1 & A2 & A3 & A4 & A5) (B1 & B2 & B3 & B4 & B5).
  repeat split; congruence.
Qed.

Lemma pauseAudio_devices (a : nat) (s : Engine) : sameDevices s (pauseAudio a s).
Proof. unfold sameDevices, pauseAudio. destruct (nth_error (audios s) a); repeat split. Qed.

Lemma interruptCurrentResponse_devices (s : Engine) :
  sameDevices s (interruptCurrentResponse s).
Proof.
  unfold sameDevices, interruptCurrentResponse.
  destruct (currentAudio s) as [a|]; simpl; [|repeat split].
  destruct (pauseAudio_devices a s) as (A1 & A2 & A3 & A4 & A5).
  repeat split; assumption.
Qed.

Lemma tryCatchFinally_devices (r : nat) (id : string) (s s' : Engine) (c : Completion) :
  sameDevices s s' -> sameDevices s (tryCatchFinally r id (s', c)).
Proof.
  intros H. apply (sameDevices_trans _ _ _ H).
  unfold tryCatchFinally, sameDevices. destruct c; repeat split.
Qed.

Lemma resume_devices (r : nat) (v : Resumption) (s : Engine) :
  sameDevices s (resume r v s).
Proof.
  unfold resume.
  destruct (nth_error (runs s) r) as [run|]; [|apply sameDevices_refl].
  destruct (stage run), v; try apply sameDevices_refl.
  - destruct res; apply tryCatchFinally_devices; repeat split.
  - unfold afterSTT, performSTT. destruct res as [text|e].
    + destruct (strictNotEqual _ _);
        [apply tryCatchFinally_devices; repeat split|].
      destruct (_ || _); apply tryCatchFinally_devices; repeat split.
    + apply tryCatchFinally_devices; repeat split.
  - unfold afterGPT, performGPTProcessing. destruct res as [response|e].
    + destruct (strictNotEqual _ _); apply tryCatchFinally_devices; repeat split.
    + apply tryCatchFinally_devices; repeat split.
  - destruct res; apply tryCatchFinally_devices; repeat split.
  - destruct (Nat.eqb audio audio0); [|apply sameDevices_refl].
    destruct res; apply tryCatchFinally_devices; repeat split.
Qed.

Lemma settlePlayback_devices (a : nat) (res : Awaited unit) (s : Engine) :
  sameDevices s (settlePlayback a res s).
Proof.
  unfold settlePlayback.
  destruct (nth_error (audios s) a); [apply resume_devices | apply sameDevices_refl].
Qed.

Lemma audio_onended_devices (a : nat) (s : Engine) :
  sameDevices s (audio_onended a s).
Proof.
  unfold audio_onended.
  eapply sameDevices_trans; [|apply settlePlayback_devices].
  destruct (nth_error (audios s) a); repeat split.
Qed.

Lemma audio_onerror_devices (a : nat) (s : Engine) :
  sameDevices s (audio_onerror a s).
Proof.
  unfold audio_onerror.
  eapply sameDevices_trans; [|apply settlePlayback_devices]. repeat split.
Qed.

Lemma audio_play_catch_devices (a : nat) (e : Error) (s : Engine) :
  sameDevices s (audio_play_catch a e s).
Proof.
  unfold audio_play_catch.
  eapply sameDevices_trans; [|apply settlePlayback_devices]. repeat split.
Qed.

(** ** The silence timer *)

Lemma timerPending_devices (s s' : Engine) :
  sameDevices s s' -> timerPending s -> timerPending s'.
Proof.
  intros (Ht & Hc & _) H due Hdue. rewrite Hc. apply H. congruence.
Qed.

Lemma timerPending_none (s : Engine) : silenceTimer s = None -> timerPending s.
Proof. intros H due Hdue. congruence. Qed.

Lemma handleVoiceActivity_spec (start : Awaited unit) (s : Engine) :
  silenceTimer (handleVoiceActivity start s) = None
  /\ clock (handleVoiceActivity start s) = clock s
  /\ analyser (handleVoiceActivity start s) = analyser s
  /\ (mediaRecorder s = Some inactive ->
      mediaRecorder (handleVoiceActivity start s)
      = match start with
        | Resolved _ => Some recording
        | Rejected _ => Some inactive
        end)
  /\ (mediaRecorder s <> Some inactive ->
      mediaRecorder (handleVoiceActivity start s) = mediaRecorder s).
Proof.
  unfold handleVoiceActivity.
  set (s1 := match silenceTimer s with
             | Some _ => set_silenceTimer None s
             | None => s
             end).
  assert (H1 : silenceTimer s1 = None /\ clock s1 = clock s
               /\ mediaRecorder s1 = mediaRecorder s /\ analyser s1 = analyser s).
  { unfold s1. destruct (silenceTimer s) eqn:E; repeat split; assumption. }
  destruct H1 as (T1 & K1 & M1 & A1).
  set (s2 := match currentAudio s1 with
             | Some a => if negb (audioPaused s1 a)
                         then interruptCurrentResponse s1 else s1
             | None => s1
             end).
  assert (H2 : sameDevices s1 s2).
  { unfold s2. destruct (currentAudio s1) as [a|]; [|apply sameDevices_refl].
    destruct (negb (audioPaused s1 a));
      [apply interruptCurrentResponse_devices | apply sameDevices_refl]. }
  destruct H2 as (T2 & K2 & M2 & A2 & _).
  destruct (mediaRecorder s2) as [[| |]|] eqn:E; [destruct start|..]; simpl;
    repeat split; try congruence;
    intros; congruence.
Qed.

Lemma timerPending_step (s : Engine) (ev : Event) :
  timerPending s -> timerPending (step s ev).
Proof.
  intros H. destruct ev; simpl.
  - (* Elapse *)
    unfold elapse. destruct (silenceTimer s) as [due|] eqn:E.
    + destruct (due <=? clock s + Z.of_nat ms) eqn:Hdue.
      * apply timerPending_none. reflexivity.
      * intros due' Hd. simpl in Hd. rewrite E in Hd. injection Hd as <-.
        simpl. apply Z.leb_gt in Hdue. specialize (H due E). lia.
    + apply timerPending_none. simpl. exact E.
  - (* AnimationFrame *)
    unfold detectActivity. destruct (negb (analyser s)); [exact H|].
    destruct (rms_gt_interruption dataArray).
    + apply timerPending_none, handleVoiceActivity_spec.
    + destruct (rms_lt_silence dataArray); [|exact H].
      unfold handleSilence. destruct (silenceTimer s) eqn:E; [exact H|].
      intros due Hd. simpl in Hd. injection Hd as <-. simpl.
      unfold SILENCE_DURATION. lia.
  - (* DataAvailable *)
    unfold ondataavailable. destruct (0 <? size)%N; exact H.
  - (* RecorderStopped *)
    unfold onstop. destruct (audioChunks s); exact H.
  - apply (timerPending_devices s); [apply resume_devices | exact H].
  - apply (timerPending_devices s); [apply resume_devices | exact H].
  - apply (timerPending_devices s); [apply resume_devices | exact H].
  - apply (timerPending_devices s); [apply resume_devices | exact H].
  - apply (timerPending_devices s); [apply audio_onended_devices | exact H].
  - apply (timerPending_devices s); [apply audio_onerror_devices | exact H].
  - apply (timerPending_devices s); [apply audio_play_catch_devices | exact H].
  - apply (timerPending_devices s);
      [apply interruptCurrentResponse_devices | exact H].
  - apply timerPending_none. unfold cleanup. simpl.
    match goal with
    | |- silenceTimer (match silenceTimer ?x with _ => _ end) = None =>
        destruct (silenceTimer x) eqn:E
    end; [reflexivity | exact E].
Qed.

Lemma reachable_timerPending (s : Engine) : reachable s -> timerPending s.
Proof.
  induction 1 as [|s ev _ IH].
  - apply timerPending_none. reflexivity.
  - apply timerPending_step, IH.
Qed.

Lemma reachable_exec (s : Engine) (evs : list Event) :
  reachable s -> reachable (exec s evs).
Proof.
  revert s. induction evs as [|ev evs IH]; intros s H; simpl.
  - exact H.
  - apply IH. constructor. exact H.
Qed.

Lemma silent_frame_flags (d : Snapshot) :
  bufferLength d = frequencyBinCount -> (rms d < SILENCE_THRESHOLD)%R ->
  rms_gt_interruption d = false /\ rms_lt_silence d = true.
Proof.
  intros Hlen Hr. apply frequencyBinCount_pos in Hlen. split.
  - destruct (rms_gt_interruption d) eqn:E; [|reflexivity].
    apply rms_gt_interruption_spec in E; [|assumption].
    unfold SILENCE_THRESHOLD, INTERRUPTION_THRESHOLD in *. lra.
  - apply rms_lt_silence_spec; assumption.
Qed.

(** ** Runs and the steps they take *)

Lemma nth_error_replaceAt_eq {A : Type} (l : list A) (i : nat) (x : A) :
  (i < List.length l)%nat -> nth_error (replaceAt i x l) i = Some x.
Proof.
  revert i. induction l as [|y l IH]; intros i Hi; simpl in Hi.
  - lia.
  - destruct i as [|i]; simpl; [reflexivity | apply IH; lia].
Qed.

Lemma nth_error_replaceAt_neq {A : Type} (l : list A) (i j : nat) (x : A) :
  i <> j -> nth_error (replaceAt i x l) j = nth_error l j.
Proof.
  revert i j. induction l as [|y l IH]; intros i j Hij; simpl.
  - destruct i; reflexivity.
  - destruct i as [|i], j as [|j]; simpl; try reflexivity; try congruence.
    apply IH. congruence.
Qed.

Lemma runCalls_app (r : nat) (s s' : Engine) (es : list Effect) :
  effects s' = effects s ++ es ->
  runCalls r s' = runCalls r s ++ flat_map (callOf r) es.
Proof. intros H. unfold runCalls. rewrite H. apply flat_map_app. Qed.

Lemma runsTraced_sameRuns (s s' : Engine) :
  sameRuns s s' -> runsTraced s -> runsTraced s'.
Proof.
  intros [Hr He] H r. specialize (H r). rewrite Hr, He. exact H.
Qed.

Lemma sameRuns_refl (s : Engine) : sameRuns s s.
Proof. split; reflexivity. Qed.

Lemma sameRuns_trans (s1 s2 s3 : Engine) :
  sameRuns s1 s2 -> sameRuns s2 s3 -> sameRuns s1 s3.
Proof.
  intros [A1 A2] [B1 B2]. split; [congruence|].
  intros r. rewrite B2. apply A2.
Qed.

Ltac same_runs :=
  split;
  [ reflexivity
  | intro; unfold runCalls; simpl; repeat rewrite flat_map_app; simpl;
    repeat rewrite app_nil_r; reflexivity ].

Lemma pauseAudio_runs (a : nat) (s : Engine) : sameRuns s (pauseAudio a s).
Proof. unfold pauseAudio. destruct (nth_error (audios s) a); same_runs. Qed.

Lemma interruptCurrentResponse_runs (s : Engine) :
  sameRuns s (interruptCurrentResponse s).
Proof.
  unfold interruptCurrentResponse.
  destruct (currentAudio s) as [a|]; [|same_runs].
  apply (sameRuns_trans _ (pauseAudio a s)); [apply pauseAudio_runs | same_runs].
Qed.

Lemma handleVoiceActivity_runs (start : Awaited unit) (s : Engine) :
  sameRuns s (handleVoiceActivity start s).
Proof.
  unfold handleVoiceActivity.
  set (s1 := match silenceTimer s with
             | Some _ => set_silenceTimer None s
             | None => s
             end).
  assert (H1 : sameRuns s s1) by (unfold s1; destruct (silenceTimer s); same_runs).
  set (s2 := match currentAudio s1 with
             | Some a => if negb (audioPaused s1 a)
                         then interruptCurrentResponse s1 else s1
             | None => s1
             end).
  assert (H2 : sameRuns s1 s2).
  { unfold s2. destruct (currentAudio s1) as [a|]; [|apply sameRuns_refl].
    destruct (negb (audioPaused s1 a));
      [apply interruptCurrentResponse_runs | apply sameRuns_refl]. }
  apply (sameRuns_trans _ s2); [apply (sameRuns_trans _ s1); assumption|].
  destruct (mediaRecorder s2) as [[| |]|]; [destruct start|..]; same_runs.
Qed.

Lemma detectActivity_runs (d : Snapshot) (start : Awaited unit) (s : Engine) :
  sameRuns s (detectActivity d start s).
Proof.
  unfold detectActivity. destruct (negb (analyser s)); [apply sameRuns_refl|].
  destruct (rms_gt_interruption d); [apply handleVoiceActivity_runs|].
  destruct (rms_lt_silence d); [|apply sameRuns_refl].
  unfold handleSilence. destruct (silenceTimer s); same_runs.
Qed.

Lemma elapse_runs (ms : nat) (s : Engine) : sameRuns s (elapse ms s).
Proof.
  unfold elapse, silenceTimeout.
  destruct (silenceTimer s) as [due|]; [|same_runs].
  destruct (due <=? clock s + Z.of_nat ms); [|same_runs].
  destruct (mediaRecorder s) as [[| |]|]; same_runs.
Qed.

Lemma cleanup_runs (s : Engine) : sameRuns s (cleanup s).
Proof.
  unfold cleanup.
  set (s1 := match mediaRecorder s with
             | Some recording => emit RecorderStop (set_mediaRecorder (Some inactive) s)
             | _ => s
             end).
  assert (H1 : sameRuns s s1)
    by (unfold s1; destruct (mediaRecorder s) as [[| |]|]; same_runs).
  set (s2 := match currentAudio s1 with
             | Some a => set_currentAudio None (pauseAudio a s1)
             | None => s1
             end).
  assert (H2 : sameRuns s1 s2).
  { unfold s2. destruct (currentAudio s1) as [a|]; [|apply sameRuns_refl].
    apply (sameRuns_trans _ (pauseAudio a s1)); [apply pauseAudio_runs | same_runs]. }
  set (s3 := match silenceTimer s2 with
             | Some _ => set_silenceTimer None s2
             | None => s2
             end).
  assert (H3 : sameRuns s2 s3) by (unfold s3; destruct (silenceTimer s2); same_runs).
  apply (sameRuns_trans _ s3);
    [apply (sameRuns_trans _ s2); [apply (sameRuns_trans _ s1)|]; assumption|].
  same_runs.
Qed.

(** What resuming a run does to the runs and to the history: nothing, or
    run [r0] moves to a next stage and the effects of that step are added;
    none of them is a step of another run. *)
Lemma resume_shape (r0 : nat) (v : Resumption) (s : Engine) (run : Run) :
  nth_error (runs s) r0 = Some run ->
  resume r0 v s = s
  \/ exists (st' : Stage) (es : list Effect),
       (forall e, st' <> Settled (RejectedWith e))
       /\ flat_map stopOf es = []
       /\ runs (resume r0 v s)
       = replaceAt r0 {| processingId := processingId run; stage := st' |} (runs s)
       /\ effects (resume r0 v s) = effects s ++ es
       /\ (forall r, r <> r0 -> flat_map (callOf r) es = [])
       /\ (forall l, callsAt (stage run) l ->
           callsAt st' (l ++ flat_map (callOf r0) es)).
Proof.
  intros Hnth. unfold resume. rewrite Hnth.
  assert (Hneq : forall r, r <> r0 -> Nat.eqb r r0 = false)
    by (intros r Hr; apply Nat.eqb_neq; exact Hr).
  destruct (stage run) eqn:Hst, v; try (left; reflexivity).
  - (* blobToBase64 *)
    right. destruct res as [[]|e]; simpl.
    + exists (Transcribing startTime), [TranscribeAudio r0].
      split; [intros ?; discriminate|]; split; [reflexivity|]; repeat split; simpl.
      * intros r Hr. rewrite (Hneq r Hr). reflexivity.
      * intros l ->. simpl. rewrite Nat.eqb_refl. reflexivity.
    + exists (Settled Fulfilled), [ConsoleError "Voice processing error:"].
      split; [intros ?; discriminate|]; split; [reflexivity|]; repeat split; simpl.
      intros l ->. exists pipeline. reflexivity.
  - (* performSTT *)
    right. unfold afterSTT, performSTT. destruct res as [text|e].
    + destruct (strictNotEqual _ _).
      * exists (Settled Fulfilled),
          [ConsoleLog "Processing interrupted, discarding result"].
        split; [intros ?; discriminate|]; split; [reflexivity|]; repeat split; simpl.
        intros l ->. simpl. exists [GPT; TTS; PLAY; METRICS]. reflexivity.
      * destruct (_ || _).
        -- exists (Settled Fulfilled),
             [ConsoleLog "Skipping empty or very short transcription"].
           split; [intros ?; discriminate|]; split; [reflexivity|]; repeat split; simpl.
           intros l ->. simpl. exists [GPT; TTS; PLAY; METRICS]. reflexivity.
        -- exists (Generating startTime (performance_now s - startTime)
                      (performance_now s)), [GenerateText r0 text].
           split; [intros ?; discriminate|]; split; [reflexivity|]; repeat split; simpl.
           ++ intros r Hr. rewrite (Hneq r Hr). reflexivity.
           ++ intros l ->. simpl. rewrite Nat.eqb_refl. reflexivity.
    + exists (Settled Fulfilled),
        [ConsoleError "STT processing failed:";
         ConsoleError "Voice processing error:"].
      split; [intros ?; discriminate|]; split; [reflexivity|]; repeat split; simpl.
      * rewrite <- app_assoc. reflexivity.
      * intros l ->. simpl. exists [GPT; TTS; PLAY; METRICS]. reflexivity.
  - (* performGPTProcessing *)
    right. unfold afterGPT, performGPTProcessing. destruct res as [response|e].
    + destruct (strictNotEqual _ _).
      * exists (Settled Fulfilled), [ConsoleLog "Processing interrupted before TTS"].
        split; [intros ?; discriminate|]; split; [reflexivity|]; repeat split; simpl.
        intros l ->. simpl. exists [TTS; PLAY; METRICS]. reflexivity.
      * exists (Synthesizing startTime sttTime
                  (performance_now s - gptStartTime) (performance_now s)),
          [GenerateSpeech r0 response].
        split; [intros ?; discriminate|]; split; [reflexivity|]; repeat split; simpl.
        -- intros r Hr. rewrite (Hneq r Hr). reflexivity.
        -- intros l ->. simpl. rewrite Nat.eqb_refl. reflexivity.
    + exists (Settled Fulfilled),
        [ConsoleError "GPT processing failed:";
         ConsoleError "Voice processing error:"].
      split; [intros ?; discriminate|]; split; [reflexivity|]; repeat split; simpl.
      * rewrite <- app_assoc. reflexivity.
      * intros l ->. simpl. exists [TTS; PLAY; METRICS]. reflexivity.
  - (* generateSpeech *)
    right. destruct res as [url|e]; simpl.
    + exists (Playing (List.length (audios s)) startTime sttTime gptTime ttsStartTime),
        [AudioPlay r0 (List.length (audios s))].
      split; [intros ?; discriminate|]; split; [reflexivity|]; repeat split; simpl.
      * intros r Hr. rewrite (Hneq r Hr). reflexivity.
      * intros l ->. simpl. rewrite Nat.eqb_refl. reflexivity.
    + exists (Settled Fulfilled),
        [ConsoleError "TTS processing failed:";
         ConsoleError "Voice processing error:"].
      split; [intros ?; discriminate|]; split; [reflexivity|]; repeat split; simpl.
      * rewrite <- app_assoc. reflexivity.
      * intros l ->. simpl. exists [PLAY; METRICS]. reflexivity.
  - (* playback *)
    destruct (Nat.eqb audio audio0); [|left; reflexivity]. right.
    destruct res as [[]|e]; simpl.
    + eexists (Settled Fulfilled), [ProcessingMetrics r0 _ _].
      split; [intros ?; discriminate|]; split; [reflexivity|]; repeat split; simpl.
      * intros r Hr. rewrite (Hneq r Hr). reflexivity.
      * intros l ->. simpl. rewrite Nat.eqb_refl. exists []. reflexivity.
    + exists (Settled Fulfilled),
        [ConsoleError "TTS processing failed:";
         ConsoleError "Voice processing error:"].
      split; [intros ?; discriminate|]; split; [reflexivity|]; repeat split; simpl.
      * rewrite <- app_assoc. reflexivity.
      * intros l ->. simpl. exists [METRICS]. reflexivity.
Qed.

Lemma resume_none (r0 : nat) (v : Resumption) (s : Engine) :
  nth_error (runs s) r0 = None -> resume r0 v s = s.
Proof. intros H. unfold resume. rewrite H. reflexivity. Qed.

(** Resuming a run leaves every other run and its steps alone. *)
Lemma resume_other (r0 r : nat) (v : Resumption) (s : Engine) :
  r <> r0 ->
  nth_error (runs (resume r0 v s)) r = nth_error (runs s) r
  /\ runCalls r (resume r0 v s) = runCalls r s.
Proof.
  intros Hr. destruct (nth_error (runs s) r0) as [run|] eqn:Hnth.
  - destruct (resume_shape r0 v s run Hnth)
      as [-> | (st' & es & _ & _ & Hruns & Heff & Hother & _)].
    + split; reflexivity.
    + split.
      * rewrite Hruns. apply nth_error_replaceAt_neq. congruence.
      * rewrite (runCalls_app r s _ es Heff), (Hother r Hr). apply app_nil_r.
  - rewrite (resume_none r0 v s Hnth). split; reflexivity.
Qed.

(** Resuming a run moves it along the pipeline. *)
Lemma resume_self (r0 : nat) (v : Resumption) (s : Engine) (run : Run) :
  nth_error (runs s) r0 = Some run ->
  callsAt (stage run) (runCalls r0 s) ->
  exists run',
    nth_error (runs (resume r0 v s)) r0 = Some run'
    /\ processingId run' = processingId run
    /\ callsAt (stage run') (runCalls r0 (resume r0 v s)).
Proof.
  intros Hnth Hcalls.
  destruct (resume_shape r0 v s run Hnth)
    as [-> | (st' & es & _ & _ & Hruns & Heff & _ & Hself)].
  - exists run. repeat split; assumption.
  - exists {| processingId := processingId run; stage := st' |}. repeat split.
    + rewrite Hruns. apply nth_error_replaceAt_eq.
      apply nth_error_Some. congruence.
    + simpl. rewrite (runCalls_app r0 s _ es Heff). apply Hself, Hcalls.
Qed.

Lemma resume_traced (r0 : nat) (v : Resumption) (s : Engine) :
  runsTraced s -> runsTraced (resume r0 v s).
Proof.
  intros H r. destruct (Nat.eq_dec r r0) as [->|Hr].
  - pose proof (H r0) as H0.
    destruct (nth_error (runs s) r0) as [run|] eqn:Hnth.
    + destruct (resume_self r0 v s run Hnth H0) as (run' & Hn' & _ & Hc').
      rewrite Hn'. exact Hc'.
    + rewrite (resume_none r0 v s Hnth), Hnth. exact H0.
  - destruct (resume_other r0 r v s Hr) as [Hn Hc]. rewrite Hn, Hc. apply H.
Qed.

Lemma settlePlayback_traced (a : nat) (res : Awaited unit) (s : Engine) :
  runsTraced s -> runsTraced (settlePlayback a res s).
Proof.
  intros H. unfold settlePlayback.
  destruct (nth_error (audios s) a); [apply resume_traced|]; exact H.
Qed.

Lemma onstop_traced (dateNow : Z) (s : Engine) :
  runsTraced s -> runsTraced (onstop dateNow s).
Proof.
  intros H. unfold onstop. destruct (audioChunks s); [exact H|].
  unfold processAudioWithInterruption. intros r. simpl.
  replace (runCalls r _) with (runCalls r s) by reflexivity.
  specialize (H r).
  destruct (Nat.lt_trichotomy r (List.length (runs s))) as [Hlt|[->|Hgt]].
  - rewrite nth_error_app1 by exact Hlt. exact H.
  - rewrite nth_error_app2 by lia. rewrite Nat.sub_diag. simpl.
    assert (Hn : nth_error (runs s) (List.length (runs s)) = None)
      by (apply nth_error_None; lia).
    rewrite Hn in H. exact H.
  - assert (Hn : nth_error (runs s) r = None) by (apply nth_error_None; lia).
    rewrite Hn in H.
    assert (Hn' : nth_error (runs s ++ [{| processingId := toString dateNow;
                                           stage := ReadingBlob (clock s) |}]) r = None).
    { apply nth_error_None. rewrite length_app. simpl. lia. }
    unfold performance_now. simpl. rewrite Hn'. exact H.
Qed.

Lemma step_traced (s : Engine) (ev : Event) :
  runsTraced s -> runsTraced (step s ev).
Proof.
  intros H. destruct ev; simpl.
  - apply (runsTraced_sameRuns s); [apply elapse_runs | exact H].
  - apply (runsTraced_sameRuns s); [apply detectActivity_runs | exact H].
  - unfold ondataavailable. destruct (0 <? size)%N; [|exact H].
    apply (runsTraced_sameRuns s); [same_runs | exact H].
  - apply onstop_traced, H.
  - apply resume_traced, H.
  - apply resume_traced, H.
  - apply resume_traced, H.
  - apply resume_traced, H.
  - unfold audio_onended. apply settlePlayback_traced.
    destruct (nth_error (audios s) a);
      (eapply runsTraced_sameRuns; [|exact H]; same_runs).
  - unfold audio_onerror. apply settlePlayback_traced.
    eapply runsTraced_sameRuns; [|exact H]; same_runs.
  - unfold audio_play_catch. apply settlePlayback_traced.
    eapply runsTraced_sameRuns; [|exact H]; same_runs.
  - apply (runsTraced_sameRuns s); [apply interruptCurrentResponse_runs | exact H].
  - apply (runsTraced_sameRuns s); [apply cleanup_runs | exact H].
Qed.

(** In every reachable state each run has called each service at most once,
    in pipeline order, as far as its stage says. *)
Lemma reachable_traced (s : Engine) : reachable s -> runsTraced s.
Proof.
  induction 1 as [|s ev _ IH].
  - intros r. destruct r; reflexivity.
  - apply step_traced, IH.
Qed.

Lemma stageOf_Some (r : nat) (s : Engine) (st : Stage) :
  stageOf r s = Some st ->
  exists run, nth_error (runs s) r = Some run /\ stage run = st.
Proof.
  unfold stageOf. destruct (nth_error (runs s) r) as [run|]; [|discriminate].
  intros [= <-]. exists run. split; reflexivity.
Qed.

Lemma stageOf_sameRuns (r : nat) (s s' : Engine) :
  sameRuns s s' -> stageOf r s' = stageOf r s /\ runCalls r s' = runCalls r s.
Proof. intros [Hr Hc]. unfold stageOf. rewrite Hr. split; [reflexivity | apply Hc]. Qed.

(** A settled run is never resumed: it keeps its stage and takes no step. *)
Lemma resume_settled (r r0 : nat) (v : Resumption) (s : Engine) (how : Settlement) :
  stageOf r s = Some (Settled how) ->
  stageOf r (resume r0 v s) = Some (Settled how)
  /\ runCalls r (resume r0 v s) = runCalls r s.
Proof.
  intros H. destruct (Nat.eq_dec r r0) as [->|Hr].
  - destruct (stageOf_Some _ _ _ H) as (run & Hnth & Hst).
    assert (Hsame : resume r0 v s = s).
    { unfold resume. rewrite Hnth, Hst. destruct v; reflexivity. }
    rewrite Hsame. split; [exact H | reflexivity].
  - destruct (resume_other r0 r v s Hr) as [Hn Hc].
    unfold stageOf in *. rewrite Hn. split; assumption.
Qed.

Lemma settlePlayback_settled (r a : nat) (res : Awaited unit) (s : Engine)
  (how : Settlement) :
  stageOf r s = Some (Settled how) ->
  stageOf r (settlePlayback a res s) = Some (Settled how)
  /\ runCalls r (settlePlayback a res s) = runCalls r s.
Proof.
  intros H. unfold settlePlayback.
  destruct (nth_error (audios s) a); [apply resume_settled, H|].
  split; [exact H | reflexivity].
Qed.

Lemma step_settled (r : nat) (s : Engine) (how : Settlement) (ev : Event) :
  stageOf r s = Some (Settled how) ->
  stageOf r (step s ev) = Some (Settled how)
  /\ runCalls r (step s ev) = runCalls r s.
Proof.
  intros H.
  assert (Hsame : forall s', sameRuns s s' ->
            stageOf r s' = Some (Settled how) /\ runCalls r s' = runCalls r s).
  { intros s' Hs. destruct (stageOf_sameRuns r s s' Hs) as [A B].
    rewrite A. split; assumption. }
  assert (Hplay : forall s' a res, sameRuns s s' ->
            stageOf r (settlePlayback a res s') = Some (Settled how)
            /\ runCalls r (settlePlayback a res s') = runCalls r s).
  { intros s' a res Hs. destruct (Hsame s' Hs) as [A B].
    destruct (settlePlayback_settled r a res s' how A) as [C D].
    split; [exact C | congruence]. }
  destruct ev; simpl.
  - apply Hsame, elapse_runs.
  - apply Hsame, detectActivity_runs.
  - apply Hsame. unfold ondataavailable.
    destruct (0 <? size)%N; [same_runs | apply sameRuns_refl].
  - unfold onstop. destruct (audioChunks s); [split; [exact H | reflexivity]|].
    destruct (stageOf_Some _ _ _ H) as (run & Hnth & Hst).
    split; [|reflexivity].
    unfold stageOf, processAudioWithInterruption. simpl.
    rewrite nth_error_app1 by (apply nth_error_Some; congruence).
    rewrite Hnth. simpl. congruence.
  - apply resume_settled, H.
  - apply resume_settled, H.
  - apply resume_settled, H.
  - apply resume_settled, H.
  - unfold audio_onended. apply Hplay.
    destruct (nth_error (audios s) a); same_runs.
  - unfold audio_onerror. apply Hplay. same_runs.
  - unfold audio_play_catch. apply Hplay. same_runs.
  - apply Hsame, interruptCurrentResponse_runs.
  - apply Hsame, cleanup_runs.
Qed.

Lemma exec_settled (evs : list Event) (r : nat) (s : Engine) (how : Settlement) :
  stageOf r s = Some (Settled how) ->
  stageOf r (exec s evs) = Some (Settled how)
  /\ runCalls r (exec s evs) = runCalls r s.
Proof.
  revert s. induction evs as [|ev evs IH]; intros s H; simpl.
  - split; [exact H | reflexivity].
  - destruct (step_settled r s how ev H) as [A B].
    destruct (IH (step s ev) A) as [C D]. split; [exact C | congruence].
Qed.

(** ** Speech starts, silence ends *)

Lemma sameLoop_refl (s : Engine) : sameLoop s s.
Proof. repeat split. Qed.

Lemma sameLoop_trans (s1 s2 s3 : Engine) :
  sameLoop s1 s2 -> sameLoop s2 s3 -> sameLoop s1 s3.
Proof.
  unfold sameLoop.
  intros (A1 & A2 & A3 & A4 & A5) (B1 & B2 & B3 & B4 & B5).
  repeat split; congruence.
Qed.

Lemma recorderStops_app (s s' : Engine) (es : list Effect) :
  effects s' = effects s ++ es -> flat_map stopOf es = [] ->
  recorderStops s' = recorderStops s.
Proof.
  intros He Hes. unfold recorderStops.
  rewrite He, flat_map_app, Hes, app_nil_r. reflexivity.
Qed.

Lemma resume_loop (r0 : nat) (v : Resumption) (s : Engine) :
  sameLoop s (resume r0 v s).
Proof.
  destruct (resume_devices r0 v s) as (T & C & M & A & _).
  repeat split; try assumption.
  destruct (nth_error (runs s) r0) as [run|] eqn:Hnth.
  - destruct (resume_shape r0 v s run Hnth)
      as [-> | (st' & es & _ & Hstop & _ & Heff & _)]; [reflexivity|].
    apply (recorderStops_app s _ es Heff Hstop).
  - rewrite (resume_none r0 v s Hnth). reflexivity.
Qed.

Lemma settlePlayback_loop (a : nat) (res : Awaited unit) (s : Engine) :
  sameLoop s (settlePlayback a res s).
Proof.
  unfold settlePlayback.
  destruct (nth_error (audios s) a); [apply resume_loop | apply sameLoop_refl].
Qed.

Lemma interruptCurrentResponse_loop (s : Engine) :
  sameLoop s (interruptCurrentResponse s).
Proof.
  destruct (interruptCurrentResponse_devices s) as (T & C & M & A & _).
  repeat split; try assumption.
  unfold interruptCurrentResponse, pauseAudio, recorderStops.
  destruct (currentAudio s) as [a|]; simpl;
    [destruct (nth_error (audios s) a); simpl|];
    repeat rewrite flat_map_app; simpl; repeat rewrite app_nil_r; reflexivity.
Qed.

(** Apart from animation frames, the passing of time and [cleanup], no
    event touches the detection loop or stops the recorder. *)
Lemma other_event_loop (s : Engine) (ev : Event) :
  match ev with
  | Elapse _ | AnimationFrame _ _ | Cleanup => True
  | _ => sameLoop s (step s ev)
  end.
Proof.
  destruct ev; simpl; try exact I.
  - unfold ondataavailable. destruct (0 <? size)%N; repeat split.
  - unfold onstop. destruct (audioChunks s); repeat split.
  - apply resume_loop.
  - apply resume_loop.
  - apply resume_loop.
  - apply resume_loop.
  - unfold audio_onended.
    eapply sameLoop_trans; [|apply settlePlayback_loop].
    destruct (nth_error (audios s) a); repeat split.
  - unfold audio_onerror.
    eapply sameLoop_trans; [|apply settlePlayback_loop]. repeat split.
  - unfold audio_play_catch.
    eapply sameLoop_trans; [|apply settlePlayback_loop]. repeat split.
  - apply interruptCurrentResponse_loop.
Qed.

(** Once the recorder is inactive, a stretch of silence leaves it inactive
    and does not stop it again. *)
Lemma silence_keeps_inactive (evs : list Event) (s : Engine) :
  analyser s = true -> Forall undisturbed evs ->
  mediaRecorder s = Some inactive ->
  mediaRecorder (exec s evs) = Some inactive
  /\ recorderStops (exec s evs) = recorderStops s.
Proof.
  revert s. induction evs as [|ev evs IH]; intros s Ha Hall Hm; simpl.
  - split; [exact Hm | reflexivity].
  - inversion Hall as [|? ? Hev Hrest]; subst.
    assert (Hnext : analyser (step s ev) = true
                    /\ mediaRecorder (step s ev) = Some inactive
                    /\ recorderStops (step s ev) = recorderStops s).
    { pose proof (other_event_loop s ev) as Hother.
      destruct ev; simpl in Hev; try contradiction;
        try (destruct Hother as (_ & _ & M & A & R);
             repeat split; congruence).
      - (* Elapse *)
        simpl. unfold elapse, silenceTimeout. rewrite Hm.
        destruct (silenceTimer s) as [due|];
          [destruct (due <=? clock s + Z.of_nat ms)|]; simpl; auto.
      - (* AnimationFrame *)
        destruct Hev as [Hlen Hr].
        destruct (silent_frame_flags dataArray Hlen Hr) as [Hgt Hlt].
        simpl. unfold detectActivity. rewrite Ha, Hgt, Hlt. simpl.
        unfold handleSilence. destruct (silenceTimer s); simpl; auto. }
    destruct Hnext as (Ha' & Hm' & Hr').
    rewrite <- Hr'. apply IH; assumption.
Qed.

(** While the recorder records with the timer armed, a stretch of silence
    that lasts until the timer is due stops the recorder, once. *)
Lemma silence_fires_timer (evs : list Event) (s : Engine) (due : Z) :
  analyser s = true -> Forall undisturbed evs ->
  mediaRecorder s = Some recording ->
  silenceTimer s = Some due -> clock s < due <= clock s + elapsed evs ->
  mediaRecorder (exec s evs) = Some inactive
  /\ recorderStops (exec s evs) = S (recorderStops s).
Proof.
  revert s. induction evs as [|ev evs IH]; intros s Ha Hall Hm Ht Hdue.
  - simpl in Hdue. lia.
  - inversion Hall as [|? ? Hev Hrest]; subst.
    pose proof (other_event_loop s ev) as Hother.
    destruct ev; simpl in Hev; try contradiction;
      try (destruct Hother as (T & C & M & A & R);
           simpl exec; rewrite <- R;
           apply IH; try congruence;
           rewrite C; simpl in Hdue; exact Hdue).
    + (* Elapse *)
      simpl. unfold elapse. rewrite Ht.
      destruct (due <=? clock s + Z.of_nat ms) eqn:Hfire.
      * assert (Hs : analyser (set_clock (clock s + Z.of_nat ms) (silenceTimeout s)) = true
                     /\ mediaRecorder (set_clock (clock s + Z.of_nat ms) (silenceTimeout s))
                        = Some inactive
                     /\ recorderStops (set_clock (clock s + Z.of_nat ms) (silenceTimeout s))
                        = S (recorderStops s)).
        { unfold silenceTimeout, recorderStops. rewrite Hm. simpl.
          rewrite flat_map_app, length_app. simpl. repeat split; auto. lia. }
        destruct Hs as (Ha' & Hm' & He').
        rewrite <- He'. apply silence_keeps_inactive; assumption.
      * apply Z.leb_gt in Hfire.
        assert (He : recorderStops s
                     = recorderStops (set_clock (clock s + Z.of_nat ms) s))
          by reflexivity.
        rewrite He.
        apply (IH (set_clock (clock s + Z.of_nat ms) s)); simpl; auto.
        simpl in Hdue. lia.
    + (* AnimationFrame *)
      destruct Hev as [Hlen Hr].
      destruct (silent_frame_flags dataArray Hlen Hr) as [Hgt Hlt].
      simpl. unfold detectActivity. rewrite Ha, Hgt, Hlt. simpl.
      unfold handleSilence. rewrite Ht.
      apply IH; auto.
Qed.

(** A start that throws is logged, last, and leaves the recorder
    inactive. *)
Lemma handleVoiceActivity_failed_start (e : Error) (s : Engine) :
  mediaRecorder s = Some inactive ->
  mediaRecorder (handleVoiceActivity (Rejected e) s) = Some inactive
  /\ exists before,
       effects (handleVoiceActivity (Rejected e) s)
       = before ++ [ConsoleError "Failed to start recording:"].
Proof.
  intros Hm.
  split;
    [exact (proj1 (proj2 (proj2 (proj2 (handleVoiceActivity_spec (Rejected e) s))))
              Hm)|].
  unfold handleVoiceActivity.
  set (s1 := match silenceTimer s with
             | Some _ => set_silenceTimer None s
             | None => s
             end).
  assert (M1 : mediaRecorder s1 = mediaRecorder s)
    by (unfold s1; destruct (silenceTimer s); reflexivity).
  set (s2 := match currentAudio s1 with
             | Some a => if negb (audioPaused s1 a)
                         then interruptCurrentResponse s1 else s1
             | None => s1
             end).
  assert (H2 : sameDevices s1 s2).
  { unfold s2. destruct (currentAudio s1) as [a|]; [|apply sameDevices_refl].
    destruct (negb (audioPaused s1 a));
      [apply interruptCurrentResponse_devices | apply sameDevices_refl]. }
  destruct H2 as (_ & _ & M2 & _ & _).
  rewrite M2, M1, Hm. exists (effects s2). reflexivity.
Qed.

(** C5 (amended): in every state the running engine can reach, a frame
    whose volume is strictly above 0.05 cancels a pending silence timer
    and, if the recorder is inactive, asks it to start: the recorder is
    then recording, unless the start throws, in which case the error is
    logged and the recorder stays inactive; and while the recorder records,
    frames below 0.01 over 1500 ms of elapsed time fire the silence timer,
    which stops the recorder, once, whatever the recorder, the services,
    the audio elements and the interface do meanwhile. *)
Theorem vad_speech_and_silence (s : Engine) :
  reachable s -> analyser s = true ->
  (forall (d : Snapshot) (start : Awaited unit),
     bufferLength d = frequencyBinCount ->
     (INTERRUPTION_THRESHOLD < rms d)%R ->
     silenceTimer (step s (AnimationFrame d start)) = None
     /\ (mediaRecorder s = Some inactive ->
         (forall u, start = Resolved u ->
            mediaRecorder (step s (AnimationFrame d start)) = Some recording)
         /\ (forall e, start = Rejected e ->
               mediaRecorder (step s (AnimationFrame d start)) = Some inactive
               /\ exists before,
                    effects (step s (AnimationFrame d start))
                    = before ++ [ConsoleError "Failed to start recording:"])))
  /\
  (forall (d : Snapshot) (start : Awaited unit) (evs : list Event),
     mediaRecorder s = Some recording ->
     bufferLength d = frequencyBinCount ->
     (rms d < SILENCE_THRESHOLD)%R ->
     Forall undisturbed evs ->
     SILENCE_DURATION <= elapsed evs ->
     mediaRecorder (exec s (AnimationFrame d start :: evs)) = Some inactive
     /\ recorderStops (exec s (AnimationFrame d start :: evs))
        = S (recorderStops s)).
Proof.
  intros Hreach Ha. split.
  - intros d start Hlen Hr. simpl. unfold detectActivity. rewrite Ha. simpl.
    assert (Hgt : rms_gt_interruption d = true).
    { apply rms_gt_interruption_spec; [apply frequencyBinCount_pos|]; assumption. }
    rewrite Hgt.
    pose proof (handleVoiceActivity_spec start s) as (Ht & _ & _ & Hm & _).
    split; [exact Ht|]. intros Hinactive. split.
    + intros u ->. apply (Hm Hinactive).
    + intros e ->. apply handleVoiceActivity_failed_start. exact Hinactive.
  - intros d start evs Hm Hlen Hr Hall Hlong.
    destruct (silent_frame_flags d Hlen Hr) as [Hgt Hlt].
    pose proof (reachable_timerPending s Hreach) as Hpend.
    simpl. unfold detectActivity. rewrite Ha, Hgt, Hlt. simpl.
    unfold handleSilence. destruct (silenceTimer s) as [due|] eqn:Ht.
    + specialize (Hpend due Ht).
      apply (silence_fires_timer evs s due); auto. lia.
    + assert (He : recorderStops s
                   = recorderStops
                       (set_silenceTimer (Some (clock s + SILENCE_DURATION)) s))
        by reflexivity.
      rewrite He.
      apply (silence_fires_timer evs _ (clock s + SILENCE_DURATION)); auto.
      simpl. unfold SILENCE_DURATION in *. lia.
Qed.

Lemma vad_speech_and_silence_witness :
  (silenceTimer (step initialized (AnimationFrame loud (Resolved tt))) = None
   /\ (mediaRecorder initialized = Some inactive ->
       (forall u, Resolved tt = Resolved u ->
          mediaRecorder (step initialized (AnimationFrame loud (Resolved tt)))
          = Some recording)
       /\ (forall e, Resolved tt = Rejected e ->
             mediaRecorder (step initialized (AnimationFrame loud (Resolved tt)))
             = Some inactive
             /\ exists before,
                  effects (step initialized (AnimationFrame loud (Resolved tt)))
                  = before ++ [ConsoleError "Failed to start recording:"])))
  /\ (mediaRecorder
        (exec (step initialized (AnimationFrame loud (Resolved tt)))
           [AnimationFrame quiet (Resolved tt); Elapse 100; DataAvailable 1600;
            AnimationFrame quiet (Resolved tt); Elapse 1400]) = Some inactive
      /\ recorderStops
           (exec (step initialized (AnimationFrame loud (Resolved tt)))
              [AnimationFrame quiet (Resolved tt); Elapse 100; DataAvailable 1600;
               AnimationFrame quiet (Resolved tt); Elapse 1400])
         = S (recorderStops (step initialized (AnimationFrame loud (Resolved tt))))).
Proof.
  split.
  - apply (vad_speech_and_silence initialized).
    + constructor.
    + reflexivity.
    + vm_compute. reflexivity.
    + exact rms_loud.
  - apply (vad_speech_and_silence (step initialized (AnimationFrame loud (Resolved tt)))).
    + constructor. constructor.
    + reflexivity.
    + reflexivity.
    + vm_compute. reflexivity.
    + exact rms_quiet.
    + repeat constructor. exact rms_quiet.
    + vm_compute. discriminate.
Defined.

(** C5, as stated, fails when [mediaRecorder.start] throws: on the
    initialized engine, whose recorder is inactive, a full-scale frame
    whose start throws leaves the recorder inactive, not recording. *)
Lemma failed_start_does_not_record :
  reachable initialized
  /\ mediaRecorder initialized = Some inactive
  /\ bufferLength loud = frequencyBinCount
  /\ (INTERRUPTION_THRESHOLD < rms loud)%R
  /\ mediaRecorder
       (step initialized
          (AnimationFrame loud (Rejected "NotSupportedError"%string)))
     <> Some recording
  /\ effects
       (step initialized
          (AnimationFrame loud (Rejected "NotSupportedError"%string)))
     = [ConsoleError "Failed to start recording:"].
Proof.
  split; [constructor|]. split; [reflexivity|].
  split; [vm_compute; reflexivity|]. split; [exact rms_loud|].
  split; [vm_compute; discriminate | vm_compute; reflexivity].
Qed.


(** ** Degenerate transcriptions *)

(** C7: when the transcription that a run awaits arrives with a text that
    is empty after trimming or shorter than 3 code units, the run ends
    without an error: the promise is fulfilled, the only output is one
    [console.log], playback is untouched, and whatever happens later the
    run's only step remains its transcription call: no reply is requested,
    no speech is synthesized, nothing is played, no metrics are logged. *)
Theorem short_transcript_stops_silently
  (s : Engine) (r : nat) (t0 : Z) (text : JSString) (evs : list Event) :
  reachable s ->
  stageOf r s = Some (Transcribing t0) ->
  trim text = [] \/ (List.length text < 3)%nat ->
  let s1 := step s (TranscribeSettled r (Resolved text)) in
  (exists msg, effects s1 = effects s ++ [ConsoleLog msg])
  /\ stageOf r s1 = Some (Settled Fulfilled)
  /\ isProcessing s1 = false
  /\ currentAudio s1 = currentAudio s
  /\ audios s1 = audios s
  /\ runCalls r (exec s1 evs) = [STT].
Proof.
  intros Hreach Hstage Htext s1.
  destruct (stageOf_Some _ _ _ Hstage) as (run & Hnth & Hst).
  pose proof (reachable_traced s Hreach r) as Htr.
  rewrite Hnth, Hst in Htr. simpl in Htr.
  assert (Hlt : (r < List.length (runs s))%nat)
    by (apply nth_error_Some; congruence).
  assert (Hskip : negb (truthy (trim text)) || (Z.of_nat (List.length text) <? 3)
                  = true).
  { destruct Htext as [-> | Hlen]; [reflexivity|].
    apply orb_true_iff. right. apply Z.ltb_lt. lia. }
  assert (Hs1 : exists msg,
            s1 = setStage r (processingId run) (Settled Fulfilled)
                   (set_isProcessing false (emit (ConsoleLog msg) s))).
  { unfold s1. simpl. unfold resume. rewrite Hnth, Hst.
    unfold afterSTT, performSTT.
    destruct (strictNotEqual _ _); [|rewrite Hskip]; eexists; reflexivity. }
  destruct Hs1 as (msg & Hs1).
  assert (Hst1 : stageOf r s1 = Some (Settled Fulfilled)).
  { rewrite Hs1. unfold stageOf. simpl.
    rewrite nth_error_replaceAt_eq by exact Hlt. reflexivity. }
  assert (Hc1 : runCalls r s1 = [STT]).
  { rewrite Hs1. unfold runCalls. simpl. rewrite flat_map_app. simpl.
    rewrite app_nil_r. exact Htr. }
  repeat split.
  - exists msg. rewrite Hs1. reflexivity.
  - exact Hst1.
  - rewrite Hs1. reflexivity.
  - rewrite Hs1. reflexivity.
  - rewrite Hs1. reflexivity.
  - destruct (exec_settled evs r s1 Fulfilled Hst1) as [_ Hc]. congruence.
Qed.

Lemma short_transcript_stops_silently_witness :
  let s1 := step transcribing (TranscribeSettled 0 (Resolved (js "  "))) in
  (exists msg, effects s1 = effects transcribing ++ [ConsoleLog msg])
  /\ stageOf 0 s1 = Some (Settled Fulfilled)
  /\ isProcessing s1 = false
  /\ currentAudio s1 = currentAudio transcribing
  /\ audios s1 = audios transcribing
  /\ runCalls 0 (exec s1 (utterance 1700000009000)) = [STT].
Proof.
  apply (short_transcript_stops_silently transcribing 0 1600 (js "  ")
           (utterance 1700000009000)).
  - apply reachable_exec. constructor.
  - vm_compute. reflexivity.
  - left. vm_compute. reflexivity.
Defined.

(** ** The promise of a run *)

(** Whatever a run is resumed with, the stage it moves to is not a
    rejection: the [catch] of [processAudioWithInterruption] takes every
    exception. *)
Lemma resume_never_rejects (r0 r : nat) (v : Resumption) (s : Engine) (run' : Run) :
  nth_error (runs (resume r0 v s)) r = Some run' ->
  nth_error (runs s) r = Some run'
  \/ forall e, stage run' <> Settled (RejectedWith e).
Proof.
  intros H. destruct (Nat.eq_dec r r0) as [->|Hr].
  - destruct (nth_error (runs s) r0) as [run|] eqn:Hnth;
      [|rewrite (resume_none r0 v s Hnth) in H; left; congruence].
    destruct (resume_shape r0 v s run Hnth)
      as [Hsame | (st' & es & Hnr & _ & Hruns & _)].
    + rewrite Hsame in H. left. congruence.
    + rewrite Hruns, nth_error_replaceAt_eq in H
        by (apply nth_error_Some; congruence).
      injection H as <-. right. exact Hnr.
  - destruct (resume_other r0 r v s Hr) as [Hn _]. left. congruence.
Qed.

Lemma step_never_rejects (s : Engine) (ev : Event) (r : nat) (run' : Run) :
  nth_error (runs (step s ev)) r = Some run' ->
  nth_error (runs s) r = Some run'
  \/ forall e, stage run' <> Settled (RejectedWith e).
Proof.
  assert (Hsame : forall s', runs s' = runs s ->
            nth_error (runs s') r = Some run' ->
            nth_error (runs s) r = Some run'
            \/ forall e, stage run' <> Settled (RejectedWith e)).
  { intros s' -> H. left. exact H. }
  assert (Hplay : forall a res s', runs s' = runs s ->
            nth_error (runs (settlePlayback a res s')) r = Some run' ->
            nth_error (runs s) r = Some run'
            \/ forall e, stage run' <> Settled (RejectedWith e)).
  { intros a res s' Hr. unfold settlePlayback.
    destruct (nth_error (audios s') a); [|apply Hsame, Hr].
    intros H. apply resume_never_rejects in H. rewrite Hr in H. exact H. }
  destruct ev; simpl.
  - apply Hsame, elapse_runs.
  - apply Hsame, detectActivity_runs.
  - apply Hsame. unfold ondataavailable. destruct (0 <? size)%N; reflexivity.
  - unfold onstop. destruct (audioChunks s); [apply Hsame; reflexivity|].
    unfold processAudioWithInterruption. simpl. intros H.
    destruct (Nat.lt_ge_cases r (List.length (runs s))) as [Hlt|Hge].
    + rewrite nth_error_app1 in H by exact Hlt. left. exact H.
    + rewrite nth_error_app2 in H by exact Hge.
      destruct (r - List.length (runs s))%nat as [|k]; simpl in H.
      * injection H as <-. right. intros e. simpl. discriminate.
      * destruct k; discriminate.
  - apply resume_never_rejects.
  - apply resume_never_rejects.
  - apply resume_never_rejects.
  - apply resume_never_rejects.
  - unfold audio_onended. apply Hplay.
    destruct (nth_error (audios s) a); reflexivity.
  - unfold audio_onerror. apply Hplay. reflexivity.
  - unfold audio_play_catch. apply Hplay. reflexivity.
  - apply Hsame, interruptCurrentResponse_runs.
  - apply Hsame, cleanup_runs.
Qed.

(** In no reachable state has the promise of a run been rejected. *)
Lemma run_never_rejects (s : Engine) (r : nat) (e : Error) :
  reachable s -> stageOf r s <> Some (Settled (RejectedWith e)).
Proof.
  intros H. revert r e. induction H as [|s ev _ IH]; intros r e.
  - destruct r; discriminate.
  - intros Hst. destruct (stageOf_Some _ _ _ Hst) as (run' & Hnth & Hstage).
    destruct (step_never_rejects s ev r run' Hnth) as [Hold | Hnew].
    + apply (IH r e). unfold stageOf. rewrite Hold. simpl. congruence.
    + exact (Hnew e Hstage).
Qed.

(** ** Failures of the services *)

(** The next utterance starts a run, whatever happened before. *)
Lemma onstop_starts_run (s : Engine) (dateNow : Z) (chunk : N) (chunks : list N) :
  audioChunks s = chunk :: chunks ->
  let s' := step s (RecorderStopped dateNow) in
  stageOf (List.length (runs s)) s' = Some (ReadingBlob (clock s))
  /\ isProcessing s' = true
  /\ currentProcessingId s' = Some (toString dateNow).
Proof.
  intros Hc. simpl. unfold onstop. rewrite Hc.
  unfold processAudioWithInterruption, stageOf. simpl.
  rewrite nth_error_app2 by lia. rewrite Nat.sub_diag. simpl.
  repeat split.
Qed.

Lemma failed_step (s : Engine) (r : nat) (st : Stage) (ev : Event) (call : Call) :
  stageOf r s = Some st -> ServiceFailure r st ev call ->
  exists run m,
    nth_error (runs s) r = Some run
    /\ step s ev
       = setStage r (processingId run) (Settled Fulfilled)
           (set_isProcessing false
              (emit (ConsoleError "Voice processing error:")
                 (emit (ConsoleError m) s)))
    /\ (callsAt st (runCalls r s) ->
        count_occ Call_eq_dec (runCalls r s) call = 1%nat).
Proof.
  intros Hstage Hfail.
  destruct (stageOf_Some _ _ _ Hstage) as (run & Hnth & Hst).
  destruct Hfail; simpl; unfold resume; rewrite Hnth, Hst.
  - exists run, "STT processing failed:"%string. repeat split.
    intros Hc. simpl in Hc. rewrite Hc. reflexivity.
  - exists run, "GPT processing failed:"%string. repeat split.
    intros Hc. simpl in Hc. rewrite Hc. reflexivity.
  - exists run, "TTS processing failed:"%string. repeat split.
    intros Hc. simpl in Hc. rewrite Hc. reflexivity.
Qed.

(** C8: when the service call that a run awaits fails (transcription,
    reply generation or speech synthesis), the run ends there: the failure
    is logged, the promise of [processAudioWithInterruption] is fulfilled,
    not rejected, [isProcessing] is false, the detection loop and the
    recorder are untouched, the failed call has been made exactly once and
    is never made again, and the next utterance starts a new run. *)
Theorem service_failure_contained
  (s : Engine) (r : nat) (st : Stage) (ev : Event) (call : Call)
  (evs : list Event) :
  reachable s ->
  stageOf r s = Some st ->
  ServiceFailure r st ev call ->
  let s1 := step s ev in
  (exists msgs, effects s1 = effects s ++ List.map ConsoleError msgs)
  /\ stageOf r s1 = Some (Settled Fulfilled)
  /\ isProcessing s1 = false
  /\ sameDevices s s1
  /\ count_occ Call_eq_dec (runCalls r (exec s1 evs)) call = 1%nat
  /\ runCalls r (exec s1 evs) = runCalls r s
  /\ (forall dateNow chunk chunks,
        audioChunks s1 = chunk :: chunks ->
        let s2 := step s1 (RecorderStopped dateNow) in
        stageOf (List.length (runs s1)) s2 = Some (ReadingBlob (clock s1))
        /\ isProcessing s2 = true
        /\ currentProcessingId s2 = Some (toString dateNow)).
Proof.
  intros Hreach Hstage Hfail s1.
  destruct (failed_step s r st ev call Hstage Hfail) as (run & m & Hnth & Hs1 & Hcount).
  fold s1 in Hs1.
  destruct (stageOf_Some _ _ _ Hstage) as (run' & Hnth' & Hst).
  assert (run' = run) by congruence. subst run'.
  pose proof (reachable_traced s Hreach r) as Htr.
  rewrite Hnth, Hst in Htr. specialize (Hcount Htr).
  assert (Hlt : (r < List.length (runs s))%nat)
    by (apply nth_error_Some; congruence).
  assert (Hst1 : stageOf r s1 = Some (Settled Fulfilled)).
  { rewrite Hs1. unfold stageOf. simpl.
    rewrite nth_error_replaceAt_eq by exact Hlt. reflexivity. }
  assert (Hc1 : runCalls r s1 = runCalls r s).
  { rewrite Hs1. unfold runCalls. simpl. rewrite !flat_map_app. simpl.
    rewrite !app_nil_r. reflexivity. }
  destruct (exec_settled evs r s1 Fulfilled Hst1) as [_ Hc].
  repeat split.
  - exists [m; "Voice processing error:"%string]. rewrite Hs1. simpl.
    rewrite <- app_assoc. reflexivity.
  - exact Hst1.
  - rewrite Hs1. reflexivity.
  - rewrite Hs1. reflexivity.
  - rewrite Hs1. reflexivity.
  - rewrite Hs1. reflexivity.
  - rewrite Hs1. reflexivity.
  - rewrite Hs1. reflexivity.
  - rewrite Hc, Hc1. exact Hcount.
  - congruence.
  - apply (onstop_starts_run s1 dateNow chunk chunks H).
  - apply (onstop_starts_run s1 dateNow chunk chunks H).
  - apply (onstop_starts_run s1 dateNow chunk chunks H).
Qed.

Lemma service_failure_contained_witness :
  let s1 := step synthesizing (GenerateSpeechSettled 0 (Rejected "503"%string)) in
  (exists msgs, effects s1 = effects synthesizing ++ List.map ConsoleError msgs)
  /\ stageOf 0 s1 = Some (Settled Fulfilled)
  /\ isProcessing s1 = false
  /\ sameDevices synthesizing s1
  /\ count_occ Call_eq_dec (runCalls 0 (exec s1 (utterance 1700000009000))) TTS
     = 1%nat
  /\ runCalls 0 (exec s1 (utterance 1700000009000)) = runCalls 0 synthesizing
  /\ (forall dateNow chunk chunks,
        audioChunks s1 = chunk :: chunks ->
        let s2 := step s1 (RecorderStopped dateNow) in
        stageOf (List.length (runs s1)) s2 = Some (ReadingBlob (clock s1))
        /\ isProcessing s2 = true
        /\ currentProcessingId s2 = Some (toString dateNow)).
Proof.
  apply (service_failure_contained synthesizing 0
           (Synthesizing 1600 85 90 1775)
           (GenerateSpeechSettled 0 (Rejected "503"%string)) TTS
           (utterance 1700000009000)).
  - apply reachable_exec, reachable_exec, reachable_exec. constructor.
  - vm_compute. reflexivity.
  - constructor.
Defined.

(** ** The processing id *)


Lemma toNumber_toString (z : Z) : toNumber (toString z) = Some z.
Proof.
  unfold toNumber, toString.
  assert (Hnn : Z.to_int z <> Decimal.Pos Decimal.Nil
                /\ Z.to_int z <> Decimal.Neg Decimal.Nil).
  { destruct z as [|p|p]; simpl; split; try discriminate;
      intros [= Hp]; exact (DecimalPos.Unsigned.to_uint_nonnil p Hp). }
  rewrite NilZero.isi by apply Hnn. simpl. rewrite DecimalZ.of_to. reflexivity.
Qed.

Lemma toString_inj (a b : Z) : toString a = toString b -> a = b.
Proof.
  intros H. apply (f_equal toNumber) in H.
  rewrite !toNumber_toString in H. congruence.
Qed.

(** A step keeps every run and its id. *)
Lemma step_keeps_run (s : Engine) (ev : Event) (r : nat) (run : Run) :
  nth_error (runs s) r = Some run ->
  exists run', nth_error (runs (step s ev)) r = Some run'
               /\ processingId run' = processingId run.
Proof.
  intros Hnth.
  assert (Hsame : forall s', runs s' = runs s ->
            exists run', nth_error (runs s') r = Some run'
                         /\ processingId run' = processingId run).
  { intros s' ->. exists run. split; [exact Hnth | reflexivity]. }
  assert (Hres : forall r0 v s', runs s' = runs s ->
            exists run', nth_error (runs (resume r0 v s')) r = Some run'
                         /\ processingId run' = processingId run).
  { intros r0 v s' Hr. rewrite <- Hr in Hnth.
    destruct (Nat.eq_dec r r0) as [->|Hneq].
    - destruct (resume_shape r0 v s' run Hnth)
        as [-> | (st' & es & _ & _ & Hruns & _)].
      + exists run. split; [exact Hnth | reflexivity].
      + exists {| processingId := processingId run; stage := st' |}.
        split; [|reflexivity]. rewrite Hruns.
        apply nth_error_replaceAt_eq, nth_error_Some. congruence.
    - destruct (resume_other r0 r v s' Hneq) as [Hn _].
      exists run. rewrite Hn. split; [exact Hnth | reflexivity]. }
  assert (Hplay : forall a res s', runs s' = runs s ->
            exists run', nth_error (runs (settlePlayback a res s')) r = Some run'
                         /\ processingId run' = processingId run).
  { intros a res s' Hr. unfold settlePlayback.
    destruct (nth_error (audios s') a); [apply Hres | apply Hsame]; exact Hr. }
  destruct ev; simpl.
  - apply Hsame, elapse_runs.
  - apply Hsame, detectActivity_runs.
  - apply Hsame. unfold ondataavailable. destruct (0 <? size)%N; reflexivity.
  - unfold onstop. destruct (audioChunks s); [apply Hsame; reflexivity|].
    exists run. split; [|reflexivity].
    unfold processAudioWithInterruption. simpl.
    rewrite nth_error_app1 by (apply nth_error_Some; congruence). exact Hnth.
  - apply Hres. reflexivity.
  - apply Hres. reflexivity.
  - apply Hres. reflexivity.
  - apply Hres. reflexivity.
  - unfold audio_onended. apply Hplay.
    destruct (nth_error (audios s) a); reflexivity.
  - unfold audio_onerror. apply Hplay. reflexivity.
  - unfold audio_play_catch. apply Hplay. reflexivity.
  - apply Hsame, interruptCurrentResponse_runs.
  - apply Hsame, cleanup_runs.
Qed.

Lemma exec_keeps_run (evs : list Event) (s : Engine) (r : nat) (run : Run) :
  nth_error (runs s) r = Some run ->
  exists run', nth_error (runs (exec s evs)) r = Some run'
               /\ processingId run' = processingId run.
Proof.
  revert s run. induction evs as [|ev evs IH]; intros s run H; simpl.
  - exists run. split; [exact H | reflexivity].
  - destruct (step_keeps_run s ev r run H) as (run1 & H1 & Hid1).
    destruct (IH (step s ev) run1 H1) as (run2 & H2 & Hid2).
    exists run2. split; [exact H2 | congruence].
Qed.

Lemma onstop_new_run (s : Engine) (dateNow : Z) (chunk : N) (chunks : list N) :
  audioChunks s = chunk :: chunks ->
  nth_error (runs (step s (RecorderStopped dateNow))) (List.length (runs s))
  = Some {| processingId := toString dateNow; stage := ReadingBlob (clock s) |}.
Proof.
  intros Hc. simpl. unfold onstop. rewrite Hc.
  unfold processAudioWithInterruption. simpl.
  rewrite nth_error_app2 by lia. rewrite Nat.sub_diag. reflexivity.
Qed.

(** C4 (as the code has it): the id of a run is the decimal string of the
    wall-clock reading [Date.now()] at its start, and denotes that number.
    Of two runs, the later is a different run with an id of its own; the two
    ids are equal exactly when the two readings are, so the later id is the
    greater number whenever the wall clock advanced between the two
    starts. *)
Theorem processingId_is_start_time
  (s : Engine) (evs : list Event) (t1 t2 : Z)
  (c1 c2 : N) (cs1 cs2 : list N) :
  audioChunks s = c1 :: cs1 ->
  let s1 := step s (RecorderStopped t1) in
  let s' := exec s1 evs in
  audioChunks s' = c2 :: cs2 ->
  let s2 := step s' (RecorderStopped t2) in
  let r1 := List.length (runs s) in
  let r2 := List.length (runs s') in
  (r1 < r2)%nat
  /\ option_map processingId (nth_error (runs s2) r1) = Some (toString t1)
  /\ option_map processingId (nth_error (runs s2) r2) = Some (toString t2)
  /\ currentProcessingId s2 = Some (toString t2)
  /\ toNumber (toString t1) = Some t1
  /\ toNumber (toString t2) = Some t2
  /\ (toString t1 = toString t2 <-> t1 = t2)
  /\ (t1 < t2 -> toString t1 <> toString t2).
Proof.
  intros Hc1 s1 s' Hc2 s2 r1 r2.
  pose proof (onstop_new_run s t1 c1 cs1 Hc1) as Hnew1. fold s1 r1 in Hnew1.
  destruct (exec_keeps_run evs s1 r1 _ Hnew1) as (run1 & Hrun1 & Hid1).
  fold s' in Hrun1. simpl in Hid1.
  pose proof (onstop_new_run s' t2 c2 cs2 Hc2) as Hnew2. fold s2 r2 in Hnew2.
  destruct (step_keeps_run s' (RecorderStopped t2) r1 run1 Hrun1)
    as (run1' & Hrun1' & Hid1').
  fold s2 in Hrun1'.
  repeat split.
  - apply nth_error_Some. unfold r2. congruence.
  - rewrite Hrun1'. simpl. congruence.
  - rewrite Hnew2. reflexivity.
  - apply (onstop_starts_run s' t2 c2 cs2 Hc2).
  - apply toNumber_toString.
  - apply toNumber_toString.
  - apply toString_inj.
  - intros ->. reflexivity.
  - intros Hlt Heq. apply toString_inj in Heq. lia.
Qed.

Lemma processingId_is_start_time_witness :
  let s := exec initialized
             [AnimationFrame loud (Resolved tt); Elapse 100; DataAvailable 1600;
              AnimationFrame quiet (Resolved tt); Elapse 1500; DataAvailable 160] in
  let s1 := step s (RecorderStopped 1700000000000) in
  let s' := exec s1 [AnimationFrame loud (Resolved tt); Elapse 100; DataAvailable 1600;
                     AnimationFrame quiet (Resolved tt); Elapse 1500; DataAvailable 160] in
  let s2 := step s' (RecorderStopped 1700000001600) in
  let r1 := List.length (runs s) in
  let r2 := List.length (runs s') in
  (r1 < r2)%nat
  /\ option_map processingId (nth_error (runs s2) r1) = Some (toString 1700000000000)
  /\ option_map processingId (nth_error (runs s2) r2) = Some (toString 1700000001600)
  /\ currentProcessingId s2 = Some (toString 1700000001600)
  /\ toNumber (toString 1700000000000) = Some 1700000000000
  /\ toNumber (toString 1700000001600) = Some 1700000001600
  /\ (toString 1700000000000 = toString 1700000001600
      <-> 1700000000000 = 1700000001600)
  /\ (1700000000000 < 1700000001600
      -> toString 1700000000000 <> toString 1700000001600).
Proof.
  apply (processingId_is_start_time
           (exec initialized
              [AnimationFrame loud (Resolved tt); Elapse 100; DataAvailable 1600;
               AnimationFrame quiet (Resolved tt); Elapse 1500; DataAvailable 160])
           [AnimationFrame loud (Resolved tt); Elapse 100; DataAvailable 1600;
            AnimationFrame quiet (Resolved tt); Elapse 1500; DataAvailable 160]
           1700000000000 1700000001600 1600%N 1600%N [160%N] [160%N]).
  - vm_compute. reflexivity.
  - vm_compute. reflexivity.
Defined.

(** C4, as stated, fails: two runs that start at the same wall-clock
    reading share their id, and the earlier one, still waiting for its
    transcription, then passes the staleness check of the later one's id. *)
Lemma two_runs_share_an_id :
  List.map processingId (runs clock_set_back)
  = ["1700000000000"%string; "1700000000000"%string]
  /\ stageOf 0 clock_set_back = Some (Transcribing 1600)
  /\ stageOf 1 clock_set_back = Some (ReadingBlob 3205)
  /\ stageOf 0 (step clock_set_back
                  (TranscribeSettled 0 (Resolved (js "hello there"))))
     = Some (Generating 1600 1605 3205).
Proof. vm_compute. repeat split. Qed.

(** ** Stale results *)

Lemma strictNotEqual_spec (a b : option string) :
  strictNotEqual a b = true <-> a <> b.
Proof.
  destruct a as [x|], b as [y|]; simpl.
  - destruct (String.eqb_spec x y) as [->|Hne]; simpl; split; intros H;
      try congruence; try reflexivity.
  - split; [discriminate | reflexivity].
  - split; [discriminate | reflexivity].
  - split; [discriminate | intros H; exfalso; apply H; reflexivity].
Qed.

(** The two checks the pipeline has: a transcription or a reply that
    arrives after the current id changed ends the run, with no further
    step. *)
Lemma stale_result_discarded_before_tts
  (s : Engine) (r : nat) (run : Run) (ev : Event) :
  nth_error (runs s) r = Some run ->
  currentProcessingId s <> Some (processingId run) ->
  (exists t0 text,
     stage run = Transcribing t0 /\ ev = TranscribeSettled r (Resolved text))
  \/ (exists t0 t1 t2 response,
        stage run = Generating t0 t1 t2
        /\ ev = GenerateTextSettled r (Resolved response)) ->
  stageOf r (step s ev) = Some (Settled Fulfilled)
  /\ runCalls r (step s ev) = runCalls r s
  /\ currentAudio (step s ev) = currentAudio s.
Proof.
  intros Hnth Hstale Hev.
  apply strictNotEqual_spec in Hstale.
  assert (Hlt : (r < List.length (runs s))%nat)
    by (apply nth_error_Some; congruence).
  destruct Hev as [(t0 & text & Hst & ->) | (t0 & t1 & t2 & response & Hst & ->)];
    simpl; unfold resume; rewrite Hnth, Hst;
    [unfold afterSTT, performSTT | unfold afterGPT, performGPTProcessing];
    rewrite Hstale; simpl; unfold stageOf, runCalls; simpl;
    rewrite nth_error_replaceAt_eq by exact Hlt;
    rewrite flat_map_app; simpl; rewrite app_nil_r; repeat split.
Qed.

(** The result of speech synthesis is played without any look at the
    current id. *)
Lemma speech_result_is_played_unchecked
  (s : Engine) (r : nat) (t0 t1 t2 t3 : Z) (url : string) :
  stageOf r s = Some (Synthesizing t0 t1 t2 t3) ->
  let s' := step s (GenerateSpeechSettled r (Resolved url)) in
  effects s' = effects s ++ [AudioPlay r (List.length (audios s))]
  /\ currentAudio s' = Some (List.length (audios s))
  /\ audioPaused s' (List.length (audios s)) = false
  /\ currentProcessingId s' = currentProcessingId s.
Proof.
  intros Hstage. destruct (stageOf_Some _ _ _ Hstage) as (run & Hnth & Hst).
  simpl. unfold resume. rewrite Hnth, Hst. simpl.
  unfold audioPaused. simpl.
  rewrite nth_error_app2 by lia. rewrite Nat.sub_diag. simpl.
  repeat split.
Qed.

(** C1 (the code at the failing input): run 0 awaits its synthesized
    speech, its id being the current one, when [interruptCurrentResponse]
    clears the current id.  The speech then arrives: it is played, and when
    the playback ends the latencies of the run are logged as those of a
    completed generation. *)
Theorem stale_speech_is_played :
  let interrupted := exec synthesizing [Elapse 10; InterruptCurrentResponse] in
  let played :=
    exec interrupted
      [Elapse 50; GenerateSpeechSettled 0 (Resolved "blob:reply-0"%string)] in
  let ended := exec played [Elapse 900; AudioEnded 0] in
  stageOf 0 synthesizing = Some (Synthesizing 1600 85 90 1775)
  /\ currentProcessingId synthesizing = Some "1700000000000"%string
  /\ option_map processingId (nth_error (runs synthesizing) 0)
     = Some "1700000000000"%string
  /\ currentProcessingId interrupted = None
  /\ stageOf 0 interrupted = Some (Synthesizing 1600 85 90 1775)
  /\ effects played = effects interrupted ++ [AudioPlay 0 0]
  /\ currentAudio played = Some 0%nat
  /\ audioPaused played 0 = false
  /\ effects ended
     = effects played
       ++ [ProcessingMetrics 0
             {| stt := 85; gpt := 90; tts := 960; total := 1135 |} false]
  /\ stageOf 0 ended = Some (Settled Fulfilled).
Proof. vm_compute. repeat split. Qed.

(** The same through the detection loop alone: the first reply is playing
    while run 1 awaits its synthesized speech; the speaker talks over the
    reply, which pauses it and clears the current id; the speech of run 1
    arrives and is played all the same, and its latencies are logged. *)
Lemma barge_in_plays_stale_speech :
  let barged := step second_synthesizing (AnimationFrame loud (Resolved tt)) in
  let played :=
    exec barged
      [Elapse 60; GenerateSpeechSettled 1 (Resolved "blob:reply-1"%string)] in
  let ended := exec played [Elapse 900; AudioEnded 1] in
  stageOf 1 second_synthesizing = Some (Synthesizing 3285 85 90 3460)
  /\ currentProcessingId second_synthesizing = Some "1700000003400"%string
  /\ currentAudio second_synthesizing = Some 0%nat
  /\ audioPaused second_synthesizing 0 = false
  /\ currentProcessingId barged = None
  /\ audioPaused barged 0 = true
  /\ effects played = effects barged ++ [AudioPlay 1 1]
  /\ audioPaused played 1 = false
  /\ effects ended
     = effects played
       ++ [ProcessingMetrics 1
             {| stt := 85; gpt := 90; tts := 960; total := 1135 |} false].
Proof. vm_compute. repeat split. Qed.

(** ** Playback *)

(** What [playAudioWithInterruption] does: the new element becomes the
    current audio and plays, and every element that existed keeps its
    [paused] flag. *)
Lemma play_replaces_current_audio (r : nat) (audioUrl : string) (s : Engine) :
  let s' := fst (playAudioWithInterruption r audioUrl s) in
  let audio := snd (playAudioWithInterruption r audioUrl s) in
  audio = List.length (audios s)
  /\ currentAudio s' = Some audio
  /\ audioPaused s' audio = false
  /\ effects s' = effects s ++ [AudioPlay r audio]
  /\ (forall previous, (previous < List.length (audios s))%nat ->
        audioPaused s' previous = audioPaused s previous).
Proof.
  simpl. unfold audioPaused. simpl. repeat split.
  - rewrite nth_error_app2 by lia. rewrite Nat.sub_diag. reflexivity.
  - intros previous Hlt. rewrite nth_error_app1 by exact Hlt. reflexivity.
Qed.

(** The second reply is played while the first one plays. *)
Lemma second_playback_overlaps_first :
  currentAudio second_synthesizing = Some 0%nat
  /\ audioPaused second_synthesizing 0 = false
  /\ overlap = step (step second_synthesizing (Elapse 60))
                  (GenerateSpeechSettled 1 (Resolved "blob:reply-1"%string))
  /\ effects overlap = effects second_synthesizing ++ [AudioPlay 1 1]
  /\ currentAudio overlap = Some 1%nat
  /\ audioPaused overlap 0 = false
  /\ audioPaused overlap 1 = false.
Proof. vm_compute. repeat split. Qed.

(** C3: the code fails the claim.  The first reply (element 0) is playing
    when the second reply is played: [playAudioWithInterruption] overwrites
    [currentAudio] without pausing element 0, so two playbacks are active at
    once, and no pause of element 0 was ever issued.  The element that was
    dropped can no longer be stopped: [interruptCurrentResponse] and
    [cleanup], which pause the current audio before they clear the field,
    both leave element 0 playing.  When element 0 then ends, its handler
    clears [currentAudio] although element 1 is the one it refers to
    ([orphaned]); from then on the speaker's voice neither pauses element 1
    nor clears the processing id, and [cleanup] leaves element 1 playing. *)
Theorem overlapping_playback_cannot_be_stopped :
  reachable overlap
  /\ currentAudio second_synthesizing = Some 0%nat
  /\ audioPaused second_synthesizing 0 = false
  /\ overlap = exec second_synthesizing
                 [Elapse 60; GenerateSpeechSettled 1 (Resolved "blob:reply-1"%string)]
  /\ effects overlap = effects second_synthesizing ++ [AudioPlay 1 1]
  /\ currentAudio overlap = Some 1%nat
  /\ audioPaused overlap 0 = false
  /\ audioPaused overlap 1 = false
  /\ ~ In (AudioPause 0) (effects overlap)
  /\ audioPaused (interruptCurrentResponse overlap) 0 = false
  /\ audioPaused (interruptCurrentResponse overlap) 1 = true
  /\ audioPaused (step overlap (AnimationFrame loud (Resolved tt))) 0 = false
  /\ audioPaused (cleanup overlap) 0 = false
  /\ audioPaused (cleanup overlap) 1 = true
  /\ currentAudio orphaned = None
  /\ audioPaused orphaned 1 = false
  /\ currentProcessingId orphaned = Some "1700000003400"%string
  /\ audioPaused (step orphaned (AnimationFrame loud (Resolved tt))) 1 = false
  /\ currentProcessingId (step orphaned (AnimationFrame loud (Resolved tt)))
     = Some "1700000003400"%string
  /\ audioPaused (interruptCurrentResponse orphaned) 1 = false
  /\ audioPaused (cleanup orphaned) 1 = false.
Proof.
  split.
  - unfold overlap, second_synthesizing, generating, transcribing.
    repeat apply reachable_exec. apply reachable_init.
  - vm_compute. repeat split; try reflexivity.
    intros H. repeat (destruct H as [H|H]; [discriminate H|]). exact H.
Qed.

(** ** Interruption by voice *)

(** C2 (as the code has it): a frame above the interruption threshold that
    arrives while [currentAudio] refers to an audio element that is not
    paused pauses that element, clears [currentAudio] and clears the current
    processing id.  The interruption counter of the interface is left as it is: it is
    incremented, by exactly 1, by the Interrupt button only. *)
Theorem voice_interruption_stops_playback
  (ui : VoiceInterface) (engine : Engine) (d : Snapshot)
  (start : Awaited unit) (a : nat) :
  voiceEngineRef ui = Some engine ->
  analyser engine = true ->
  bufferLength d = frequencyBinCount ->
  (INTERRUPTION_THRESHOLD < rms d)%R ->
  currentAudio engine = Some a ->
  audioPaused engine a = false ->
  exists engine',
    voiceEngineRef (engineEvent (AnimationFrame d start) ui) = Some engine'
    /\ audioPaused engine' a = true
    /\ In (AudioPause a) (effects engine')
    /\ currentAudio engine' = None
    /\ currentProcessingId engine' = None
    /\ interruptionCount (engineEvent (AnimationFrame d start) ui) = interruptionCount ui
    /\ interruptionCount (interruptAgent ui) = (interruptionCount ui + 1)%nat.
Proof.
  intros Href Ha Hlen Hr Hcur Hplaying.
  assert (Hgt : rms_gt_interruption d = true).
  { apply rms_gt_interruption_spec; [apply frequencyBinCount_pos|]; assumption. }
  exists (handleVoiceActivity start engine).
  assert (Hstep : engineEvent (AnimationFrame d start) ui
                  = {| voiceEngineRef := Some (handleVoiceActivity start engine);
                       interruptionCount := interruptionCount ui |}).
  { unfold engineEvent. rewrite Href. simpl. unfold detectActivity.
    rewrite Ha, Hgt. reflexivity. }
  rewrite Hstep. simpl.
  assert (Hel : exists el, nth_error (audios engine) a = Some el
                           /\ audio_paused el = false).
  { unfold audioPaused in Hplaying.
    destruct (nth_error (audios engine) a) as [el|]; [|discriminate].
    exists el. split; [reflexivity | exact Hplaying]. }
  destruct Hel as (el & Hnth & Hp).
  assert (Hlt : (a < List.length (audios engine))%nat)
    by (apply nth_error_Some; congruence).
  assert (Hmain : audioPaused (handleVoiceActivity start engine) a = true
                  /\ In (AudioPause a) (effects (handleVoiceActivity start engine))
                  /\ currentAudio (handleVoiceActivity start engine) = None
                  /\ currentProcessingId (handleVoiceActivity start engine) = None).
  { unfold handleVoiceActivity.
    set (s1 := match silenceTimer engine with
               | Some _ => set_silenceTimer None engine
               | None => engine
               end).
    assert (H1 : currentAudio s1 = Some a /\ audios s1 = audios engine
                 /\ effects s1 = effects engine).
    { unfold s1. destruct (silenceTimer engine); repeat split; assumption. }
    destruct H1 as (Hc1 & Ha1 & He1).
    assert (Hp1 : audioPaused s1 a = false)
      by (unfold audioPaused; rewrite Ha1, Hnth; exact Hp).
    rewrite Hc1, Hp1. simpl.
    unfold interruptCurrentResponse, pauseAudio. rewrite Hc1, Ha1, Hnth.
    unfold audioPaused.
    destruct (mediaRecorder _) as [[| |]|]; [destruct start|..]; simpl;
      rewrite nth_error_replaceAt_eq by exact Hlt; simpl;
      repeat split; try reflexivity;
      repeat (rewrite in_app_iff; simpl); tauto. }
  destruct Hmain as (M1 & M2 & M3 & M4).
  repeat split; try assumption.
  unfold interruptAgent. rewrite Href. reflexivity.
Qed.

Lemma voice_interruption_stops_playback_witness :
  exists engine',
    voiceEngineRef
      (engineEvent (AnimationFrame loud (Resolved tt))
         {| voiceEngineRef := Some speaking; interruptionCount := 0 |})
    = Some engine'
    /\ audioPaused engine' 0 = true
    /\ In (AudioPause 0) (effects engine')
    /\ currentAudio engine' = None
    /\ currentProcessingId engine' = None
    /\ interruptionCount
         (engineEvent (AnimationFrame loud (Resolved tt))
            {| voiceEngineRef := Some speaking; interruptionCount := 0 |})
       = 0%nat
    /\ interruptionCount
         (interruptAgent
            {| voiceEngineRef := Some speaking; interruptionCount := 0 |})
       = 1%nat.
Proof.
  apply (voice_interruption_stops_playback
           {| voiceEngineRef := Some speaking; interruptionCount := 0 |}
           speaking loud (Resolved tt) 0).
  - reflexivity.
  - vm_compute. reflexivity.
  - vm_compute. reflexivity.
  - exact rms_loud.
  - vm_compute. reflexivity.
  - vm_compute. reflexivity.
Defined.

(** C2, as stated, fails: the first reply is playing, the speaker talks
    over it, playback stops and the current id is cleared, but the
    interruption counter is still 0. *)
Lemma voice_interruption_is_not_counted :
  let ui := {| voiceEngineRef := Some speaking; interruptionCount := 0 |} in
  let ui' := engineEvent (AnimationFrame loud (Resolved tt)) ui in
  currentAudio speaking = Some 0%nat
  /\ audioPaused speaking 0 = false
  /\ analyser speaking = true
  /\ rms_gt_interruption loud = true
  /\ option_map currentAudio (voiceEngineRef ui') = Some None
  /\ option_map currentProcessingId (voiceEngineRef ui') = Some None
  /\ interruptionCount ui' = 0%nat
  /\ interruptionCount ui' <> (interruptionCount ui + 1)%nat.
Proof. vm_compute. repeat split. discriminate. Qed.

(** * Further properties of the engine *)

(** ** [cleanup] *)

Lemma cleanup_fields (s : Engine) :
  mediaRecorder (cleanup s) = None /\ analyser (cleanup s) = false
  /\ isProcessing (cleanup s) = false
  /\ silenceTimer (cleanup s) = None
  /\ currentProcessingId (cleanup s) = None
  /\ currentAudio (cleanup s) = None
  /\ runs (cleanup s) = runs s /\ audioChunks (cleanup s) = audioChunks s
  /\ clock (cleanup s) = clock s.
Proof.
  unfold cleanup.
  set (s1 := match mediaRecorder s with
             | Some recording => emit RecorderStop (set_mediaRecorder (Some inactive) s)
             | _ => s
             end).
  assert (H1 : runs s1 = runs s /\ audioChunks s1 = audioChunks s
               /\ clock s1 = clock s)
    by (unfold s1; destruct (mediaRecorder s) as [[| |]|]; repeat split).
  set (s2 := match currentAudio s1 with
             | Some a => set_currentAudio None (pauseAudio a s1)
             | None => s1
             end).
  assert (H2 : currentAudio s2 = None /\ runs s2 = runs s1
               /\ audioChunks s2 = audioChunks s1 /\ clock s2 = clock s1).
  { unfold s2, pauseAudio. destruct (currentAudio s1) as [a|] eqn:E;
      [destruct (nth_error (audios s1) a)|]; repeat split; assumption. }
  set (s3 := match silenceTimer s2 with
             | Some _ => set_silenceTimer None s2
             | None => s2
             end).
  assert (H3 : silenceTimer s3 = None /\ currentAudio s3 = currentAudio s2
               /\ runs s3 = runs s2
               /\ audioChunks s3 = audioChunks s2 /\ clock s3 = clock s2).
  { unfold s3. destruct (silenceTimer s2) eqn:E; repeat split; assumption. }
  destruct H1 as (R1 & K1 & L1), H2 as (U2 & R2 & K2 & L2),
    H3 as (T3 & U3 & R3 & K3 & L3).
  simpl. repeat split; congruence.
Qed.

Lemma cleanup_pauses_current (s : Engine) (a : nat) :
  currentAudio s = Some a -> audioPaused (cleanup s) a = true.
Proof.
  intros Hcur. unfold cleanup.
  set (s1 := match mediaRecorder s with
             | Some recording => emit RecorderStop (set_mediaRecorder (Some inactive) s)
             | _ => s
             end).
  assert (H1 : currentAudio s1 = Some a /\ audios s1 = audios s)
    by (unfold s1; destruct (mediaRecorder s) as [[| |]|];
        (split; [assumption | reflexivity])).
  destruct H1 as (U1 & D1). rewrite U1.
  set (s2 := set_currentAudio None (pauseAudio a s1)).
  assert (H2 : audioPaused s2 a = true).
  { unfold s2, pauseAudio, audioPaused. simpl. rewrite D1.
    destruct (nth_error (audios s) a) as [el|] eqn:Hnth; simpl.
    - rewrite nth_error_replaceAt_eq by (apply nth_error_Some; congruence).
      reflexivity.
    - rewrite D1, Hnth. reflexivity. }
  unfold audioPaused in *.
  destruct (silenceTimer s2); simpl; exact H2.
Qed.

Lemma cleanup_of_reset (c : Engine) :
  mediaRecorder c = None -> silenceTimer c = None -> currentAudio c = None ->
  analyser c = false -> isProcessing c = false ->
  currentProcessingId c = None ->
  cleanup c = emit (ConsoleLog "Voice processing engine cleaned up") c.
Proof.
  destruct c. simpl. intros -> -> -> -> -> ->. reflexivity.
Qed.

(** X1.  [cleanup] leaves no recorder, analyser, timer, current audio, current
    id or processing flag; the audio that was current is paused; the runs
    in flight and the chunks gathered stay; and a second [cleanup] stops and
    pauses nothing again: it only logs. *)
Theorem cleanup_resets_and_repeats_quietly (s : Engine) :
  let c := cleanup s in
  mediaRecorder c = None /\ analyser c = false /\ isProcessing c = false
  /\ silenceTimer c = None /\ currentProcessingId c = None
  /\ currentAudio c = None
  /\ (forall a, currentAudio s = Some a -> audioPaused c a = true)
  /\ runs c = runs s /\ audioChunks c = audioChunks s /\ clock c = clock s
  /\ cleanup c = emit (ConsoleLog "Voice processing engine cleaned up") c.
Proof.
  intros c.
  destruct (cleanup_fields s) as (M & A & P & T & I & U & R & K & C).
  fold c in M, A, P, T, I, U, R, K, C.
  repeat split; try assumption.
  - apply cleanup_pauses_current.
  - apply cleanup_of_reset; assumption.
Qed.

Lemma set_clock_eta (s : Engine) : set_clock (clock s) s = s.
Proof. destruct s. reflexivity. Qed.

(** Without analyser and timer, frames and the passing of time only move
    the clock. *)
Lemma dead_loop (evs : list Event) (c : Engine) :
  analyser c = false -> silenceTimer c = None ->
  Forall frameOrElapse evs ->
  exec c evs = set_clock (clock c + elapsed evs) c.
Proof.
  revert c. induction evs as [|ev evs IH]; intros c Ha Ht Hall.
  - simpl. rewrite Z.add_0_r. symmetry. apply set_clock_eta.
  - inversion Hall as [|? ? Hev Hrest]; subst.
    destruct ev; simpl in Hev; try contradiction; simpl.
    + unfold elapse. rewrite Ht.
      rewrite (IH (set_clock (clock c + Z.of_nat ms) c)) by assumption.
      simpl. rewrite Z.add_assoc. reflexivity.
    + unfold detectActivity. rewrite Ha. simpl. apply IH; assumption.
Qed.

(** X2.  After [cleanup] the detection loop is over: whatever the frames and
    however long the time that passes, the engine starts no recording, arms
    no timer and emits nothing; only its clock moves. *)
Theorem cleanup_ends_detection (s : Engine) (evs : list Event) :
  Forall frameOrElapse evs ->
  exec (cleanup s) evs = set_clock (clock s + elapsed evs) (cleanup s).
Proof.
  intros Hall.
  destruct (cleanup_fields s) as (_ & Ha & _ & Ht & _ & _ & _ & _ & Hc).
  rewrite <- Hc. apply dead_loop; assumption.
Qed.

Lemma cleanup_ends_detection_witness :
  exec (cleanup speaking) [AnimationFrame loud (Resolved tt); Elapse 2000; AnimationFrame quiet (Resolved tt)]
  = set_clock
      (clock speaking
       + elapsed [AnimationFrame loud (Resolved tt); Elapse 2000; AnimationFrame quiet (Resolved tt)])
      (cleanup speaking).
Proof.
  apply (cleanup_ends_detection speaking
           [AnimationFrame loud (Resolved tt); Elapse 2000; AnimationFrame quiet (Resolved tt)]).
  repeat (apply Forall_cons; [exact I|]). apply Forall_nil.
Defined.

(** ** Audio elements *)

Lemma length_replaceAt {A : Type} (l : list A) (i : nat) (x : A) :
  List.length (replaceAt i x l) = List.length l.
Proof.
  revert i. induction l as [|y l IH]; intros i; simpl.
  - destruct i; reflexivity.
  - destruct i; simpl; [reflexivity | rewrite IH; reflexivity].
Qed.

Lemma audiosKept_refl (s : Engine) : audiosKept s s.
Proof. intros a el H. exists el. repeat split; auto. Qed.

Lemma audiosKept_trans (s1 s2 s3 : Engine) :
  audiosKept s1 s2 -> audiosKept s2 s3 -> audiosKept s1 s3.
Proof.
  intros H12 H23 a el H.
  destruct (H12 a el H) as (el2 & N2 & S2 & W2 & P2).
  destruct (H23 a el2 N2) as (el3 & N3 & S3 & W3 & P3).
  exists el3. repeat split; try congruence. auto.
Qed.

Lemma audioOK_refl (s : Engine) : audioOK s s.
Proof. split; [apply audiosKept_refl | auto]. Qed.

Lemma audioOK_trans (s1 s2 s3 : Engine) :
  audioOK s1 s2 -> audioOK s2 s3 -> audioOK s1 s3.
Proof.
  intros [K12 V12] [K23 V23]. split; [|auto].
  apply (audiosKept_trans _ s2); assumption.
Qed.

Lemma audioOK_same (s s' : Engine) :
  audios s' = audios s ->
  currentAudio s' = currentAudio s \/ currentAudio s' = None ->
  audioOK s s'.
Proof.
  intros Ha Hc. split.
  - intros a el H. exists el. rewrite Ha. repeat split; auto.
  - intros Hv a Hcur. rewrite Ha.
    destruct Hc as [Hc|Hc]; rewrite Hc in Hcur; [auto | discriminate].
Qed.

Lemma audioOK_pause (a : nat) (s : Engine) : audioOK s (pauseAudio a s).
Proof.
  unfold pauseAudio.
  destruct (nth_error (audios s) a) as [el|] eqn:Hnth; [|apply audioOK_refl].
  split.
  - intros b elb Hb. simpl.
    destruct (Nat.eq_dec a b) as [<-|Hne].
    + rewrite nth_error_replaceAt_eq by (apply nth_error_Some; congruence).
      eexists. split; [reflexivity|]. simpl.
      assert (elb = el) by congruence. subst. repeat split.
    + rewrite nth_error_replaceAt_neq by exact Hne.
      exists elb. repeat split; auto.
  - intros Hv b Hcur. simpl in *. rewrite length_replaceAt. auto.
Qed.

Lemma audioOK_play (r : nat) (url : string) (s : Engine) :
  audioOK s (fst (playAudioWithInterruption r url s)).
Proof.
  split.
  - intros a el H. simpl. exists el.
    rewrite nth_error_app1 by (apply nth_error_Some; congruence).
    repeat split; auto.
  - intros _ a Hcur. simpl in *. injection Hcur as <-.
    rewrite length_app. simpl. lia.
Qed.

Lemma audioOK_interrupt (s : Engine) : audioOK s (interruptCurrentResponse s).
Proof.
  unfold interruptCurrentResponse.
  destruct (currentAudio s) as [a|] eqn:Hcur.
  - apply (audioOK_trans _ (pauseAudio a s)); [apply audioOK_pause|].
    apply audioOK_same; [reflexivity | right; reflexivity].
  - apply audioOK_same; [reflexivity | left; simpl; congruence].
Qed.

Lemma audioOK_tryCatchFinally (r : nat) (id : string) (s1 : Engine) (c : Completion) :
  audioOK s1 (tryCatchFinally r id (s1, c)).
Proof.
  unfold tryCatchFinally.
  destruct c; apply audioOK_same; try reflexivity; left; reflexivity.
Qed.

Lemma audioOK_resume (r : nat) (v : Resumption) (s : Engine) :
  audioOK s (resume r v s).
Proof.
  assert (Htcf : forall id s1 c,
            audioOK s s1 -> audioOK s (tryCatchFinally r id (s1, c))).
  { intros id s1 c H.
    apply (audioOK_trans _ s1); [exact H | apply audioOK_tryCatchFinally]. }
  assert (Hemit : forall e, audioOK s (emit e s))
    by (intros e; apply audioOK_same; [reflexivity | left; reflexivity]).
  unfold resume.
  destruct (nth_error (runs s) r) as [run|]; [|apply audioOK_refl].
  destruct (stage run), v; try apply audioOK_refl.
  - destruct res; apply Htcf; [apply Hemit | apply audioOK_refl].
  - unfold afterSTT, performSTT. destruct res as [text|e].
    + destruct (strictNotEqual _ _); [apply Htcf, Hemit|].
      destruct (_ || _); apply Htcf, Hemit.
    + apply Htcf, Hemit.
  - unfold afterGPT, performGPTProcessing. destruct res as [response|e].
    + destruct (strictNotEqual _ _); apply Htcf, Hemit.
    + apply Htcf, Hemit.
  - destruct res as [url|e].
    + unfold afterSpeech.
      pose proof (audioOK_play r url s) as Hplay.
      destruct (playAudioWithInterruption r url s) as [s1 a] eqn:E.
      apply Htcf. exact Hplay.
    + apply Htcf, Hemit.
  - destruct (Nat.eqb audio audio0); [|apply audioOK_refl].
    destruct res; apply Htcf, Hemit.
Qed.

Lemma audioOK_settlePlayback (a : nat) (res : Awaited unit) (s : Engine) :
  audioOK s (settlePlayback a res s).
Proof.
  unfold settlePlayback.
  destruct (nth_error (audios s) a); [apply audioOK_resume | apply audioOK_refl].
Qed.

Lemma audioOK_ended (a : nat) (s : Engine) : audioOK s (audio_onended a s).
Proof.
  unfold audio_onended.
  eapply audioOK_trans; [|apply audioOK_settlePlayback].
  destruct (nth_error (audios s) a) as [el|] eqn:Hnth.
  - apply (audioOK_trans _ (pauseAudio a s)); [apply audioOK_pause|].
    unfold pauseAudio. rewrite Hnth.
    apply audioOK_same; [reflexivity | right; reflexivity].
  - apply audioOK_same; [reflexivity | right; reflexivity].
Qed.

Lemma audioOK_handleVoiceActivity (start : Awaited unit) (s : Engine) :
  audioOK s (handleVoiceActivity start s).
Proof.
  unfold handleVoiceActivity.
  set (s1 := match silenceTimer s with
             | Some _ => set_silenceTimer None s
             | None => s
             end).
  assert (H1 : audioOK s s1).
  { unfold s1. destruct (silenceTimer s);
      apply audioOK_same; try reflexivity; left; reflexivity. }
  set (s2 := match currentAudio s1 with
             | Some a => if negb (audioPaused s1 a)
                         then interruptCurrentResponse s1 else s1
             | None => s1
             end).
  assert (H2 : audioOK s1 s2).
  { unfold s2. destruct (currentAudio s1) as [a|]; [|apply audioOK_refl].
    destruct (negb (audioPaused s1 a));
      [apply audioOK_interrupt | apply audioOK_refl]. }
  apply (audioOK_trans _ s2); [apply (audioOK_trans _ s1); assumption|].
  destruct (mediaRecorder s2) as [[| |]|]; [destruct start|..];
    apply audioOK_same; try reflexivity; left; reflexivity.
Qed.

Lemma audioOK_cleanup (s : Engine) : audioOK s (cleanup s).
Proof.
  unfold cleanup.
  set (s1 := match mediaRecorder s with
             | Some recording => emit RecorderStop (set_mediaRecorder (Some inactive) s)
             | _ => s
             end).
  assert (H1 : audioOK s s1).
  { unfold s1. destruct (mediaRecorder s) as [[| |]|];
      apply audioOK_same; try reflexivity; left; reflexivity. }
  set (s2 := match currentAudio s1 with
             | Some a => set_currentAudio None (pauseAudio a s1)
             | None => s1
             end).
  assert (H2 : audioOK s1 s2).
  { unfold s2. destruct (currentAudio s1) as [a|]; [|apply audioOK_refl].
    apply (audioOK_trans _ (pauseAudio a s1)); [apply audioOK_pause|].
    apply audioOK_same; [reflexivity | right; reflexivity]. }
  set (s3 := match silenceTimer s2 with
             | Some _ => set_silenceTimer None s2
             | None => s2
             end).
  assert (H3 : audioOK s2 s3).
  { unfold s3. destruct (silenceTimer s2);
      apply audioOK_same; try reflexivity; left; reflexivity. }
  apply (audioOK_trans _ s3);
    [apply (audioOK_trans _ s2); [apply (audioOK_trans _ s1)|]; assumption|].
  apply audioOK_same; [reflexivity | left; reflexivity].
Qed.

Lemma audioOK_step (s : Engine) (ev : Event) : audioOK s (step s ev).
Proof.
  destruct ev; simpl.
  - unfold elapse, silenceTimeout.
    destruct (silenceTimer s) as [due|];
      [destruct (due <=? clock s + Z.of_nat ms);
       [destruct (mediaRecorder s) as [[| |]|]|]|];
      apply audioOK_same; try reflexivity; left; reflexivity.
  - unfold detectActivity. destruct (negb (analyser s)); [apply audioOK_refl|].
    destruct (rms_gt_interruption dataArray);
      [apply audioOK_handleVoiceActivity|].
    destruct (rms_lt_silence dataArray); [|apply audioOK_refl].
    unfold handleSilence. destruct (silenceTimer s);
      apply audioOK_same; try reflexivity; left; reflexivity.
  - unfold ondataavailable. destruct (0 <? size)%N;
      apply audioOK_same; try reflexivity; left; reflexivity.
  - unfold onstop. destruct (audioChunks s);
      apply audioOK_same; try reflexivity; left; reflexivity.
  - apply audioOK_resume.
  - apply audioOK_resume.
  - apply audioOK_resume.
  - apply audioOK_resume.
  - apply audioOK_ended.
  - unfold audio_onerror.
    eapply audioOK_trans; [|apply audioOK_settlePlayback].
    apply audioOK_same; [reflexivity | right; reflexivity].
  - unfold audio_play_catch.
    eapply audioOK_trans; [|apply audioOK_settlePlayback].
    apply audioOK_same; [reflexivity | right; reflexivity].
  - apply audioOK_interrupt.
  - apply audioOK_cleanup.
Qed.

Lemma audioOK_exec (evs : list Event) (s : Engine) : audioOK s (exec s evs).
Proof.
  revert s. induction evs as [|ev evs IH]; intros s; simpl.
  - apply audioOK_refl.
  - apply (audioOK_trans _ (step s ev)); [apply audioOK_step | apply IH].
Qed.

(** X3.  No event removes an audio element, changes its source or the run that
    awaits it, or plays again one that is paused: a reply that was
    interrupted, cleaned up or has ended is never resumed. *)
Theorem paused_audio_is_never_resumed
  (s : Engine) (evs : list Event) (a : nat) (el : HTMLAudioElement) :
  nth_error (audios s) a = Some el ->
  exists el',
    nth_error (audios (exec s evs)) a = Some el'
    /\ src el' = src el
    /\ awaitedBy el' = awaitedBy el
    /\ (audio_paused el = true -> audio_paused el' = true).
Proof. intros H. exact (proj1 (audioOK_exec evs s) a el H). Qed.

Lemma paused_audio_is_never_resumed_witness :
  exists el',
    nth_error (audios (exec (step speaking InterruptCurrentResponse)
                         (utterance 1700000009000))) 0 = Some el'
    /\ src el' = "blob:reply-0"%string
    /\ awaitedBy el' = 0%nat
    /\ (true = true -> audio_paused el' = true).
Proof.
  apply (paused_audio_is_never_resumed
           (step speaking InterruptCurrentResponse) (utterance 1700000009000) 0
           {| src := "blob:reply-0"; audio_paused := true; awaitedBy := 0 |}).
  vm_compute. reflexivity.
Defined.

(** In every state the engine can reach, the current audio, the one
    [isSpeaking] is read from and interruptions pause, is an element that
    exists. *)
Theorem current_audio_exists (s : Engine) (a : nat) :
  reachable s -> currentAudio s = Some a ->
  exists el, nth_error (audios s) a = Some el.
Proof.
  intros Hreach Hcur.
  assert (Hv : audioValid s).
  { clear Hcur. induction Hreach as [|s ev _ IH].
    - intros b Hb. discriminate.
    - exact (proj2 (audioOK_step s ev) IH). }
  specialize (Hv a Hcur).
  destruct (nth_error (audios s) a) as [el|] eqn:E; [exists el; reflexivity|].
  apply nth_error_None in E. lia.
Qed.

Lemma current_audio_exists_witness :
  exists el, nth_error (audios overlap) 1 = Some el.
Proof.
  apply (current_audio_exists overlap 1).
  - apply reachable_exec, reachable_exec, reachable_exec, reachable_exec.
    constructor.
  - vm_compute. reflexivity.
Defined.

(** ** Chunks and the recorder's stop event *)

Lemma set_audioChunks_eta (s : Engine) : set_audioChunks (audioChunks s) s = s.
Proof. destruct s. reflexivity. Qed.

(** Data events gather the blobs that are not empty, in order, and touch
    nothing else. *)
Lemma exec_dataavailable (sizes : list N) (s : Engine) :
  exec s (List.map DataAvailable sizes)
  = set_audioChunks
      (audioChunks s ++ List.filter (fun size => (0 <? size)%N) sizes) s.
Proof.
  revert s. induction sizes as [|size sizes IH]; intros s; simpl.
  - rewrite app_nil_r. symmetry. apply set_audioChunks_eta.
  - rewrite IH. unfold ondataavailable.
    destruct (0 <? size)%N; simpl; [|reflexivity].
    rewrite <- app_assoc. reflexivity.
Qed.

Lemma filter_empty_blobs (sizes : list N) :
  Forall (fun size => size = 0%N) sizes ->
  List.filter (fun size => (0 <? size)%N) sizes = [].
Proof. intros Hall. induction Hall as [|size rest -> _ IH]; simpl; auto. Qed.

Lemma filter_some_blob (sizes : list N) :
  Exists (fun size => (0 < size)%N) sizes ->
  exists c cs, List.filter (fun size => (0 <? size)%N) sizes = c :: cs.
Proof.
  intros Hex. induction Hex as [size rest Hpos | size rest _ IH]; simpl.
  - apply N.ltb_lt in Hpos. rewrite Hpos. eauto.
  - destruct (0 <? size)%N; [eauto | exact IH].
Qed.

(** X4.  An utterance is handed over once.  Of the data blobs that arrive only
    those that are not empty are gathered; the recorder's stop event starts
    a run exactly when one was gathered, and takes all of them; a stop event
    with nothing gathered, such as a second one in a row, changes
    nothing. *)
Theorem utterance_is_handed_over_once
  (s : Engine) (sizes : list N) (dateNow dateNow' : Z) :
  audioChunks s = [] ->
  let s1 := exec s (List.map DataAvailable sizes ++ [RecorderStopped dateNow]) in
  (Forall (fun size => size = 0%N) sizes -> s1 = s)
  /\ (Exists (fun size => (0 < size)%N) sizes ->
      List.length (runs s1) = S (List.length (runs s))
      /\ stageOf (List.length (runs s)) s1 = Some (ReadingBlob (clock s))
      /\ isProcessing s1 = true
      /\ currentProcessingId s1 = Some (toString dateNow))
  /\ audioChunks s1 = []
  /\ step s1 (RecorderStopped dateNow') = s1.
Proof.
  intros Hempty s1.
  assert (Hs1 : s1 = onstop dateNow
                       (set_audioChunks
                          (List.filter (fun size => (0 <? size)%N) sizes) s)).
  { unfold s1, exec. rewrite fold_left_app. fold (exec s (List.map DataAvailable sizes)).
    rewrite exec_dataavailable, Hempty. reflexivity. }
  pose proof (filter_empty_blobs sizes) as Hnone.
  pose proof (filter_some_blob sizes) as Hsome.
  assert (Hchunks : audioChunks s1 = []).
  { rewrite Hs1. unfold onstop. simpl.
    destruct (List.filter _ sizes) eqn:E; reflexivity. }
  repeat split.
  - intros Hall. rewrite Hs1, (Hnone Hall). unfold onstop. simpl.
    rewrite <- Hempty. apply set_audioChunks_eta.
  - destruct (Hsome H) as (c & cs & E). rewrite Hs1, E. unfold onstop. simpl.
    rewrite length_app. simpl. lia.
  - destruct (Hsome H) as (c & cs & E). rewrite Hs1, E.
    unfold onstop, stageOf. simpl.
    rewrite nth_error_app2 by lia. rewrite Nat.sub_diag. reflexivity.
  - destruct (Hsome H) as (c & cs & E). rewrite Hs1, E. reflexivity.
  - destruct (Hsome H) as (c & cs & E). rewrite Hs1, E. reflexivity.
  - exact Hchunks.
  - simpl. unfold onstop. rewrite Hchunks. reflexivity.
Qed.

Lemma utterance_is_handed_over_once_witness :
  let s := step initialized (AnimationFrame loud (Resolved tt)) in
  let s1 := exec s (List.map DataAvailable [0%N; 1600%N; 0%N; 160%N]
                    ++ [RecorderStopped 1700000000000]) in
  (Forall (fun size => size = 0%N) [0%N; 1600%N; 0%N; 160%N] -> s1 = s)
  /\ (Exists (fun size => (0 < size)%N) [0%N; 1600%N; 0%N; 160%N] ->
      List.length (runs s1) = S (List.length (runs s))
      /\ stageOf (List.length (runs s)) s1 = Some (ReadingBlob (clock s))
      /\ isProcessing s1 = true
      /\ currentProcessingId s1 = Some (toString 1700000000000))
  /\ audioChunks s1 = []
  /\ step s1 (RecorderStopped 1700000009000) = s1.
Proof.
  apply (utterance_is_handed_over_once
           (step initialized (AnimationFrame loud (Resolved tt)))
           [0%N; 1600%N; 0%N; 160%N] 1700000000000 1700000009000).
  reflexivity.
Defined.

(** ** What stops the recorder, and what does not *)


Lemma not_loud_flags (d : Snapshot) :
  bufferLength d = frequencyBinCount -> (rms d <= INTERRUPTION_THRESHOLD)%R ->
  rms_gt_interruption d = false.
Proof.
  intros Hlen Hr. apply frequencyBinCount_pos in Hlen.
  destruct (rms_gt_interruption d) eqn:E; [|reflexivity].
  apply rms_gt_interruption_spec in E; [lra | assumption].
Qed.




(** Once the recorder is inactive, events without a loud frame leave it
    inactive and do not stop it again. *)
Lemma quiet_keeps_inactive (evs : list Event) (s : Engine) :
  analyser s = true -> Forall notLoud evs ->
  mediaRecorder s = Some inactive ->
  mediaRecorder (exec s evs) = Some inactive
  /\ recorderStops (exec s evs) = recorderStops s.
Proof.
  revert s. induction evs as [|ev evs IH]; intros s Ha Hall Hm; simpl.
  - split; [exact Hm | reflexivity].
  - inversion Hall as [|? ? Hev Hrest]; subst.
    assert (Hnext : analyser (step s ev) = true
                    /\ mediaRecorder (step s ev) = Some inactive
                    /\ recorderStops (step s ev) = recorderStops s).
    { pose proof (other_event_loop s ev) as Hother.
      destruct ev; simpl in Hev; try contradiction;
        try (destruct Hother as (_ & _ & M & A & R);
             repeat split; congruence).
      - simpl. unfold elapse, silenceTimeout. rewrite Hm.
        destruct (silenceTimer s) as [due|];
          [destruct (due <=? clock s + Z.of_nat ms)|]; simpl; auto.
      - destruct Hev as [Hlen Hr]. simpl. unfold detectActivity.
        rewrite Ha, (not_loud_flags dataArray Hlen Hr). simpl.
        destruct (rms_lt_silence dataArray); [|auto].
        unfold handleSilence. destruct (silenceTimer s); simpl; auto. }
    destruct Hnext as (Ha' & Hm' & Hr').
    rewrite <- Hr'. apply IH; assumption.
Qed.

(** X6.  An armed silence timer is disarmed only by a frame above the
    interruption threshold (or by [cleanup]): frames in the gap between the
    thresholds do not keep the recording alive.  While the recorder records
    with the timer armed, events without such a frame that last until the
    timer is due end with the recorder stopped, once. *)
Theorem armed_timer_stops_recorder_without_speech
  (evs : list Event) (s : Engine) (due : Z) :
  analyser s = true ->
  mediaRecorder s = Some recording ->
  silenceTimer s = Some due ->
  clock s < due <= clock s + elapsed evs ->
  Forall notLoud evs ->
  mediaRecorder (exec s evs) = Some inactive
  /\ recorderStops (exec s evs) = S (recorderStops s).
Proof.
  revert s. induction evs as [|ev evs IH]; intros s Ha Hm Ht Hdue Hall.
  - simpl in Hdue. lia.
  - inversion Hall as [|? ? Hev Hrest]; subst.
    pose proof (other_event_loop s ev) as Hother.
    destruct ev; simpl in Hev; try contradiction;
      try (destruct Hother as (T & C & M & A & R);
           simpl exec; rewrite <- R;
           apply IH; try congruence;
           rewrite C; simpl in Hdue; exact Hdue).
    + (* Elapse *)
      simpl. unfold elapse. rewrite Ht.
      destruct (due <=? clock s + Z.of_nat ms) eqn:Hfire.
      * assert (Hs : analyser (set_clock (clock s + Z.of_nat ms) (silenceTimeout s)) = true
                     /\ mediaRecorder (set_clock (clock s + Z.of_nat ms) (silenceTimeout s))
                        = Some inactive
                     /\ recorderStops (set_clock (clock s + Z.of_nat ms) (silenceTimeout s))
                        = S (recorderStops s)).
        { unfold silenceTimeout, recorderStops. rewrite Hm. simpl.
          rewrite flat_map_app, length_app. simpl. repeat split; auto. lia. }
        destruct Hs as (Ha' & Hm' & He').
        rewrite <- He'. apply quiet_keeps_inactive; assumption.
      * apply Z.leb_gt in Hfire.
        assert (He : recorderStops s
                     = recorderStops (set_clock (clock s + Z.of_nat ms) s))
          by reflexivity.
        rewrite He.
        apply (IH (set_clock (clock s + Z.of_nat ms) s)); simpl; auto.
        simpl in Hdue. lia.
    + (* AnimationFrame *)
      destruct Hev as [Hlen Hr]. simpl. unfold detectActivity.
      rewrite Ha, (not_loud_flags dataArray Hlen Hr). simpl.
      destruct (rms_lt_silence dataArray); [|apply IH; auto].
      unfold handleSilence. rewrite Ht. apply IH; auto.
Qed.

Lemma armed_timer_stops_recorder_without_speech_witness :
  mediaRecorder
    (exec (exec initialized [AnimationFrame loud (Resolved tt); AnimationFrame quiet (Resolved tt)])
       [AnimationFrame murmur (Resolved tt); Elapse 700; DataAvailable 1600;
        AnimationFrame murmur (Resolved tt); Elapse 800]) = Some inactive
  /\ recorderStops
       (exec (exec initialized [AnimationFrame loud (Resolved tt); AnimationFrame quiet (Resolved tt)])
          [AnimationFrame murmur (Resolved tt); Elapse 700; DataAvailable 1600;
           AnimationFrame murmur (Resolved tt); Elapse 800])
     = S (recorderStops
            (exec initialized [AnimationFrame loud (Resolved tt); AnimationFrame quiet (Resolved tt)])).
Proof.
  apply (armed_timer_stops_recorder_without_speech
           [AnimationFrame murmur (Resolved tt); Elapse 700; DataAvailable 1600;
            AnimationFrame murmur (Resolved tt); Elapse 800]
           (exec initialized [AnimationFrame loud (Resolved tt); AnimationFrame quiet (Resolved tt)])
           1500).
  - reflexivity.
  - reflexivity.
  - reflexivity.
  - vm_compute. split; [reflexivity | discriminate].
  - assert (Hm : bufferLength murmur = frequencyBinCount
                 /\ (rms murmur <= INTERRUPTION_THRESHOLD)%R).
    { split; [reflexivity|].
      rewrite rms_murmur. unfold INTERRUPTION_THRESHOLD. lra. }
    repeat (apply Forall_cons; [first [exact I | exact Hm]|]).
    apply Forall_nil.
Defined.

(** ** Browser checks and [initialize] *)

Lemma find_first {A : Type} (f : A -> bool) (l : list A) (x : A) :
  List.find f l = Some x ->
  exists before after,
    l = before ++ x :: after /\ f x = true
    /\ Forall (fun y => f y = false) before.
Proof.
  induction l as [|y l IH]; simpl; [discriminate|].
  destruct (f y) eqn:E.
  - intros [= ->]. exists [], l. repeat split; [assumption | constructor].
  - intros H. destruct (IH H) as (before & after & -> & Hx & Hb).
    exists (y :: before), after. repeat split; [assumption|].
    constructor; assumption.
Qed.

Lemma mimeTypes_named (format : MimeFormat) :
  In format mimeTypes ->
  String.eqb (mimeType format) "" = false /\ bitrate format = 16000.
Proof.
  simpl. intros [<-|[<-|[<-|[<-|[<-|[<-|[]]]]]]]; split; reflexivity.
Qed.

(** X8.  [getSupportedMimeType] answers with the first format of its list that
    the recorder supports and logs the choice; it answers with the empty
    type, after one warning, exactly when the recorder supports none of the
    list; the bit rate is 16000 in every case. *)
Theorem getSupportedMimeType_first_supported
  (isTypeSupported : string -> bool) (d : Device) :
  let d' := fst (getSupportedMimeType isTypeSupported d) in
  let format := snd (getSupportedMimeType isTypeSupported d) in
  bitrate format = 16000
  /\ (mimeType format = ""%string <->
      forall f, In f mimeTypes -> isTypeSupported (mimeType f) = false)
  /\ (mimeType format <> ""%string ->
      exists before after,
        mimeTypes = before ++ format :: after
        /\ isTypeSupported (mimeType format) = true
        /\ Forall (fun f => isTypeSupported (mimeType f) = false) before)
  /\ (mimeType format = ""%string ->
      warnings d'
      = warnings d ++ ["No preferred MIME type supported, using default"%string]
      /\ dev_engine d' = dev_engine d)
  /\ (mimeType format <> ""%string ->
      warnings d' = warnings d
      /\ dev_engine d'
         = emit (ConsoleLog
                   (String.append "Using supported MIME type: " (mimeType format)))
             (dev_engine d)).
Proof.
  unfold getSupportedMimeType.
  destruct (List.find (fun format => isTypeSupported (mimeType format)) mimeTypes)
    as [format|] eqn:E; cbv zeta; cbn [fst snd].
  - pose proof (find_some _ _ E) as (Hin & Hsup).
    destruct (mimeTypes_named format Hin) as (Hne & Hrate).
    apply String.eqb_neq in Hne.
    split; [exact Hrate|]. split; [|split; [|split]].
    + split; [intros H; contradiction|].
      intros H. rewrite (H format Hin) in Hsup. discriminate.
    + intros _. apply (find_first _ _ _ E).
    + intros H. contradiction.
    + intros _. split; reflexivity.
  - split; [reflexivity|]. split; [|split; [|split]].
    + split; [|reflexivity]. intros _ f Hin. apply (find_none _ _ E f Hin).
    + intros H. exfalso. apply H. reflexivity.
    + intros _. split; reflexivity.
    + intros H. exfalso. apply H. reflexivity.
Qed.

(** X9.  [checkBrowserCompatibility] reports the browser as supported exactly
    when its list of issues is empty, that is when getUserMedia,
    MediaRecorder, one of the two audio contexts and FileReader are there;
    it lists at most four issues; and a browser it reports as supported
    passes [checkMediaRecorderSupport], which then writes nothing. *)
Theorem checkBrowserCompatibility_covers_recorder_check (b : Browser) :
  let c := checkBrowserCompatibility b in
  (supported c = true <-> issues c = [])
  /\ supported c
     = (has_mediaDevices b && has_getUserMedia b && has_MediaRecorder b
        && (has_AudioContext b || has_webkitAudioContext b)
        && has_FileReader b)
  /\ (List.length (issues c) <= 4)%nat
  /\ (forall d, supported c = true -> checkMediaRecorderSupport b d = (d, true)).
Proof.
  destruct b as [[] [] [] [] [] []]; cbn;
    (split; [split; intros H; first [reflexivity | discriminate H]|]);
    (split; [reflexivity|]); (split; [lia|]);
    intros d H; first [reflexivity | discriminate H].
Qed.

Lemma initialize_rejected (p : Platform) (d d' : Device) (e : Error) :
  initialize p d = (d', RejectedWith e) ->
  exists d0,
    d' = cleanupDevice
           (onEngine (emit (ConsoleError "Failed to initialize voice processing:"))
              d0).
Proof.
  unfold initialize. destruct (initialize_try p d) as [d0 [u|error]].
  - discriminate.
  - intros [= <- _]. exists d0. reflexivity.
Qed.

(** X10.  When [initialize] fails, at whichever of its steps, the engine is
    left cleaned up: the stream released, the audio context released or
    closed, no recorder, no analyser, no timer and no current audio; and
    the detection loop is not running: frames and the passing of time
    change nothing but the clock. *)
Theorem failed_initialize_releases_everything
  (p : Platform) (d d' : Device) (e : Error) (evs : list Event) :
  initialize p d = (d', RejectedWith e) ->
  Forall frameOrElapse evs ->
  stream d' = false
  /\ (audioContext d' = None \/ audioContext d' = Some closed)
  /\ mediaRecorder (dev_engine d') = None
  /\ analyser (dev_engine d') = false
  /\ silenceTimer (dev_engine d') = None
  /\ currentAudio (dev_engine d') = None
  /\ isProcessing (dev_engine d') = false
  /\ currentProcessingId (dev_engine d') = None
  /\ exec (dev_engine d') evs
     = set_clock (clock (dev_engine d') + elapsed evs) (dev_engine d').
Proof.
  intros H Hall. destruct (initialize_rejected _ _ _ _ H) as (d0 & ->).
  unfold cleanupDevice; cbn [stream audioContext dev_engine onEngine].
  set (s0 := emit (ConsoleError "Failed to initialize voice processing:")
               (dev_engine d0)).
  destruct (cleanup_fields s0) as (M & A & P & T & I & U & _ & _ & _).
  repeat split; try assumption.
  - destruct (audioContext d0) as [[| |]|]; auto.
  - apply dead_loop; assumption.
Qed.

Lemma failed_initialize_releases_everything_witness :
  stream (fst (initialize oldSafari createdDevice)) = false
  /\ (audioContext (fst (initialize oldSafari createdDevice)) = None
      \/ audioContext (fst (initialize oldSafari createdDevice)) = Some closed)
  /\ mediaRecorder (dev_engine (fst (initialize oldSafari createdDevice))) = None
  /\ analyser (dev_engine (fst (initialize oldSafari createdDevice))) = false
  /\ silenceTimer (dev_engine (fst (initialize oldSafari createdDevice))) = None
  /\ currentAudio (dev_engine (fst (initialize oldSafari createdDevice))) = None
  /\ isProcessing (dev_engine (fst (initialize oldSafari createdDevice))) = false
  /\ currentProcessingId (dev_engine (fst (initialize oldSafari createdDevice)))
     = None
  /\ exec (dev_engine (fst (initialize oldSafari createdDevice)))
       [AnimationFrame loud (Resolved tt); Elapse 2000]
     = set_clock
         (clock (dev_engine (fst (initialize oldSafari createdDevice)))
          + elapsed [AnimationFrame loud (Resolved tt); Elapse 2000])
         (dev_engine (fst (initialize oldSafari createdDevice))).
Proof.
  apply (failed_initialize_releases_everything oldSafari createdDevice
           (fst (initialize oldSafari createdDevice))
           "AudioContext is not defined"%string
           [AnimationFrame loud (Resolved tt); Elapse 2000]).
  - reflexivity.
  - repeat (apply Forall_cons; [exact I|]). apply Forall_nil.
Defined.

(** X11.  A browser that has the prefixed [webkitAudioContext] but no
    [AudioContext] passes the audio-context check of
    [checkBrowserCompatibility]: no issue about the audio context is
    listed, and the browser is reported as supported when nothing else is
    missing.  Yet it cannot be initialized: [initialize] makes its context
    with [AudioContext] and rejects, whatever the rest of the platform
    answers. *)
Theorem prefixed_audio_context_passes_check_but_not_initialize
  (p : Platform) (d : Device) :
  has_AudioContext (browser p) = false ->
  has_webkitAudioContext (browser p) = true ->
  ~ In "AudioContext not supported"%string
      (issues (checkBrowserCompatibility (browser p)))
  /\ supported (checkBrowserCompatibility (browser p))
     = (has_mediaDevices (browser p) && has_getUserMedia (browser p)
        && has_MediaRecorder (browser p) && has_FileReader (browser p))
  /\ exists e, snd (initialize p d) = RejectedWith e.
Proof.
  intros Hno Hwebkit. split; [|split].
  - unfold checkBrowserCompatibility. rewrite Hno, Hwebkit.
    destruct (has_mediaDevices (browser p)), (has_getUserMedia (browser p)),
      (has_MediaRecorder (browser p)), (has_FileReader (browser p)); cbn;
      intros H; repeat (destruct H as [H|H]; [discriminate H|]); exact H.
  - unfold checkBrowserCompatibility. rewrite Hno, Hwebkit.
    destruct (has_mediaDevices (browser p)), (has_getUserMedia (browser p)),
      (has_MediaRecorder (browser p)), (has_FileReader (browser p));
      reflexivity.
  - unfold initialize, initialize_try.
    destruct (checkMediaRecorderSupport (browser p) d) as [d1 [|]]; cbn [negb].
    + destruct (p_getUserMedia p) as [u|error].
      * rewrite Hno. cbn. eexists. reflexivity.
      * cbn. eexists. reflexivity.
    + cbn. eexists. reflexivity.
Qed.

Lemma prefixed_audio_context_passes_check_but_not_initialize_witness :
  ~ In "AudioContext not supported"%string
      (issues (checkBrowserCompatibility (browser oldSafari)))
  /\ supported (checkBrowserCompatibility (browser oldSafari))
     = (has_mediaDevices (browser oldSafari)
        && has_getUserMedia (browser oldSafari)
        && has_MediaRecorder (browser oldSafari)
        && has_FileReader (browser oldSafari))
  /\ exists e, snd (initialize oldSafari createdDevice) = RejectedWith e.
Proof.
  apply (prefixed_audio_context_passes_check_but_not_initialize oldSafari
           createdDevice); reflexivity.
Defined.

Lemma find_mimeTypes_named (isTypeSupported : string -> bool) (format : MimeFormat) :
  List.find (fun f => isTypeSupported (mimeType f)) mimeTypes = Some format ->
  String.eqb (mimeType format) "" = false.
Proof.
  intros E. apply mimeTypes_named. apply (find_some _ _ E).
Qed.

(** X12.  [initialize] is fulfilled exactly when the browser has getUserMedia,
    MediaRecorder and AudioContext, the microphone is granted, the audio
    context is made and (if it starts suspended) resumed, the stream is
    connected to the analyser, and a recorder can be made: either without
    options, or with the first supported format of the list. *)
Theorem initialize_succeeds_iff (p : Platform) (d : Device) :
  snd (initialize p d) = Fulfilled <->
  (has_mediaDevices (browser p) = true /\ has_getUserMedia (browser p) = true
   /\ has_MediaRecorder (browser p) = true
   /\ has_AudioContext (browser p) = true
   /\ p_getUserMedia p = Resolved tt
   /\ (exists state, p_newAudioContext p = Resolved state
                     /\ (state = suspended -> p_resume p = Resolved tt))
   /\ p_connect p = Resolved tt
   /\ (p_newMediaRecorder p None = Resolved tt
       \/ exists format,
            List.find (fun f => p_isTypeSupported p (mimeType f)) mimeTypes
            = Some format
            /\ p_newMediaRecorder p (Some format) = Resolved tt)).
Proof.
  unfold initialize, initialize_try, checkMediaRecorderSupport.
  destruct (has_mediaDevices (browser p)); cbn [negb orb];
    [|split; [discriminate | intros (H & _); discriminate H]].
  destruct (has_getUserMedia (browser p)); cbn [negb orb];
    [|split; [discriminate | intros (_ & H & _); discriminate H]].
  destruct (has_MediaRecorder (browser p)); cbn [negb orb];
    [|split; [discriminate | intros (_ & _ & H & _); discriminate H]].
  destruct (p_getUserMedia p) as [[]|eg];
    [|split; [discriminate | intros (_ & _ & _ & _ & H & _); discriminate H]].
  destruct (has_AudioContext (browser p)); cbn [negb];
    [|split; [discriminate | intros (_ & _ & _ & H & _); discriminate H]].
  destruct (p_newAudioContext p) as [state|ec];
    [|split; [discriminate
             | intros (_ & _ & _ & _ & _ & (st & H & _) & _); discriminate H]].
  assert (Hres :
    forall d1 : Device,
      (snd (let (d2, r) :=
              match p_connect p with
              | Resolved _ =>
                  let (d3, format) :=
                    getSupportedMimeType (p_isTypeSupported p)
                      (onEngine (set_analyser true) d1) in
                  match createMediaRecorder p format d3 with
                  | (d4, Resolved _) =>
                      (onEngine
                         (emit (ConsoleLog
                                  "Voice processing engine initialized successfully"))
                         (onEngine
                            (detectActivity (p_firstFrame p) (p_firstStart p))
                            d4),
                       Resolved tt)
                  | (d4, Rejected error) => (d4, Rejected error)
                  end
              | Rejected error => (onEngine (set_analyser true) d1, Rejected error)
              end in
            match r with
            | Resolved _ => (d2, Fulfilled)
            | Rejected error =>
                (cleanupDevice
                   (onEngine
                      (emit (ConsoleError "Failed to initialize voice processing:"))
                      d2),
                 RejectedWith error)
            end) = Fulfilled)
      <-> (p_connect p = Resolved tt
           /\ (p_newMediaRecorder p None = Resolved tt
               \/ exists format,
                    List.find (fun f => p_isTypeSupported p (mimeType f)) mimeTypes
                    = Some format
                    /\ p_newMediaRecorder p (Some format) = Resolved tt))).
  { intros d1. destruct (p_connect p) as [[]|ek];
      [|split; [discriminate | intros (H & _); discriminate H]].
    unfold getSupportedMimeType.
    destruct (List.find (fun f => p_isTypeSupported p (mimeType f)) mimeTypes)
      as [format|] eqn:Ef.
    - pose proof (find_mimeTypes_named _ _ Ef) as Hne.
      unfold createMediaRecorder. rewrite Hne.
      destruct (p_newMediaRecorder p (Some format)) as [[]|e1] eqn:E1.
      + split; [|reflexivity]. intros _. split; [reflexivity|].
        right. exists format. split; [reflexivity | exact E1].
      + destruct (p_newMediaRecorder p None) as [[]|e0] eqn:E0.
        * split; [|reflexivity]. intros _. split; [reflexivity|]. left. first [reflexivity | exact E0].
        * split; [discriminate|].
          intros (_ & [H|(f & [= <-] & H)]); [discriminate H|congruence].
    - unfold createMediaRecorder. cbn [mimeType String.eqb].
      destruct (p_newMediaRecorder p None) as [[]|e0] eqn:E0.
      + split; [|reflexivity]. intros _. split; [reflexivity|]. left. first [reflexivity | exact E0].
      + split; [discriminate|].
        intros (_ & [H|(f & H & _)]); discriminate H. }
  destruct state.
  - destruct (p_resume p) as [[]|er].
    + rewrite (Hres (set_audioContext (Some running)
                       (set_audioContext (Some suspended) (set_stream true d)))).
      split.
      * intros (Hk & Hr). repeat split; try assumption.
        exists suspended. split; reflexivity.
      * intros (_ & _ & _ & _ & _ & _ & Hk & Hr). split; assumption.
    + split; [discriminate|].
      intros (_ & _ & _ & _ & _ & (st & [= <-] & H) & _).
      specialize (H eq_refl). discriminate H.
  - rewrite (Hres (set_audioContext (Some running) (set_stream true d))).
    split.
    + intros (Hk & Hr). repeat split; try assumption.
      exists running. split; [reflexivity | discriminate].
    + intros (_ & _ & _ & _ & _ & _ & Hk & Hr). split; assumption.
  - rewrite (Hres (set_audioContext (Some closed) (set_stream true d))).
    split.
    + intros (Hk & Hr). repeat split; try assumption.
      exists closed. split; [reflexivity | discriminate].
    + intros (_ & _ & _ & _ & _ & _ & Hk & Hr). split; assumption.
Qed.

Lemma first_frame_fields (dataArray : Snapshot) (start : Awaited unit)
  (es : list Effect) :
  sameFields (detectActivity dataArray start initialized)
    (detectActivity dataArray start
       {| mediaRecorder := Some inactive; analyser := true; isProcessing := false;
          silenceTimer := None; currentProcessingId := None; currentAudio := None;
          audioChunks := []; audios := []; runs := []; clock := 0;
          effects := es |}).
Proof.
  unfold detectActivity, initialized, created. cbn.
  destruct (rms_gt_interruption dataArray);
    [destruct start|destruct (rms_lt_silence dataArray)];
    cbn; repeat split.
Qed.

(** X13.  A fulfilled [initialize] leaves the engine in the state from which
    the event loop starts, after one first frame: the recorder exists, the
    analyser exists, [detectActivity] has run once on what the analyser
    gave, the stream is held and the audio context is not suspended; the
    last thing written is the success message. *)
Theorem initialize_starts_the_loop (p : Platform) (d' : Device) :
  initialize p createdDevice = (d', Fulfilled) ->
  sameFields
    (step initialized (AnimationFrame (p_firstFrame p) (p_firstStart p)))
    (dev_engine d')
  /\ stream d' = true
  /\ (exists state, audioContext d' = Some state /\ state <> suspended)
  /\ exists es,
       effects (dev_engine d')
       = es ++ [ConsoleLog "Voice processing engine initialized successfully"].
Proof.
  unfold initialize, initialize_try, checkMediaRecorderSupport, createdDevice,
    getSupportedMimeType, createMediaRecorder.
  intros H.
  destruct (has_mediaDevices (browser p)); cbn [negb orb] in H;
    [|discriminate H].
  destruct (has_getUserMedia (browser p)); cbn [negb orb] in H;
    [|discriminate H].
  destruct (has_MediaRecorder (browser p)); cbn [negb orb] in H;
    [|discriminate H].
  destruct (p_getUserMedia p) as [[]|eg]; [|discriminate H].
  destruct (has_AudioContext (browser p)); cbn [negb] in H; [|discriminate H].
  destruct (p_newAudioContext p) as [state|ec]; [|discriminate H].
  destruct (p_connect p) as [[]|ek] eqn:Ek.
  2:{ destruct state; [destruct (p_resume p)|..]; cbn in H; discriminate H. }
  destruct (List.find (fun format => p_isTypeSupported p (mimeType format))
              mimeTypes) as [format|] eqn:Ef.
  - pose proof (find_mimeTypes_named _ _ Ef) as Hne. rewrite Hne in H.
    destruct state; [destruct (p_resume p) as [[]|er]|..]; cbn in H;
      try discriminate H;
      (destruct (p_newMediaRecorder p (Some format)) as [[]|e1];
       [|destruct (p_newMediaRecorder p None) as [[]|e0]]; cbn in H;
       try discriminate H);
      injection H as <-; cbn;
      (split; [apply first_frame_fields|]);
      (split; [reflexivity|]);
      (split; [eexists; split; [reflexivity|discriminate]|]);
      eexists; reflexivity.
  - cbn in H.
    destruct state; [destruct (p_resume p) as [[]|er]|..]; cbn in H;
      try discriminate H;
      (destruct (p_newMediaRecorder p None) as [[]|e0]; cbn in H;
       try discriminate H);
      injection H as <-; cbn;
      (split; [apply first_frame_fields|]);
      (split; [reflexivity|]);
      (split; [eexists; split; [reflexivity|discriminate]|]);
      eexists; reflexivity.
Qed.

Lemma initialize_starts_the_loop_witness :
  sameFields
    (step initialized
       (AnimationFrame (p_firstFrame chromium) (p_firstStart chromium)))
    (dev_engine (fst (initialize chromium createdDevice)))
  /\ stream (fst (initialize chromium createdDevice)) = true
  /\ (exists state,
        audioContext (fst (initialize chromium createdDevice)) = Some state
        /\ state <> suspended)
  /\ exists es,
       effects (dev_engine (fst (initialize chromium createdDevice)))
       = es ++ [ConsoleLog "Voice processing engine initialized successfully"].
Proof.
  apply (initialize_starts_the_loop chromium
           (fst (initialize chromium createdDevice))).
  reflexivity.
Defined.

(** * Properties of the agent manager *)

(** ** Maps *)

Lemma map_get_set_eq {V : Type} (key : string) (value : V) (m : StringMap V) :
  map_get key (map_set key value m) = Some value.
Proof.
  induction m as [|[k v] m IH]; simpl.
  - rewrite String.eqb_refl. reflexivity.
  - destruct (String.eqb k key) eqn:E; simpl; rewrite E; auto.
Qed.

Lemma map_get_set_neq {V : Type} (key key' : string) (value : V) (m : StringMap V) :
  key <> key' -> map_get key' (map_set key value m) = map_get key' m.
Proof.
  intros Hne. induction m as [|[k v] m IH]; simpl.
  - apply String.eqb_neq in Hne. rewrite Hne. reflexivity.
  - destruct (String.eqb k key) eqn:E; simpl.
    + apply String.eqb_eq in E. subst k.
      apply String.eqb_neq in Hne. rewrite Hne. reflexivity.
    + destruct (String.eqb k key'); auto.
Qed.

Lemma map_get_delete_eq {V : Type} (key : string) (m : StringMap V) :
  map_get key (map_delete key m) = None.
Proof.
  induction m as [|[k v] m IH]; simpl; [reflexivity|].
  destruct (String.eqb k key) eqn:E; simpl; [assumption|].
  rewrite E. assumption.
Qed.

Lemma map_get_delete_neq {V : Type} (key key' : string) (m : StringMap V) :
  key <> key' -> map_get key' (map_delete key m) = map_get key' m.
Proof.
  intros Hne. induction m as [|[k v] m IH]; simpl; [reflexivity|].
  destruct (String.eqb k key) eqn:E; simpl.
  - apply String.eqb_eq in E. subst k.
    apply String.eqb_neq in Hne. rewrite Hne. assumption.
  - rewrite IH. reflexivity.
Qed.

Lemma map_delete_fresh {V : Type} (key : string) (m : StringMap V) :
  map_get key m = None -> map_delete key m = m.
Proof.
  induction m as [|[k v] m IH]; simpl; [reflexivity|].
  destruct (String.eqb k key) eqn:E; [discriminate|].
  intros H. simpl. rewrite IH by assumption. reflexivity.
Qed.

Lemma map_delete_set_fresh {V : Type} (key : string) (value : V) (m : StringMap V) :
  map_get key m = None -> map_delete key (map_set key value m) = m.
Proof.
  induction m as [|[k v] m IH]; simpl.
  - intros _. rewrite String.eqb_refl. reflexivity.
  - destruct (String.eqb k key) eqn:E; [discriminate|].
    intros H. simpl. rewrite E. simpl. rewrite IH by assumption. reflexivity.
Qed.

Lemma nth_error_replaceAt {A : Type} (l : list A) (i j : nat) (x : A) :
  nth_error (replaceAt i x l) j
  = if Nat.eqb i j then option_map (fun _ => x) (nth_error l j)
    else nth_error l j.
Proof.
  revert i j. induction l as [|y l IH]; intros i j; simpl.
  - destruct i, j; simpl; try reflexivity;
      destruct (Nat.eqb i j); destruct j; reflexivity.
  - destruct i, j; simpl; try reflexivity. apply IH.
Qed.

Lemma Forall_replaceAt {A : Type} (P : A -> Prop) (l : list A) (i : nat) (x : A) :
  Forall P l -> P x -> Forall P (replaceAt i x l).
Proof.
  intros Hl Hx. revert i. induction Hl as [|y l Hy Hl IH]; intros i; simpl.
  - destruct i; constructor.
  - destruct i; constructor; auto.
Qed.

(** ** The invariant of the manager *)

Lemma routeCall_fields (toLowerCase : JSString -> JSString)
  (customerId initialMessage : string)
  (generated : Awaited JSString) (extracted : Awaited Entities)
  (m : AgentManager) :
  agents m = agents newAgentManager ->
  let intent := intentOf toLowerCase generated in
  let context :=
    {| customerId := customerId; intent := intent;
       entities := entitiesOf extracted;
       conversationHistory := [initialMessage];
       currentAgent := agent_id (agentFor intent);
       transferReason := None |} in
  let m' := fst (routeCall toLowerCase customerId initialMessage generated
                   extracted m) in
  snd (routeCall toLowerCase customerId initialMessage generated extracted m)
  = Resolved (agentFor intent)
  /\ agents m' = agents m
  /\ contextObjects m' = contextObjects m ++ [context]
  /\ activeContexts m'
     = map_set customerId (List.length (contextObjects m)) (activeContexts m)
  /\ turns m' = turns m.
Proof.
  intros Hag. unfold routeCall, detectIntent, extractEntities, agentFor, intentOf,
    entitiesOf.
  destruct generated as [text|e], extracted as [object|e']; cbn -[includes js];
    rewrite Hag;
    match goal with
    | |- context [if ?c then _ else _] => destruct c
    end; cbn -[includes js]; rewrite ?Hag; repeat split; reflexivity.
Qed.

Lemma agent_found (m : AgentManager) (context : ConversationContext) :
  agents m = agents newAgentManager -> namesAgent context ->
  exists agent,
    map_get (currentAgent context) (agents m) = Some agent
    /\ agent_id agent = currentAgent context
    /\ (agent = bookingAgent \/ agent = consultationAgent).
Proof.
  intros -> [H|H]; rewrite H.
  - exists bookingAgent. repeat split; auto.
  - exists consultationAgent. repeat split; auto.
Qed.

Lemma turnOK_store (m m' : AgentManager) (stage : TurnStage) :
  (List.length (contextObjects m) <= List.length (contextObjects m'))%nat ->
  turnOK m stage -> turnOK m' stage.
Proof.
  intros Hlen (Hc & He). split; [|exact He].
  intros context H. specialize (Hc context H). lia.
Qed.

Lemma turnsOK_store (m m' : AgentManager) (l : list TurnStage) :
  (List.length (contextObjects m) <= List.length (contextObjects m'))%nat ->
  Forall (turnOK m) l -> Forall (turnOK m') l.
Proof.
  intros Hlen H. eapply Forall_impl; [|exact H].
  intros stage. apply turnOK_store. exact Hlen.
Qed.

Lemma active_store_update (objects : list ConversationContext)
  (active : StringMap nat) (ref : nat) (object object' : ConversationContext) :
  nth_error objects ref = Some object ->
  customerId object' = customerId object ->
  (forall key r, map_get key active = Some r ->
     exists context, nth_error objects r = Some context
                     /\ customerId context = key) ->
  forall key r, map_get key active = Some r ->
    exists context, nth_error (replaceAt ref object' objects) r = Some context
                    /\ customerId context = key.
Proof.
  intros Hnth Hcid H key r Hget.
  destruct (H key r Hget) as (context & Hr & Hkey).
  rewrite nth_error_replaceAt. destruct (Nat.eqb ref r) eqn:E.
  - apply Nat.eqb_eq in E. subst r. rewrite Hr. simpl.
    exists object'. split; [reflexivity|]. congruence.
  - exists context. split; assumption.
Qed.

Lemma managerOK_new : managerOK newAgentManager.
Proof.
  repeat split; simpl; try constructor; intros; discriminate.
Qed.

Lemma managerOK_routeCall (toLowerCase : JSString -> JSString)
  (customerId initialMessage : string)
  (generated : Awaited JSString) (extracted : Awaited Entities)
  (m : AgentManager) :
  managerOK m ->
  managerOK (fst (routeCall toLowerCase customerId initialMessage generated
                    extracted m)).
Proof.
  intros (Hag & Hact & Hobj & Hturns).
  destruct (routeCall_fields toLowerCase customerId initialMessage generated
              extracted m Hag) as (_ & Ha & Ho & Hc & Ht).
  set (m' := fst (routeCall toLowerCase customerId initialMessage generated
                    extracted m)) in *.
  split; [congruence|]. split; [|split].
  - intros key ref. rewrite Hc, Ho.
    destruct (String.eqb customerId key) eqn:E.
    + apply String.eqb_eq in E. subst key. rewrite map_get_set_eq.
      intros [= <-]. eexists. split.
      * rewrite nth_error_app2 by lia. rewrite Nat.sub_diag. reflexivity.
      * reflexivity.
    + apply String.eqb_neq in E. rewrite map_get_set_neq by assumption.
      intros H. destruct (Hact key ref H) as (context & Hn & Hk).
      exists context. split; [|assumption].
      rewrite nth_error_app1; [assumption|].
      apply nth_error_Some. congruence.
  - rewrite Ho. apply Forall_app. split; [assumption|].
    constructor; [|constructor]. unfold namesAgent, agentFor. simpl.
    match goal with |- context [if ?c then _ else _] => destruct c end; auto.
  - rewrite Ht. apply (turnsOK_store m); [|assumption].
    rewrite Ho, length_app. lia.
Qed.

Lemma activeContext_Some (m : AgentManager) (customerId : string)
  (ref : nat) (context : ConversationContext) :
  activeContext customerId m = Some (ref, context) ->
  map_get customerId (activeContexts m) = Some ref
  /\ nth_error (contextObjects m) ref = Some context.
Proof.
  unfold activeContext.
  destruct (map_get customerId (activeContexts m)) as [r|]; [|discriminate].
  destruct (nth_error (contextObjects m) r) as [c|] eqn:E; [|discriminate].
  intros [= <- <-]. split; [reflexivity | assumption].
Qed.

Lemma managerOK_processMessage (customerId message : string) (m : AgentManager) :
  managerOK m -> managerOK (processMessage customerId message m).
Proof.
  intros (Hag & Hact & Hobj & Hturns). unfold processMessage.
  destruct (activeContext customerId m) as [[ref context]|] eqn:Ea.
  - destruct (activeContext_Some _ _ _ _ Ea) as (Hget & Hnth).
    assert (Hn : namesAgent context).
    { rewrite Forall_forall in Hobj. apply Hobj.
      eapply nth_error_In. exact Hnth. }
    destruct (agent_found m context Hag Hn) as (agent & -> & _).
    repeat split; simpl.
    + assumption.
    + apply (active_store_update _ _ _ context); auto.
    + apply Forall_replaceAt; assumption.
    + apply Forall_app. split.
      * eapply turnsOK_store; [|exact Hturns]. simpl.
        rewrite length_replaceAt. lia.
      * constructor; [|constructor]. split; simpl.
        -- intros c [= <-]. rewrite length_replaceAt.
           apply nth_error_Some. congruence.
        -- intros e H. discriminate H.
  - repeat split; simpl; try assumption.
    apply Forall_app. split; [assumption|].
    constructor; [|constructor]. split; simpl.
    + intros c H. discriminate H.
    + intros e [= <-]. reflexivity.
Qed.

Lemma managerOK_endCall (customerId : string) (m : AgentManager) :
  managerOK m -> managerOK (endCall customerId m).
Proof.
  intros (Hag & Hact & Hobj & Hturns).
  repeat split; simpl; try assumption.
  intros key ref H.
  destruct (String.eqb customerId key) eqn:E.
  - apply String.eqb_eq in E. subst key.
    rewrite map_get_delete_eq in H. discriminate.
  - apply String.eqb_neq in E. rewrite map_get_delete_neq in H by assumption.
    apply Hact. assumption.
Qed.

Lemma replaceAt_replaceAt {A : Type} (l : list A) (i : nat) (x y : A) :
  replaceAt i y (replaceAt i x l) = replaceAt i y l.
Proof.
  revert i. induction l as [|z l IH]; intros i; simpl.
  - destruct i; reflexivity.
  - destruct i; simpl; [reflexivity | rewrite IH; reflexivity].
Qed.

Lemma transferCall_fields (toUpperCase : string -> string)
  (customerId : string) (targetAgentType : AgentType) (reason : string)
  (m : AgentManager) (ref : nat) (context : ConversationContext) :
  agents m = agents newAgentManager ->
  activeContext customerId m = Some (ref, context) ->
  let agent := agentOfType targetAgentType in
  let context' :=
    set_conversationHistory
      (conversationHistory context
       ++ [("[TRANSFERRED TO " ++ toUpperCase (agent_name agent) ++ "]")%string])
      (set_transferReason (Some reason)
         (set_currentAgent (agent_id agent) context)) in
  let m' := fst (transferCall toUpperCase customerId targetAgentType reason m) in
  snd (transferCall toUpperCase customerId targetAgentType reason m)
  = Resolved agent
  /\ agents m' = agents m
  /\ contextObjects m' = replaceAt ref context' (contextObjects m)
  /\ activeContexts m' = activeContexts m
  /\ turns m' = turns m.
Proof.
  intros Hag Ea. unfold transferCall. rewrite Ea.
  cbn [agents set_contextObjects]. rewrite Hag.
  destruct targetAgentType; cbn -[String.append];
    rewrite replaceAt_replaceAt, ?Hag; repeat split; reflexivity.
Qed.

Lemma managerOK_transferCall (toUpperCase : string -> string)
  (customerId : string) (targetAgentType : AgentType) (reason : string)
  (m : AgentManager) :
  managerOK m ->
  managerOK (fst (transferCall toUpperCase customerId targetAgentType reason m)).
Proof.
  intros (Hag & Hact & Hobj & Hturns).
  destruct (activeContext customerId m) as [[ref context]|] eqn:Ea.
  - destruct (activeContext_Some _ _ _ _ Ea) as (Hget & Hnth).
    destruct (transferCall_fields toUpperCase customerId targetAgentType reason
                m ref context Hag Ea) as (_ & Ha & Ho & Hc & Ht).
    set (m' := fst (transferCall toUpperCase customerId targetAgentType reason m))
      in *.
    split; [congruence|]. split; [|split].
    + rewrite Hc, Ho. apply (active_store_update _ _ _ context);
        [assumption | reflexivity | assumption].
    + rewrite Ho. apply Forall_replaceAt; [assumption|].
      unfold namesAgent. destruct targetAgentType; simpl; auto.
    + rewrite Ht. eapply turnsOK_store; [|exact Hturns].
      rewrite Ho, length_replaceAt. lia.
  - unfold transferCall. rewrite Ea. repeat split; assumption.
Qed.

Lemma managerOK_write (e : ManagerEffect) (m : AgentManager) :
  managerOK m -> managerOK (write e m).
Proof. intros H. exact H. Qed.

Lemma managerOK_store_update (m : AgentManager) (ref : nat)
  (object object' : ConversationContext) :
  managerOK m ->
  nth_error (contextObjects m) ref = Some object ->
  customerId object' = customerId object ->
  namesAgent object' ->
  managerOK (set_contextObjects (replaceAt ref object' (contextObjects m)) m).
Proof.
  intros (Hag & Hact & Hobj & Hturns) Hnth Hcid Hn.
  split; [assumption|]. split; [|split]; simpl.
  - apply (active_store_update _ _ _ object); assumption.
  - apply Forall_replaceAt; assumption.
  - eapply turnsOK_store; [|exact Hturns]. simpl. rewrite length_replaceAt. lia.
Qed.

Lemma managerOK_next (m : AgentManager) (turn : nat) (stage : TurnStage) :
  managerOK m -> turnOK m stage ->
  managerOK (set_turns (replaceAt turn stage (turns m)) m).
Proof.
  intros (Hag & Hact & Hobj & Hturns) Hst.
  split; [assumption|]. split; [assumption|]. split; [assumption|]. simpl.
  apply Forall_replaceAt; assumption.
Qed.

Lemma turnOK_holds (m : AgentManager) (context : nat) (stage : TurnStage) :
  (context < List.length (contextObjects m))%nat ->
  stageContext stage = Some context ->
  turnOK m stage.
Proof.
  intros Hlt Hc. split.
  - intros c H. congruence.
  - intros e ->. discriminate Hc.
Qed.

Lemma turnOK_resolved (m : AgentManager) (response : string) :
  turnOK m (TurnSettled (Resolved response)).
Proof. split; intros ? H; discriminate H. Qed.

Lemma managerOK_handleTaskCompletion (context : nat) (response : string)
  (m : AgentManager) :
  managerOK m ->
  (context < List.length (contextObjects m))%nat ->
  managerOK (fst (handleTaskCompletion context response m))
  /\ turnOK (fst (handleTaskCompletion context response m))
       (snd (handleTaskCompletion context response m)).
Proof.
  intros Hok Hlt. unfold handleTaskCompletion.
  destruct (nth_error (contextObjects m) context) as [object|] eqn:Hnth.
  2:{ split; [assumption | apply turnOK_resolved]. }
  assert (Hn : namesAgent object).
  { destruct Hok as (_ & _ & Hobj & _). rewrite Forall_forall in Hobj.
    apply Hobj. eapply nth_error_In. exact Hnth. }
  destruct (agent_found m object (proj1 Hok) Hn) as (agent & -> & _).
  destruct (agent_type agent).
  - destruct (appointmentOf object) as [data|]; simpl.
    + split; [assumption|]. apply (turnOK_holds _ context); simpl; auto.
    + split; [assumption | apply turnOK_resolved].
  - destruct (consultationOf object) as [data|]; simpl.
    + split; [assumption|]. apply (turnOK_holds _ context); simpl; auto.
    + split; [assumption | apply turnOK_resolved].
Qed.

Lemma managerOK_resumeTurn (turn : nat) (how : TurnResumption) (m : AgentManager) :
  managerOK m -> managerOK (resumeTurn turn how m).
Proof.
  intros Hok. unfold resumeTurn.
  destruct (nth_error (turns m) turn) as [stage|] eqn:Et; [|assumption].
  assert (Hst : turnOK m stage).
  { destruct Hok as (_ & _ & _ & Hturns). rewrite Forall_forall in Hturns.
    apply Hturns. eapply nth_error_In. exact Et. }
  destruct stage, how; try assumption; cbv zeta.
  - (* the response *)
    assert (Hlt : (context < List.length (contextObjects m))%nat)
      by (apply (proj1 Hst); reflexivity).
    destruct res as [text|e]; cbn [fst snd];
      apply managerOK_next; try assumption;
      apply (turnOK_holds _ context); simpl; auto.
  - (* the entities *)
    assert (Hlt : (context < List.length (contextObjects m))%nat)
      by (apply (proj1 Hst); reflexivity).
    destruct (nth_error (contextObjects m) context) as [object|] eqn:Hnth;
      [|apply nth_error_None in Hnth; lia].
    assert (Hn : namesAgent object).
    { destruct Hok as (_ & _ & Hobj & _). rewrite Forall_forall in Hobj.
      apply Hobj. eapply nth_error_In. exact Hnth. }
    unfold extractEntities.
    destruct res as [object'|e]; cbn [contextObjects write]; rewrite Hnth.
    + match goal with
      | |- managerOK (set_turns (replaceAt _ (snd (handleTaskCompletion _ _ ?m1))
                                   _) _) =>
          destruct (managerOK_handleTaskCompletion context response m1)
            as (H1 & H2)
      end.
      * apply (managerOK_store_update m context object); auto.
      * simpl. rewrite length_replaceAt. assumption.
      * apply managerOK_next; assumption.
    + match goal with
      | |- managerOK (set_turns (replaceAt _ (snd (handleTaskCompletion _ _ ?m1))
                                   _) _) =>
          destruct (managerOK_handleTaskCompletion context response m1)
            as (H1 & H2)
      end.
      * apply (managerOK_store_update
                 (write (LogError "Entity extraction failed:") m) context object);
          auto.
      * simpl. rewrite length_replaceAt. assumption.
      * apply managerOK_next; assumption.
  - apply managerOK_next; [assumption|].
    apply (turnOK_holds _ context); [apply (proj1 Hst)|]; reflexivity.
  - destruct res; cbn [fst snd]; apply managerOK_next; try assumption;
      apply turnOK_resolved.
  - apply managerOK_next; [assumption|].
    apply (turnOK_holds _ context); [apply (proj1 Hst)|]; reflexivity.
  - destruct res; cbn [fst snd]; apply managerOK_next; try assumption;
      apply turnOK_resolved.
Qed.

Lemma managed_ok (toLowerCase : JSString -> JSString)
  (toUpperCase : string -> string) (m : AgentManager) :
  managed toLowerCase toUpperCase m -> managerOK m.
Proof.
  induction 1 as [|m ev _ IH]; [apply managerOK_new|].
  destruct ev; simpl.
  - apply managerOK_routeCall; assumption.
  - apply managerOK_processMessage; assumption.
  - apply managerOK_resumeTurn; assumption.
  - apply managerOK_transferCall; assumption.
  - apply managerOK_endCall; assumption.
Qed.

Lemma managerOK_distinct (m : AgentManager) (key key' : string) (ref : nat) :
  managerOK m ->
  map_get key (activeContexts m) = Some ref ->
  map_get key' (activeContexts m) = Some ref ->
  key = key'.
Proof.
  intros (_ & Hact & _ & _) H H'.
  destruct (Hact key ref H) as (c & Hc & Hk).
  destruct (Hact key' ref H') as (c' & Hc' & Hk').
  congruence.
Qed.

Lemma getConversationContext_None (m : AgentManager) (key : string) :
  managerOK m ->
  getConversationContext key m = None ->
  map_get key (activeContexts m) = None.
Proof.
  intros (_ & Hact & _ & _). unfold getConversationContext, activeContext.
  destruct (map_get key (activeContexts m)) as [ref|] eqn:E; [|reflexivity].
  destruct (Hact key ref E) as (c & -> & _). discriminate.
Qed.

Lemma getConversationContext_Some (m : AgentManager) (key : string)
  (context : ConversationContext) :
  getConversationContext key m = Some context ->
  exists ref, activeContext key m = Some (ref, context).
Proof.
  unfold getConversationContext.
  destruct (activeContext key m) as [[ref c]|]; [|discriminate].
  intros [= <-]. exists ref. reflexivity.
Qed.

(** Two managers with the same map and stores that agree on the objects
    the map names give the same contexts. *)
Lemma getConversationContext_agree (m m' : AgentManager) (key : string) :
  map_get key (activeContexts m') = map_get key (activeContexts m) ->
  (forall ref, map_get key (activeContexts m) = Some ref ->
     nth_error (contextObjects m') ref = nth_error (contextObjects m) ref) ->
  getConversationContext key m' = getConversationContext key m.
Proof.
  intros Hget Hobj. unfold getConversationContext, activeContext.
  rewrite Hget. destruct (map_get key (activeContexts m)) as [ref|];
    [|reflexivity].
  rewrite (Hobj ref eq_refl). reflexivity.
Qed.

(** X14.  In every state of a manager, the two agents are there and active;
    the context kept for a customer carries that customer's id and names an
    agent that exists; and a call of [processMessage] is rejected only
    because its customer had no context: 'Agent not found' is never
    thrown, and no request that fails makes a turn fail. *)
Theorem turns_reject_only_without_context
  (toLowerCase : JSString -> JSString) (toUpperCase : string -> string)
  (m : AgentManager) :
  managed toLowerCase toUpperCase m ->
  getActiveAgents m = [bookingAgent; consultationAgent]
  /\ (forall key context,
        getConversationContext key m = Some context ->
        customerId context = key
        /\ exists agent,
             map_get (currentAgent context) (agents m) = Some agent
             /\ agent_id agent = currentAgent context)
  /\ (forall turn e,
        turnStage m turn = Some (TurnSettled (Rejected e)) ->
        e = "No active context for customer"%string).
Proof.
  intros Hm. pose proof (managed_ok _ _ _ Hm) as Hok.
  destruct Hok as (Hag & Hact & Hobj & Hturns).
  split; [|split].
  - unfold getActiveAgents. rewrite Hag. reflexivity.
  - intros key context H.
    destruct (getConversationContext_Some _ _ _ H) as (ref & Ha).
    destruct (activeContext_Some _ _ _ _ Ha) as (Hget & Hnth).
    destruct (Hact key ref Hget) as (c & Hc & Hk).
    assert (c = context) by congruence. subst c.
    split; [assumption|].
    assert (Hn : namesAgent context).
    { rewrite Forall_forall in Hobj. apply Hobj.
      eapply nth_error_In. exact Hnth. }
    destruct (agent_found m context Hag Hn) as (agent & H1 & H2 & _).
    exists agent. split; assumption.
  - intros turn e H. unfold turnStage in H.
    rewrite Forall_forall in Hturns.
    apply (proj2 (Hturns _ (nth_error_In _ _ H))). reflexivity.
Qed.

(** X15.  [routeCall] is fulfilled with one of the two agents: the booking
    agent exactly when the intent contains appointment, booking or schedule,
    and the consultation agent when the intent could not be detected.  It
    gives the customer a new context, with the agent's id and the first
    message alone in the history, replacing whatever context the customer
    had; the contexts of other customers stay. *)
Theorem routeCall_routes_by_intent
  (toLowerCase : JSString -> JSString) (toUpperCase : string -> string)
  (customerId initialMessage : string)
  (generated : Awaited JSString) (extracted : Awaited Entities)
  (m : AgentManager) :
  managed toLowerCase toUpperCase m ->
  let intent := snd (detectIntent toLowerCase generated m) in
  let result :=
    routeCall toLowerCase customerId initialMessage generated extracted m in
  exists agent,
    snd result = Resolved agent
    /\ (agent = bookingAgent \/ agent = consultationAgent)
    /\ (agent = bookingAgent <->
        includes intent (js "appointment") = true
        \/ includes intent (js "booking") = true
        \/ includes intent (js "schedule") = true)
    /\ (forall e, generated = Rejected e -> agent = consultationAgent)
    /\ getConversationContext customerId (fst result)
       = Some {| customerId := customerId; intent := intent;
                 entities := snd (extractEntities extracted m);
                 conversationHistory := [initialMessage];
                 currentAgent := agent_id agent;
                 transferReason := None |}
    /\ (forall other, other <> customerId ->
          getConversationContext other (fst result)
          = getConversationContext other m).
Proof.
  intros Hm intent result. pose proof (managed_ok _ _ _ Hm) as Hok.
  destruct (routeCall_fields toLowerCase customerId initialMessage generated
              extracted m (proj1 Hok)) as (Hr & Ha & Ho & Hc & Ht).
  fold result in Hr, Ha, Ho, Hc, Ht.
  assert (Hi : intentOf toLowerCase generated = intent)
    by (unfold intent; destruct generated; reflexivity).
  assert (He : entitiesOf extracted = snd (extractEntities extracted m))
    by (destruct extracted; reflexivity).
  rewrite Hi in Hr, Ho. rewrite He in Ho.
  exists (agentFor intent). split; [exact Hr|]. split; [|split; [|split; [|split]]].
  - unfold agentFor.
    destruct (includes intent (js "appointment") || includes intent (js "booking")
              || includes intent (js "schedule")); auto.
  - unfold agentFor.
    destruct (includes intent (js "appointment"));
      destruct (includes intent (js "booking"));
      destruct (includes intent (js "schedule")); cbn [orb];
      (split; [intros H; first [discriminate H | auto] | ]);
      first [reflexivity | intros [H|[H|H]]; discriminate H].
  - intros e ->. reflexivity.
  - unfold getConversationContext, activeContext.
    rewrite Hc, Ho, map_get_set_eq.
    rewrite nth_error_app2 by lia. rewrite Nat.sub_diag. reflexivity.
  - intros other Hne. apply getConversationContext_agree.
    + rewrite Hc. apply map_get_set_neq. congruence.
    + intros ref Hget. rewrite Ho.
      destruct Hok as (_ & Hact & _ & _).
      destruct (Hact other ref Hget) as (c & Hn & _).
      apply nth_error_app1. apply nth_error_Some. congruence.
Qed.

Lemma managed_conduct (toLowerCase : JSString -> JSString)
  (toUpperCase : string -> string) (evs : list ManagerEvent) (m : AgentManager) :
  managed toLowerCase toUpperCase m ->
  managed toLowerCase toUpperCase (conduct toLowerCase toUpperCase m evs).
Proof.
  revert m. induction evs as [|ev evs IH]; intros m Hm; simpl; [assumption|].
  apply IH. constructor. assumption.
Qed.

Lemma turns_reject_only_without_context_witness :
  getActiveAgents booked = [bookingAgent; consultationAgent]
  /\ (forall key context,
        getConversationContext key booked = Some context ->
        customerId context = key
        /\ exists agent,
             map_get (currentAgent context) (agents booked) = Some agent
             /\ agent_id agent = currentAgent context)
  /\ (forall turn e,
        turnStage booked turn = Some (TurnSettled (Rejected e)) ->
        e = "No active context for customer"%string).
Proof.
  apply (turns_reject_only_without_context asciiLower asciiUpper booked).
  apply managed_conduct, managed_conduct, managed_new.
Defined.

Lemma routeCall_routes_by_intent_witness :
  exists agent,
    snd (routeCall asciiLower "customer-7" "I want to schedule a visit"
           (Resolved (js "Appointment_Booking")) (Rejected "timeout"%string)
           routed)
    = Resolved agent
    /\ (agent = bookingAgent \/ agent = consultationAgent)
    /\ (agent = bookingAgent <->
        includes
          (snd (detectIntent asciiLower (Resolved (js "Appointment_Booking"))
                  routed))
          (js "appointment") = true
        \/ includes
             (snd (detectIntent asciiLower (Resolved (js "Appointment_Booking"))
                     routed))
             (js "booking") = true
        \/ includes
             (snd (detectIntent asciiLower (Resolved (js "Appointment_Booking"))
                     routed))
             (js "schedule") = true)
    /\ (forall e,
          Resolved (js "Appointment_Booking") = Rejected e ->
          agent = consultationAgent)
    /\ getConversationContext "customer-7"
         (fst (routeCall asciiLower "customer-7" "I want to schedule a visit"
                 (Resolved (js "Appointment_Booking"))
                 (Rejected "timeout"%string) routed))
       = Some {| customerId := "customer-7";
                 intent :=
                   snd (detectIntent asciiLower
                          (Resolved (js "Appointment_Booking")) routed);
                 entities :=
                   snd (extractEntities (Rejected "timeout"%string) routed);
                 conversationHistory := ["I want to schedule a visit"%string];
                 currentAgent := agent_id agent;
                 transferReason := None |}
    /\ (forall other, other <> "customer-7"%string ->
          getConversationContext other
            (fst (routeCall asciiLower "customer-7" "I want to schedule a visit"
                    (Resolved (js "Appointment_Booking"))
                    (Rejected "timeout"%string) routed))
          = getConversationContext other routed).
Proof.
  apply (routeCall_routes_by_intent asciiLower asciiUpper "customer-7"
           "I want to schedule a visit" (Resolved (js "Appointment_Booking"))
           (Rejected "timeout"%string) routed).
  apply managed_conduct, managed_new.
Defined.

(** X16.  [transferCall] is rejected, and changes nothing, when the customer
    has no context.  Otherwise it is fulfilled with the agent of the type
    asked for, and the customer's context names that agent, carries the
    reason, and has one more entry in its history, the transfer mark; the
    intent and the entities stay, and so do the contexts of the other
    customers. *)
Theorem transferCall_moves_only_its_customer
  (toLowerCase : JSString -> JSString) (toUpperCase : string -> string)
  (customer : string) (targetAgentType : AgentType) (reason : string)
  (m : AgentManager) :
  managed toLowerCase toUpperCase m ->
  let result := transferCall toUpperCase customer targetAgentType reason m in
  match getConversationContext customer m with
  | None => result = (m, Rejected "No active context for customer"%string)
  | Some context =>
      exists agent,
        snd result = Resolved agent
        /\ agent_type agent = targetAgentType
        /\ map_get (agent_id agent) (agents m) = Some agent
        /\ getConversationContext customer (fst result)
           = Some {| customerId := customer;
                     intent := intent context;
                     entities := entities context;
                     conversationHistory :=
                       conversationHistory context
                       ++ [("[TRANSFERRED TO " ++ toUpperCase (agent_name agent)
                            ++ "]")%string];
                     currentAgent := agent_id agent;
                     transferReason := Some reason |}
  end
  /\ (forall other, other <> customer ->
        getConversationContext other (fst result)
        = getConversationContext other m).
Proof.
  intros Hm result. pose proof (managed_ok _ _ _ Hm) as Hok.
  destruct (getConversationContext customer m) as [context|] eqn:Eg.
  - destruct (getConversationContext_Some _ _ _ Eg) as (ref & Ea).
    destruct (activeContext_Some _ _ _ _ Ea) as (Hget & Hnth).
    destruct (transferCall_fields toUpperCase customer targetAgentType reason
                m ref context (proj1 Hok) Ea) as (Hr & Ha & Ho & Hc & Ht).
    fold result in Hr, Ha, Ho, Hc, Ht.
    assert (Hcid : customerId context = customer).
    { destruct Hok as (_ & Hact & _ & _).
      destruct (Hact customer ref Hget) as (c & Hn & Hk). congruence. }
    split.
    + exists (agentOfType targetAgentType). split; [exact Hr|].
      split; [destruct targetAgentType; reflexivity|].
      split; [rewrite (proj1 Hok); destruct targetAgentType; reflexivity|].
      unfold getConversationContext, activeContext.
      rewrite Hc, Hget, Ho, nth_error_replaceAt, Nat.eqb_refl, Hnth.
      cbn -[String.append]. rewrite <- Hcid. reflexivity.
    + intros other Hne. apply getConversationContext_agree.
      * rewrite Hc. reflexivity.
      * intros r Hr'. rewrite Ho, nth_error_replaceAt.
        destruct (Nat.eqb ref r) eqn:E; [|reflexivity].
        apply Nat.eqb_eq in E. subst r. exfalso. apply Hne.
        apply (managerOK_distinct m other customer ref Hok Hr' Hget).
  - unfold getConversationContext in Eg.
    assert (Ea : activeContext customer m = None)
      by (destruct (activeContext customer m); [discriminate | reflexivity]).
    unfold result, transferCall. rewrite Ea. split; [reflexivity|].
    intros other _. reflexivity.
Qed.

Lemma transferCall_moves_only_its_customer_witness :
  match getConversationContext "customer-42" routed with
  | None =>
      transferCall asciiUpper "customer-42" consultation "asked for advice" routed
      = (routed, Rejected "No active context for customer"%string)
  | Some context =>
      exists agent,
        snd (transferCall asciiUpper "customer-42" consultation
               "asked for advice" routed)
        = Resolved agent
        /\ agent_type agent = consultation
        /\ map_get (agent_id agent) (agents routed) = Some agent
        /\ getConversationContext "customer-42"
             (fst (transferCall asciiUpper "customer-42" consultation
                     "asked for advice" routed))
           = Some {| customerId := "customer-42";
                     intent := intent context;
                     entities := entities context;
                     conversationHistory :=
                       conversationHistory context
                       ++ [("[TRANSFERRED TO " ++ asciiUpper (agent_name agent)
                            ++ "]")%string];
                     currentAgent := agent_id agent;
                     transferReason := Some "asked for advice"%string |}
  end
  /\ (forall other, other <> "customer-42"%string ->
        getConversationContext other
          (fst (transferCall asciiUpper "customer-42" consultation
                  "asked for advice" routed))
        = getConversationContext other routed).
Proof.
  apply (transferCall_moves_only_its_customer asciiLower asciiUpper
           "customer-42" consultation "asked for advice" routed).
  apply managed_conduct, managed_new.
Defined.

(** X17.  [endCall] forgets the context of its customer and of no other; the
    context objects and the turns in flight are not touched; afterwards a
    message or a transfer of that customer is rejected; and a call that is
    routed and then ended leaves the map of contexts as it was when the
    customer had none before. *)
Theorem endCall_forgets_only_its_customer
  (toLowerCase : JSString -> JSString) (toUpperCase : string -> string)
  (customerId : string) (m : AgentManager) :
  managed toLowerCase toUpperCase m ->
  getConversationContext customerId (endCall customerId m) = None
  /\ (forall other, other <> customerId ->
        getConversationContext other (endCall customerId m)
        = getConversationContext other m)
  /\ contextObjects (endCall customerId m) = contextObjects m
  /\ turns (endCall customerId m) = turns m
  /\ (forall message,
        turnStage (processMessage customerId message (endCall customerId m))
          (List.length (turns m))
        = Some (TurnSettled (Rejected "No active context for customer"%string)))
  /\ (forall type reason,
        snd (transferCall toUpperCase customerId type reason
               (endCall customerId m))
        = Rejected "No active context for customer"%string)
  /\ (forall initialMessage generated extracted,
        getConversationContext customerId m = None ->
        activeContexts
          (endCall customerId
             (fst (routeCall toLowerCase customerId initialMessage generated
                     extracted m)))
        = activeContexts m).
Proof.
  intros Hm. pose proof (managed_ok _ _ _ Hm) as Hok.
  assert (Ea : activeContext customerId (endCall customerId m) = None).
  { unfold activeContext, endCall. simpl. rewrite map_get_delete_eq.
    reflexivity. }
  split; [unfold getConversationContext; rewrite Ea; reflexivity|].
  split; [|split; [reflexivity|split; [reflexivity|split; [|split]]]].
  - intros other Hne. apply getConversationContext_agree.
    + simpl. apply map_get_delete_neq. congruence.
    + intros ref _. reflexivity.
  - intros message. unfold processMessage. rewrite Ea.
    unfold turnStage. simpl.
    rewrite nth_error_app2 by lia. rewrite Nat.sub_diag. reflexivity.
  - intros type reason. unfold transferCall. rewrite Ea. reflexivity.
  - intros initialMessage generated extracted Hnone.
    destruct (routeCall_fields toLowerCase customerId initialMessage generated
                extracted m (proj1 Hok)) as (_ & _ & _ & Hc & _).
    simpl. rewrite Hc. apply map_delete_set_fresh.
    apply getConversationContext_None; assumption.
Qed.

Lemma endCall_forgets_only_its_customer_witness :
  getConversationContext "customer-42" (endCall "customer-42" routed) = None
  /\ (forall other, other <> "customer-42"%string ->
        getConversationContext other (endCall "customer-42" routed)
        = getConversationContext other routed)
  /\ contextObjects (endCall "customer-42" routed) = contextObjects routed
  /\ turns (endCall "customer-42" routed) = turns routed
  /\ (forall message,
        turnStage (processMessage "customer-42" message
                     (endCall "customer-42" routed))
          (List.length (turns routed))
        = Some (TurnSettled (Rejected "No active context for customer"%string)))
  /\ (forall type reason,
        snd (transferCall asciiUpper "customer-42" type reason
               (endCall "customer-42" routed))
        = Rejected "No active context for customer"%string)
  /\ (forall initialMessage generated extracted,
        getConversationContext "customer-42" routed = None ->
        activeContexts
          (endCall "customer-42"
             (fst (routeCall asciiLower "customer-42" initialMessage generated
                     extracted routed)))
        = activeContexts routed).
Proof.
  apply (endCall_forgets_only_its_customer asciiLower asciiUpper
           "customer-42" routed).
  apply managed_conduct, managed_new.
Defined.

(** ** One turn *)

Lemma nth_error_snoc {A : Type} (l : list A) (x : A) :
  nth_error (l ++ [x]) (List.length l) = Some x.
Proof. rewrite nth_error_app2 by lia. rewrite Nat.sub_diag. reflexivity. Qed.

Lemma replaceAt_snoc {A : Type} (l : list A) (x y : A) :
  replaceAt (List.length l) y (l ++ [x]) = l ++ [y].
Proof. induction l as [|z l IH]; simpl; [reflexivity | rewrite IH; reflexivity]. Qed.

Lemma nth_error_replaceAt_same {A : Type} (l : list A) (i : nat) (x y : A) :
  nth_error l i = Some x -> nth_error (replaceAt i y l) i = Some y.
Proof.
  intros H. rewrite nth_error_replaceAt, Nat.eqb_refl, H. reflexivity.
Qed.

Ltac manager_fields :=
  cbn [fst snd write turns set_turns set_contextObjects set_activeContexts
       agents contextObjects activeContexts output].

(** What an undisturbed turn leaves. *)
Lemma turn_run (toLowerCase : JSString -> JSString)
  (toUpperCase : string -> string) (customer message : string)
  (response : Awaited string) (extracted : Awaited Entities)
  (created : Awaited unit)
  (m : AgentManager) (ref : nat) (context : ConversationContext) (agent : Agent) :
  agents m = agents newAgentManager ->
  activeContext customer m = Some (ref, context) ->
  map_get (currentAgent context) (agents m) = Some agent ->
  let context' :=
    set_entities (spread (entities context) (entitiesOf extracted))
      (set_conversationHistory (conversationHistory context ++ [message])
         context) in
  let m' :=
    conduct toLowerCase toUpperCase m
      (turnEvents customer message (List.length (turns m)) response extracted
         created) in
  agents m' = agents m
  /\ activeContexts m' = activeContexts m
  /\ contextObjects m' = replaceAt ref context' (contextObjects m)
  /\ turns m' = turns m ++ [TurnSettled (Resolved (responseOf response))]
  /\ output m'
     = output m
       ++ match response with
          | Resolved _ => []
          | Rejected _ => [LogError "Agent response generation failed:"]
          end
       ++ match extracted with
          | Resolved _ => []
          | Rejected _ => [LogError "Entity extraction failed:"]
          end
       ++ match agent_type agent with
          | booking =>
              match appointmentOf context' with
              | Some data =>
                  [LogAppointment "Saving to Google Calendar:" data;
                   CreateAppointment data]
                  ++ match created with
                     | Resolved _ => []
                     | Rejected _ =>
                         [LogError "Failed to save appointment to database:"]
                     end
                  ++ [LogAppointment "Appointment booked successfully:" data]
              | None => []
              end
          | consultation =>
              match consultationOf context' with
              | Some data =>
                  [LogConsultation "Saving to Google Sheets:" data;
                   CreateConsultation data]
                  ++ match created with
                     | Resolved _ => []
                     | Rejected _ =>
                         [LogError "Failed to save consultation to database:"]
                     end
                  ++ [LogConsultation "Consultation details saved:" data]
              | None => []
              end
          end.
Proof.
  intros Hag Ea Hagent context' m'.
  destruct (activeContext_Some _ _ _ _ Ea) as (Hget & Hnth).
  destruct m as [a o c l out]. cbn [agents contextObjects activeContexts turns
                                     output] in *.
  (* the call *)
  assert (E1 : processMessage customer message
                 {| agents := a; contextObjects := o; activeContexts := c;
                    turns := l; output := out |}
               = {| agents := a;
                    contextObjects :=
                      replaceAt ref
                        (set_conversationHistory
                           (conversationHistory context ++ [message]) context) o;
                    activeContexts := c;
                    turns := l ++ [Responding ref message];
                    output := out |}).
  { unfold processMessage. rewrite Ea. cbn [agents]. rewrite Hagent.
    reflexivity. }
  (* the response *)
  set (out1 := out ++ match response with
                      | Resolved _ => []
                      | Rejected _ => [LogError "Agent response generation failed:"]
                      end).
  assert (E2 : forall o1,
             resumeTurn (List.length l) (AgentResponse response)
               {| agents := a; contextObjects := o1; activeContexts := c;
                  turns := l ++ [Responding ref message]; output := out |}
             = {| agents := a; contextObjects := o1; activeContexts := c;
                  turns := l ++ [Extracting ref (responseOf response)];
                  output := out1 |}).
  { intros o1. unfold resumeTurn, out1. cbn [turns]. rewrite nth_error_snoc.
    destruct response as [text|e]; cbn; rewrite replaceAt_snoc, ?app_nil_r;
      reflexivity. }
  (* the entities *)
  set (o1 := replaceAt ref
               (set_conversationHistory
                  (conversationHistory context ++ [message]) context) o) in *.
  assert (Hnth1 : nth_error o1 ref
                  = Some (set_conversationHistory
                            (conversationHistory context ++ [message]) context))
    by (apply (nth_error_replaceAt_same _ _ context); assumption).
  set (out2 := out1 ++ match extracted with
                       | Resolved _ => []
                       | Rejected _ => [LogError "Entity extraction failed:"]
                       end).
  set (m2 := {| agents := a; contextObjects := replaceAt ref context' o;
                activeContexts := c;
                turns := l ++ [Extracting ref (responseOf response)];
                output := out2 |}).
  assert (E3 : resumeTurn (List.length l) (ExtractedEntities extracted)
                 {| agents := a; contextObjects := o1; activeContexts := c;
                    turns := l ++ [Extracting ref (responseOf response)];
                    output := out1 |}
               = set_turns
                   (replaceAt (List.length l)
                      (snd (handleTaskCompletion ref (responseOf response) m2))
                      (turns (fst (handleTaskCompletion ref (responseOf response)
                                     m2))))
                   (fst (handleTaskCompletion ref (responseOf response) m2))).
  { unfold resumeTurn. cbn [turns]. rewrite nth_error_snoc.
    unfold extractEntities, m2, out2, context', o1.
    destruct extracted as [object|e]; cbn [contextObjects write entitiesOf];
      fold o1; rewrite Hnth1; unfold o1; rewrite replaceAt_replaceAt;
      cbn; rewrite ?app_nil_r; reflexivity. }
  assert (Hnth2 : nth_error (replaceAt ref context' o) ref = Some context')
    by (apply (nth_error_replaceAt_same _ _ context); assumption).
  enough (E : exists lines,
             m' = {| agents := a; contextObjects := replaceAt ref context' o;
                     activeContexts := c;
                     turns := l ++ [TurnSettled (Resolved (responseOf response))];
                     output := out2 ++ lines |}
             /\ lines
                = match agent_type agent with
                  | booking =>
                      match appointmentOf context' with
                      | Some data =>
                          [LogAppointment "Saving to Google Calendar:" data;
                           CreateAppointment data]
                          ++ match created with
                             | Resolved _ => []
                             | Rejected _ =>
                                 [LogError "Failed to save appointment to database:"]
                             end
                          ++ [LogAppointment "Appointment booked successfully:" data]
                      | None => []
                      end
                  | consultation =>
                      match consultationOf context' with
                      | Some data =>
                          [LogConsultation "Saving to Google Sheets:" data;
                           CreateConsultation data]
                          ++ match created with
                             | Resolved _ => []
                             | Rejected _ =>
                                 [LogError "Failed to save consultation to database:"]
                             end
                          ++ [LogConsultation "Consultation details saved:" data]
                      | None => []
                      end
                  end).
  { destruct E as (lines & -> & <-). unfold out2, out1. repeat split.
    cbn [output]. rewrite <- !app_assoc. reflexivity. }
  unfold m', conduct, turnEvents. cbn [fold_left manage].
  rewrite E1, E2. fold o1. rewrite E3.
  unfold handleTaskCompletion, m2. cbn [contextObjects agents].
  rewrite Hnth2. change (currentAgent context') with (currentAgent context).
  rewrite Hagent.
  destruct (agent_type agent).
  - destruct (appointmentOf context') as [data|]; manager_fields.
    + rewrite replaceAt_snoc. unfold resumeTurn at 2. manager_fields.
      rewrite nth_error_snoc. manager_fields. rewrite replaceAt_snoc.
      unfold resumeTurn. manager_fields. rewrite nth_error_snoc.
      destruct created as [u|e]; manager_fields; rewrite replaceAt_snoc;
        eexists; (split; [|reflexivity]); unfold set_turns, write;
        manager_fields; rewrite <- ?app_assoc; reflexivity.
    + rewrite replaceAt_snoc. unfold resumeTurn. manager_fields.
      repeat (progress (manager_fields; rewrite ?nth_error_snoc)).
      exists []. rewrite app_nil_r. split; reflexivity.
  - destruct (consultationOf context') as [data|]; manager_fields.
    + rewrite replaceAt_snoc. unfold resumeTurn at 2. manager_fields.
      rewrite nth_error_snoc. manager_fields. rewrite replaceAt_snoc.
      unfold resumeTurn. manager_fields. rewrite nth_error_snoc.
      destruct created as [u|e]; manager_fields; rewrite replaceAt_snoc;
        eexists; (split; [|reflexivity]); unfold set_turns, write;
        manager_fields; rewrite <- ?app_assoc; reflexivity.
    + rewrite replaceAt_snoc. unfold resumeTurn. manager_fields.
      repeat (progress (manager_fields; rewrite ?nth_error_snoc)).
      exists []. rewrite app_nil_r. split; reflexivity.
Qed.

Lemma managed_context (toLowerCase : JSString -> JSString)
  (toUpperCase : string -> string) (m : AgentManager) (customer : string)
  (context : ConversationContext) :
  managed toLowerCase toUpperCase m ->
  getConversationContext customer m = Some context ->
  managerOK m
  /\ exists ref agent,
       activeContext customer m = Some (ref, context)
       /\ map_get customer (activeContexts m) = Some ref
       /\ nth_error (contextObjects m) ref = Some context
       /\ map_get (currentAgent context) (agents m) = Some agent
       /\ (agent = bookingAgent \/ agent = consultationAgent).
Proof.
  intros Hm Hg. pose proof (managed_ok _ _ _ Hm) as Hok.
  split; [assumption|].
  destruct (getConversationContext_Some _ _ _ Hg) as (ref & Ea).
  destruct (activeContext_Some _ _ _ _ Ea) as (Hget & Hnth).
  assert (Hn : namesAgent context).
  { destruct Hok as (_ & _ & Hobj & _). rewrite Forall_forall in Hobj.
    apply Hobj. eapply nth_error_In. exact Hnth. }
  destruct (agent_found m context (proj1 Hok) Hn) as (agent & H1 & _ & H3).
  exists ref, agent. repeat split; assumption.
Qed.

(** X18.  A call of [processMessage] for a customer who has a context,
    with no other call of the manager in between, is fulfilled with the
    generated response or, when that request fails, with the apology;
    whatever the three requests answer.  The
    customer's context then has the message added to its history and the
    extracted entities laid over the ones it had; the contexts of other
    customers and the other turns stay. *)
Theorem turn_settles_with_response
  (toLowerCase : JSString -> JSString) (toUpperCase : string -> string)
  (customer message : string)
  (response : Awaited string) (extracted : Awaited Entities)
  (created : Awaited unit)
  (m : AgentManager) (context : ConversationContext) :
  managed toLowerCase toUpperCase m ->
  getConversationContext customer m = Some context ->
  let m' :=
    conduct toLowerCase toUpperCase m
      (turnEvents customer message (List.length (turns m)) response extracted
         created) in
  turnStage m' (List.length (turns m))
  = Some (TurnSettled
            (Resolved
               match response with
               | Resolved text => text
               | Rejected _ =>
                   "I apologize, I'm having trouble processing that. Could you please repeat?"%string
               end))
  /\ getConversationContext customer m'
     = Some {| customerId := customer;
               intent := intent context;
               entities :=
                 spread (entities context)
                   match extracted with
                   | Resolved object => object
                   | Rejected _ => []
                   end;
               conversationHistory := conversationHistory context ++ [message];
               currentAgent := currentAgent context;
               transferReason := transferReason context |}
  /\ (forall other, other <> customer ->
        getConversationContext other m' = getConversationContext other m)
  /\ (forall turn stage,
        turnStage m turn = Some stage -> turnStage m' turn = Some stage).
Proof.
  intros Hm Hg m'.
  destruct (managed_context _ _ _ _ _ Hm Hg)
    as (Hok & ref & agent & Ea & Hget & Hnth & Hagent & _).
  destruct (turn_run toLowerCase toUpperCase customer message response extracted
              created m ref context agent (proj1 Hok) Ea Hagent)
    as (Ha & Hc & Ho & Ht & _).
  fold m' in Ha, Hc, Ho, Ht.
  assert (Hcid : customerId context = customer).
  { destruct Hok as (_ & Hact & _ & _).
    destruct (Hact customer ref Hget) as (c & Hn & Hk). congruence. }
  split; [|split; [|split]].
  - unfold turnStage. rewrite Ht, nth_error_snoc.
    destruct response; reflexivity.
  - unfold getConversationContext, activeContext.
    rewrite Hc, Hget, Ho, (nth_error_replaceAt_same _ _ context) by assumption.
    cbn. rewrite <- Hcid. destruct extracted; reflexivity.
  - intros other Hne. apply getConversationContext_agree.
    + rewrite Hc. reflexivity.
    + intros r Hr. rewrite Ho, nth_error_replaceAt.
      destruct (Nat.eqb ref r) eqn:E; [|reflexivity].
      apply Nat.eqb_eq in E. subst r. exfalso. apply Hne.
      apply (managerOK_distinct m other customer ref Hok Hr Hget).
  - intros turn stage H. unfold turnStage in *. rewrite Ht.
    rewrite nth_error_app1; [assumption|].
    apply nth_error_Some. congruence.
Qed.

Lemma turn_settles_with_response_witness :
  turnStage
    (conduct asciiLower asciiUpper routed
       (turnEvents "customer-42" "Tomorrow at nine" (List.length (turns routed))
          (Rejected "rate limit"%string) (Rejected "rate limit"%string)
          (Resolved tt)))
    (List.length (turns routed))
  = Some (TurnSettled
            (Resolved
               match Rejected "rate limit"%string with
               | Resolved text => text
               | Rejected _ =>
                   "I apologize, I'm having trouble processing that. Could you please repeat?"%string
               end))
  /\ getConversationContext "customer-42"
       (conduct asciiLower asciiUpper routed
          (turnEvents "customer-42" "Tomorrow at nine"
             (List.length (turns routed))
             (Rejected "rate limit"%string) (Rejected "rate limit"%string)
             (Resolved tt)))
     = Some {| customerId := "customer-42";
               intent := js "appointment_booking";
               entities :=
                 spread [("name", "Ada")%string]
                   match Rejected "rate limit"%string with
                   | Resolved object => object
                   | Rejected _ => []
                   end;
               conversationHistory :=
                 ["Hello, I need help"%string] ++ ["Tomorrow at nine"%string];
               currentAgent := "booking-agent-001";
               transferReason := None |}
  /\ (forall other, other <> "customer-42"%string ->
        getConversationContext other
          (conduct asciiLower asciiUpper routed
             (turnEvents "customer-42" "Tomorrow at nine"
                (List.length (turns routed))
                (Rejected "rate limit"%string) (Rejected "rate limit"%string)
                (Resolved tt)))
        = getConversationContext other routed)
  /\ (forall turn stage,
        turnStage routed turn = Some stage ->
        turnStage
          (conduct asciiLower asciiUpper routed
             (turnEvents "customer-42" "Tomorrow at nine"
                (List.length (turns routed))
                (Rejected "rate limit"%string) (Rejected "rate limit"%string)
                (Resolved tt)))
          turn
        = Some stage).
Proof.
  apply (turn_settles_with_response asciiLower asciiUpper "customer-42"
           "Tomorrow at nine" (Rejected "rate limit"%string)
           (Rejected "rate limit"%string) (Resolved tt) routed
           {| customerId := "customer-42";
              intent := js "appointment_booking";
              entities := [("name", "Ada")%string];
              conversationHistory := ["Hello, I need help"%string];
              currentAgent := "booking-agent-001";
              transferReason := None |}).
  - apply managed_conduct, managed_new.
  - reflexivity.
Defined.

Lemma rows_app (m : AgentManager) (out lines : list ManagerEffect) :
  output m = out ++ lines ->
  rows m = List.filter isRow out ++ List.filter isRow lines.
Proof. intros H. unfold rows. rewrite H. apply filter_app. Qed.

(** X19.  An undisturbed turn creates a row in the database exactly when the
    entities of its context, after the extraction, suffice for the agent that the
    context names: name, date, time and service for the booking agent, name
    and service for the consultation agent; then it creates one row, and
    the line that reports the success is written last, also when the
    database rejected the row. *)
Theorem turn_saves_when_entities_suffice
  (toLowerCase : JSString -> JSString) (toUpperCase : string -> string)
  (customer message : string)
  (response : Awaited string) (extracted : Awaited Entities)
  (created : Awaited unit)
  (m : AgentManager) (context : ConversationContext) :
  managed toLowerCase toUpperCase m ->
  getConversationContext customer m = Some context ->
  let m' :=
    conduct toLowerCase toUpperCase m
      (turnEvents customer message (List.length (turns m)) response extracted
         created) in
  exists agent context',
    map_get (currentAgent context) (agents m) = Some agent
    /\ getConversationContext customer m' = Some context'
    /\ match agent_type agent with
       | booking =>
           match appointmentOf context' with
           | Some data =>
               rows m' = rows m ++ [CreateAppointment data]
               /\ exists before,
                    output m'
                    = before
                      ++ [LogAppointment "Appointment booked successfully:" data]
           | None => rows m' = rows m
           end
       | consultation =>
           match consultationOf context' with
           | Some data =>
               rows m' = rows m ++ [CreateConsultation data]
               /\ exists before,
                    output m'
                    = before
                      ++ [LogConsultation "Consultation details saved:" data]
           | None => rows m' = rows m
           end
       end.
Proof.
  intros Hm Hg m'.
  destruct (managed_context _ _ _ _ _ Hm Hg)
    as (Hok & ref & agent & Ea & Hget & Hnth & Hagent & _).
  destruct (turn_run toLowerCase toUpperCase customer message response extracted
              created m ref context agent (proj1 Hok) Ea Hagent)
    as (Ha & Hc & Ho & Ht & Hout).
  fold m' in Ha, Hc, Ho, Ht, Hout.
  exists agent. eexists. split; [exact Hagent|]. split.
  - unfold getConversationContext, activeContext.
    rewrite Hc, Hget, Ho, (nth_error_replaceAt_same _ _ context) by assumption.
    reflexivity.
  - cbn [snd]. rewrite (rows_app m' _ _ Hout). fold (rows m).
    destruct (agent_type agent).
    + destruct (appointmentOf _) as [data|].
      * split.
        -- rewrite !filter_app.
           destruct response, extracted, created; reflexivity.
        -- rewrite Hout. eexists. rewrite !app_assoc. reflexivity.
      * rewrite !filter_app.
        destruct response, extracted; cbn; rewrite ?app_nil_r; reflexivity.
    + destruct (consultationOf _) as [data|].
      * split.
        -- rewrite !filter_app.
           destruct response, extracted, created; reflexivity.
        -- rewrite Hout. eexists. rewrite !app_assoc. reflexivity.
      * rewrite !filter_app.
        destruct response, extracted; cbn; rewrite ?app_nil_r; reflexivity.
Qed.

Lemma turn_saves_when_entities_suffice_witness :
  exists agent context',
    map_get
      (currentAgent
         {| customerId := "customer-42";
            intent := js "appointment_booking";
            entities := [("name", "Ada")%string];
            conversationHistory := ["Hello, I need help"%string];
            currentAgent := "booking-agent-001";
            transferReason := None |})
      (agents routed)
    = Some agent
    /\ getConversationContext "customer-42"
         (conduct asciiLower asciiUpper routed
            (turnEvents "customer-42" "A haircut on Friday at ten, please"
               (List.length (turns routed))
               (Resolved "Friday at ten it is."%string)
               (Resolved [("date", "Friday"); ("time", "10:00");
                          ("service", "haircut")]%string)
               (Rejected "database offline"%string)))
       = Some context'
    /\ match agent_type agent with
       | booking =>
           match appointmentOf context' with
           | Some data =>
               rows
                 (conduct asciiLower asciiUpper routed
                    (turnEvents "customer-42" "A haircut on Friday at ten, please"
                       (List.length (turns routed))
                       (Resolved "Friday at ten it is."%string)
                       (Resolved [("date", "Friday"); ("time", "10:00");
                                  ("service", "haircut")]%string)
                       (Rejected "database offline"%string)))
               = rows routed ++ [CreateAppointment data]
               /\ exists before,
                    output
                      (conduct asciiLower asciiUpper routed
                         (turnEvents "customer-42"
                            "A haircut on Friday at ten, please"
                            (List.length (turns routed))
                            (Resolved "Friday at ten it is."%string)
                            (Resolved [("date", "Friday"); ("time", "10:00");
                                       ("service", "haircut")]%string)
                            (Rejected "database offline"%string)))
                    = before
                      ++ [LogAppointment "Appointment booked successfully:" data]
           | None =>
               rows
                 (conduct asciiLower asciiUpper routed
                    (turnEvents "customer-42" "A haircut on Friday at ten, please"
                       (List.length (turns routed))
                       (Resolved "Friday at ten it is."%string)
                       (Resolved [("date", "Friday"); ("time", "10:00");
                                  ("service", "haircut")]%string)
                       (Rejected "database offline"%string)))
               = rows routed
           end
       | consultation =>
           match consultationOf context' with
           | Some data =>
               rows
                 (conduct asciiLower asciiUpper routed
                    (turnEvents "customer-42" "A haircut on Friday at ten, please"
                       (List.length (turns routed))
                       (Resolved "Friday at ten it is."%string)
                       (Resolved [("date", "Friday"); ("time", "10:00");
                                  ("service", "haircut")]%string)
                       (Rejected "database offline"%string)))
               = rows routed ++ [CreateConsultation data]
               /\ exists before,
                    output
                      (conduct asciiLower asciiUpper routed
                         (turnEvents "customer-42"
                            "A haircut on Friday at ten, please"
                            (List.length (turns routed))
                            (Resolved "Friday at ten it is."%string)
                            (Resolved [("date", "Friday"); ("time", "10:00");
                                       ("service", "haircut")]%string)
                            (Rejected "database offline"%string)))
                    = before
                      ++ [LogConsultation "Consultation details saved:" data]
           | None =>
               rows
                 (conduct asciiLower asciiUpper routed
                    (turnEvents "customer-42" "A haircut on Friday at ten, please"
                       (List.length (turns routed))
                       (Resolved "Friday at ten it is."%string)
                       (Resolved [("date", "Friday"); ("time", "10:00");
                                  ("service", "haircut")]%string)
                       (Rejected "database offline"%string)))
               = rows routed
           end
       end.
Proof.
  apply (turn_saves_when_entities_suffice asciiLower asciiUpper "customer-42"
           "A haircut on Friday at ten, please"
           (Resolved "Friday at ten it is."%string)
           (Resolved [("date", "Friday"); ("time", "10:00");
                      ("service", "haircut")]%string)
           (Rejected "database offline"%string) routed
           {| customerId := "customer-42";
              intent := js "appointment_booking";
              entities := [("name", "Ada")%string];
              conversationHistory := ["Hello, I need help"%string];
              currentAgent := "booking-agent-001";
              transferReason := None |}).
  - apply managed_conduct, managed_new.
  - reflexivity.
Defined.



(** ** Turns and the contexts they hold *)

(** A resumed turn reads neither the map of contexts nor what was written
    before; it writes to the object it holds and to no other. *)
Lemma resumeTurn_frame (turn : nat) (how : TurnResumption)
  (a : StringMap Agent) (o : list ConversationContext) (l : list TurnStage) :
  exists o' l' lines,
    List.length o' = List.length o
    /\ (forall ref stage,
          nth_error l turn = Some stage -> stageContext stage <> Some ref ->
          nth_error o' ref = nth_error o ref)
    /\ (nth_error l turn = None -> o' = o)
    /\ forall c out,
         resumeTurn turn how
           {| agents := a; contextObjects := o; activeContexts := c;
              turns := l; output := out |}
         = {| agents := a; contextObjects := o'; activeContexts := c;
              turns := l'; output := out ++ lines |}.
Proof.
  unfold resumeTurn. cbn [turns].
  destruct (nth_error l turn) as [stage|] eqn:Et.
  2:{ exists o, l, []. repeat split; intros; rewrite ?app_nil_r; reflexivity. }
  assert (Hsame : exists o' l' lines,
             List.length o' = List.length o
             /\ (forall ref stage0,
                   Some stage = Some stage0 -> stageContext stage0 <> Some ref ->
                   nth_error o' ref = nth_error o ref)
             /\ (Some stage = None -> o' = o)
             /\ forall c out,
                  {| agents := a; contextObjects := o; activeContexts := c;
                     turns := l; output := out |}
                  = {| agents := a; contextObjects := o'; activeContexts := c;
                       turns := l'; output := out ++ lines |}).
  { exists o, l, []. repeat split; intros; rewrite ?app_nil_r;
      first [reflexivity | discriminate]. }
  destruct stage, how; try exact Hsame; clear Hsame; cbv zeta.
  - (* the response *)
    destruct res as [text|e]; manager_fields.
    + exists o, (replaceAt turn (Extracting context text) l), [].
      repeat split; intros; rewrite ?app_nil_r;
        first [reflexivity | discriminate].
    + eexists o, _, [_]. repeat split; intros; unfold set_turns, write;
        manager_fields; first [reflexivity | discriminate].
  - (* the entities *)
    unfold extractEntities, handleTaskCompletion.
    assert (Hown : forall object' ref stage0,
               Some (Extracting context response) = Some stage0 ->
               stageContext stage0 <> Some ref ->
               nth_error (replaceAt context object' o) ref = nth_error o ref).
    { intros object' ref stage0 [= <-] Hne. rewrite nth_error_replaceAt.
      destruct (Nat.eqb context ref) eqn:E; [|reflexivity].
      apply Nat.eqb_eq in E. subst ref. exfalso. apply Hne. reflexivity. }
    destruct res as [object'|e]; manager_fields;
      (destruct (nth_error o context) as [object|] eqn:Hnth; manager_fields;
       [rewrite (nth_error_replaceAt_same _ _ object) by assumption
       |rewrite Hnth]);
      repeat match goal with
             | |- context [match ?x with _ => _ end] =>
                 destruct x; manager_fields
             end;
      do 3 eexists;
      (split; [|split; [|split]];
       [| | |intros active out; unfold set_turns, write; manager_fields;
             rewrite <- ?app_assoc; try reflexivity;
             rewrite <- (app_nil_r out) at 1; reflexivity]);
      first [apply length_replaceAt | reflexivity
            | apply Hown | intros; reflexivity | discriminate | idtac].
  - eexists o, _, [_]. repeat split; intros; unfold set_turns, write;
      manager_fields; first [reflexivity | discriminate].
  - destruct res; manager_fields; eexists o, _, _;
      repeat split; intros; unfold set_turns, write; manager_fields;
      rewrite <- ?app_assoc; first [reflexivity | discriminate].
  - eexists o, _, [_]. repeat split; intros; unfold set_turns, write;
      manager_fields; first [reflexivity | discriminate].
  - destruct res; manager_fields; eexists o, _, _;
      repeat split; intros; unfold set_turns, write; manager_fields;
      rewrite <- ?app_assoc; first [reflexivity | discriminate].
Qed.

Lemma manager_eta (m : AgentManager) :
  m = {| agents := agents m; contextObjects := contextObjects m;
         activeContexts := activeContexts m; turns := turns m;
         output := output m |}.
Proof. destruct m. reflexivity. Qed.

(** X21.  Ending the call does not stop a turn in flight: resumed after
    [endCall], the turn goes through the same stages, writes the same to
    the object it holds and creates the same rows as if the call had not
    ended. *)
Theorem ended_call_does_not_stop_turn
  (customer : string) (turn : nat) (how : TurnResumption) (m : AgentManager) :
  let after := resumeTurn turn how (endCall customer m) in
  let before := endCall customer (resumeTurn turn how m) in
  turns after = turns before
  /\ contextObjects after = contextObjects before
  /\ activeContexts after = activeContexts before
  /\ agents after = agents before
  /\ rows after = rows before.
Proof.
  destruct (resumeTurn_frame turn how (agents m) (contextObjects m) (turns m))
    as (o' & l' & lines & _ & _ & _ & H).
  intros after before.
  assert (Hb : resumeTurn turn how m
               = {| agents := agents m; contextObjects := o';
                    activeContexts := activeContexts m; turns := l';
                    output := output m ++ lines |}).
  { rewrite (manager_eta m) at 1. apply H. }
  assert (Ha : after
               = {| agents := agents m; contextObjects := o';
                    activeContexts := map_delete customer (activeContexts m);
                    turns := l';
                    output := (output m
                               ++ [Log ("Ended call for customer " ++ customer)])
                              ++ lines |}).
  { unfold after, endCall, set_activeContexts, write. manager_fields. apply H. }
  unfold before. rewrite Ha, Hb. unfold endCall, rows. manager_fields.
  repeat split. rewrite !filter_app. cbn [filter isRow]. rewrite !app_nil_r.
  reflexivity.
Qed.

(** X22.  A turn writes to the context object it took when it started.  When
    the customer is routed again while a turn is in flight, the customer
    gets a new object, and no turn that is resumed afterwards changes the
    context the manager keeps for the customer: what such a turn extracts
    is lost to it. *)
Theorem rerouted_customer_gets_fresh_context
  (toLowerCase : JSString -> JSString) (toUpperCase : string -> string)
  (customer initialMessage : string)
  (generated : Awaited JSString) (extracted : Awaited Entities)
  (turn : nat) (how : TurnResumption) (m : AgentManager) :
  managed toLowerCase toUpperCase m ->
  let m1 :=
    fst (routeCall toLowerCase customer initialMessage generated extracted m) in
  getConversationContext customer (resumeTurn turn how m1)
  = getConversationContext customer m1
  /\ option_map conversationHistory (getConversationContext customer m1)
     = Some [initialMessage]
  /\ option_map entities (getConversationContext customer m1)
     = Some (snd (extractEntities extracted m)).
Proof.
  intros Hm m1. pose proof (managed_ok _ _ _ Hm) as Hok.
  destruct (routeCall_fields toLowerCase customer initialMessage generated
              extracted m (proj1 Hok)) as (_ & Ha & Ho & Hc & Ht).
  fold m1 in Ha, Ho, Hc, Ht.
  assert (Hg : getConversationContext customer m1
               = nth_error (contextObjects m1) (List.length (contextObjects m))).
  { unfold getConversationContext, activeContext.
    rewrite Hc, map_get_set_eq.
    destruct (nth_error (contextObjects m1) (List.length (contextObjects m)));
      reflexivity. }
  split; [|split].
  - destruct (resumeTurn_frame turn how (agents m1) (contextObjects m1)
                (turns m1)) as (o' & l' & lines & Hlen & Hown & Hnone & H).
    apply getConversationContext_agree.
    + rewrite (manager_eta m1) at 1. rewrite H. reflexivity.
    + intros ref Hget. rewrite Hc, map_get_set_eq in Hget.
      injection Hget as <-.
      rewrite (manager_eta m1) at 1. rewrite H. manager_fields.
      destruct (nth_error (turns m1) turn) as [stage|] eqn:Et.
      * apply (Hown _ stage eq_refl). intros Hs.
        destruct Hok as (_ & _ & _ & Hturns). rewrite Forall_forall in Hturns.
        rewrite Ht in Et.
        pose proof (proj1 (Hturns _ (nth_error_In _ _ Et)) _ Hs). lia.
      * rewrite (Hnone eq_refl). reflexivity.
  - rewrite Hg, Ho, nth_error_snoc. reflexivity.
  - rewrite Hg, Ho, nth_error_snoc. destruct extracted; reflexivity.
Qed.

Lemma rerouted_customer_gets_fresh_context_witness :
  getConversationContext "customer-42"
    (resumeTurn 0
       (ExtractedEntities (Resolved [("date", "Friday")%string]))
       (fst (routeCall asciiLower "customer-42" "Hello again"
               (Rejected "timeout"%string) (Resolved []) answering)))
  = getConversationContext "customer-42"
      (fst (routeCall asciiLower "customer-42" "Hello again"
              (Rejected "timeout"%string) (Resolved []) answering))
  /\ option_map conversationHistory
       (getConversationContext "customer-42"
          (fst (routeCall asciiLower "customer-42" "Hello again"
                  (Rejected "timeout"%string) (Resolved []) answering)))
     = Some ["Hello again"%string]
  /\ option_map entities
       (getConversationContext "customer-42"
          (fst (routeCall asciiLower "customer-42" "Hello again"
                  (Rejected "timeout"%string) (Resolved []) answering)))
     = Some (snd (extractEntities (Resolved []) answering)).
Proof.
  apply (rerouted_customer_gets_fresh_context asciiLower asciiUpper
           "customer-42" "Hello again" (Rejected "timeout"%string) (Resolved [])
           0 (ExtractedEntities (Resolved [("date", "Friday")%string]))
           answering).
  apply managed_conduct, managed_conduct, managed_new.
Defined.

(** * Further properties of the runs *)

(** ** A run that plays waits for its audio *)

Lemma resume_playing (r0 r : nat) (v : Resumption) (s : Engine)
  (a : nat) (t0 t1 t2 t3 : Z) :
  stageOf r s = Some (Playing a t0 t1 t2 t3) ->
  (forall a' res, v = Playback a' res -> a' <> a) ->
  stageOf r (resume r0 v s) = Some (Playing a t0 t1 t2 t3)
  /\ runCalls r (resume r0 v s) = runCalls r s.
Proof.
  intros Hst Hv. destruct (Nat.eq_dec r r0) as [<-|Hneq].
  - assert (E : resume r v s = s).
    { unfold stageOf in Hst. unfold resume.
      destruct (nth_error (runs s) r) as [run|]; [|reflexivity].
      simpl in Hst. injection Hst as Hst. rewrite Hst.
      destruct v; try reflexivity.
      destruct (Nat.eqb a audio) eqn:E; [|reflexivity].
      apply Nat.eqb_eq in E. subst audio.
      exfalso. apply (Hv a res); reflexivity. }
    rewrite E. split; [assumption | reflexivity].
  - destruct (resume_other r0 r v s Hneq) as (Hn & Hc).
    unfold stageOf in *. rewrite Hn. split; assumption.
Qed.

Lemma settlePlayback_playing (a' r : nat) (res : Awaited unit) (s : Engine)
  (a : nat) (t0 t1 t2 t3 : Z) :
  a' <> a ->
  stageOf r s = Some (Playing a t0 t1 t2 t3) ->
  stageOf r (settlePlayback a' res s) = Some (Playing a t0 t1 t2 t3)
  /\ runCalls r (settlePlayback a' res s) = runCalls r s.
Proof.
  intros Hne Hst. unfold settlePlayback.
  destruct (nth_error (audios s) a') as [el|]; [|split; [assumption|reflexivity]].
  apply resume_playing; [assumption|].
  intros a'' res' [= <- _]. assumption.
Qed.

Lemma step_playing (s : Engine) (ev : Event) (r a : nat) (t0 t1 t2 t3 : Z) :
  stageOf r s = Some (Playing a t0 t1 t2 t3) ->
  notPlaybackOf a ev ->
  stageOf r (step s ev) = Some (Playing a t0 t1 t2 t3)
  /\ runCalls r (step s ev) = runCalls r s.
Proof.
  intros Hst Hev.
  assert (Hsame : forall s', sameRuns s s' ->
            stageOf r s' = Some (Playing a t0 t1 t2 t3)
            /\ runCalls r s' = runCalls r s).
  { intros s' [Hr Hc]. unfold stageOf. rewrite Hr. split; [exact Hst | apply Hc]. }
  assert (Hres : forall r0 v,
            (forall a' res, v = Playback a' res -> a' <> a) ->
            stageOf r (resume r0 v s) = Some (Playing a t0 t1 t2 t3)
            /\ runCalls r (resume r0 v s) = runCalls r s)
    by (intros r0 v Hv; apply resume_playing; assumption).
  destruct ev; simpl in Hev |- *.
  - apply Hsame, elapse_runs.
  - apply Hsame, detectActivity_runs.
  - apply Hsame. unfold ondataavailable. destruct (0 <? size)%N; same_runs.
  - unfold onstop. destruct (audioChunks s); [split; [assumption|reflexivity]|].
    unfold processAudioWithInterruption, stageOf in *. simpl. split; [|reflexivity].
    destruct (nth_error (runs s) r) as [run|] eqn:E; [|discriminate].
    rewrite nth_error_app1 by (apply nth_error_Some; congruence).
    rewrite E. assumption.
  - apply Hres. intros ? ? H; discriminate H.
  - apply Hres. intros ? ? H; discriminate H.
  - apply Hres. intros ? ? H; discriminate H.
  - apply Hres. intros ? ? H; discriminate H.
  - unfold audio_onended.
    match goal with
    | |- context [settlePlayback a0 _ ?s1] =>
        destruct (settlePlayback_playing a0 r (Resolved tt) s1 a t0 t1 t2 t3 Hev)
          as (H1 & H2)
    end.
    + destruct (nth_error (audios s) a0); exact Hst.
    + split; [exact H1|]. rewrite H2.
      destruct (nth_error (audios s) a0); reflexivity.
  - unfold audio_onerror.
    apply (settlePlayback_playing a0 r _ (set_currentAudio None s)); assumption.
  - unfold audio_play_catch.
    apply (settlePlayback_playing a0 r _ (set_currentAudio None s)); assumption.
  - apply Hsame, interruptCurrentResponse_runs.
  - apply Hsame, cleanup_runs.
Qed.

(** X23.  A run that plays its reply is suspended until the audio element
    settles: nothing but the [ended] event, the [error] event or the
    rejection of [play()] of its own element moves it.  Interruption,
    [cleanup], frames, timers, other runs and the events of other elements
    leave it where it is, its promise pending, and no metrics are logged for
    it. *)
Theorem playing_run_waits_for_its_audio
  (s : Engine) (evs : list Event) (r a : nat) (t0 t1 t2 t3 : Z) :
  stageOf r s = Some (Playing a t0 t1 t2 t3) ->
  Forall (notPlaybackOf a) evs ->
  stageOf r (exec s evs) = Some (Playing a t0 t1 t2 t3)
  /\ runCalls r (exec s evs) = runCalls r s.
Proof.
  revert s. induction evs as [|ev evs IH]; intros s Hst Hall; simpl.
  - split; [assumption | reflexivity].
  - inversion Hall as [|? ? Hev Hrest]; subst.
    destruct (step_playing s ev r a t0 t1 t2 t3 Hst Hev) as (H1 & H2).
    destruct (IH (step s ev) H1 Hrest) as (H3 & H4).
    split; [assumption | congruence].
Qed.

Lemma playing_run_waits_for_its_audio_witness :
  stageOf 0 (exec speaking
               ([InterruptCurrentResponse; Elapse 5000; AnimationFrame loud (Resolved tt)]
                ++ utterance 1700000009000 ++ [Cleanup]))
  = Some (Playing 0 1600 85 90 1775)
  /\ runCalls 0 (exec speaking
                   ([InterruptCurrentResponse; Elapse 5000; AnimationFrame loud (Resolved tt)]
                    ++ utterance 1700000009000 ++ [Cleanup]))
     = runCalls 0 speaking.
Proof.
  apply (playing_run_waits_for_its_audio speaking
           ([InterruptCurrentResponse; Elapse 5000; AnimationFrame loud (Resolved tt)]
            ++ utterance 1700000009000 ++ [Cleanup]) 0 0 1600 85 90 1775).
  - vm_compute. reflexivity.
  - vm_compute. repeat constructor.
Defined.

(** ** The processing flag *)

Lemma pauseAudio_flag (a : nat) (s : Engine) :
  isProcessing (pauseAudio a s) = isProcessing s.
Proof. unfold pauseAudio. destruct (nth_error (audios s) a); reflexivity. Qed.

Lemma interruptCurrentResponse_flag (s : Engine) :
  isProcessing (interruptCurrentResponse s) = isProcessing s.
Proof.
  unfold interruptCurrentResponse.
  destruct (currentAudio s) as [a|]; simpl; [apply pauseAudio_flag | reflexivity].
Qed.

Lemma handleVoiceActivity_flag (start : Awaited unit) (s : Engine) :
  isProcessing (handleVoiceActivity start s) = isProcessing s.
Proof.
  unfold handleVoiceActivity.
  set (s1 := match silenceTimer s with
             | Some _ => set_silenceTimer None s
             | None => s
             end).
  assert (H1 : isProcessing s1 = isProcessing s)
    by (unfold s1; destruct (silenceTimer s); reflexivity).
  set (s2 := match currentAudio s1 with
             | Some a => if negb (audioPaused s1 a)
                         then interruptCurrentResponse s1 else s1
             | None => s1
             end).
  assert (H2 : isProcessing s2 = isProcessing s1).
  { unfold s2. destruct (currentAudio s1) as [a|]; [|reflexivity].
    destruct (negb (audioPaused s1 a));
      [apply interruptCurrentResponse_flag | reflexivity]. }
  rewrite <- H1, <- H2.
  destruct (mediaRecorder s2) as [[| |]|]; [destruct start|..]; reflexivity.
Qed.

Lemma detectActivity_flag (d : Snapshot) (start : Awaited unit) (s : Engine) :
  isProcessing (detectActivity d start s) = isProcessing s.
Proof.
  unfold detectActivity. destruct (negb (analyser s)); [reflexivity|].
  destruct (rms_gt_interruption d); [apply handleVoiceActivity_flag|].
  destruct (rms_lt_silence d); [|reflexivity].
  unfold handleSilence. destruct (silenceTimer s); reflexivity.
Qed.

Lemma elapse_flag (ms : nat) (s : Engine) :
  isProcessing (elapse ms s) = isProcessing s.
Proof.
  unfold elapse, silenceTimeout.
  destruct (silenceTimer s) as [due|]; [|reflexivity].
  destruct (due <=? clock s + Z.of_nat ms); [|reflexivity].
  destruct (mediaRecorder s) as [[| |]|]; reflexivity.
Qed.

(** The [finally] of a run resets the flag; a run that goes on is in
    flight. *)
Lemma tryCatchFinally_flag (r : nat) (id : string) (s' : Engine) (c : Completion) :
  (r < List.length (runs s'))%nat ->
  (forall next, c = Suspend next -> inFlight next) ->
  isProcessing (tryCatchFinally r id (s', c)) = false
  \/ exists st, stageOf r (tryCatchFinally r id (s', c)) = Some st /\ inFlight st.
Proof.
  intros Hlt Hc. destruct c as [next| |e]; simpl.
  - right. exists next. split; [|apply Hc; reflexivity].
    unfold stageOf, setStage. simpl.
    rewrite nth_error_replaceAt_eq by assumption. reflexivity.
  - left. reflexivity.
  - left. reflexivity.
Qed.

Lemma resume_flag (r0 : nat) (v : Resumption) (s : Engine) :
  resume r0 v s = s
  \/ isProcessing (resume r0 v s) = false
  \/ exists st, stageOf r0 (resume r0 v s) = Some st /\ inFlight st.
Proof.
  unfold resume.
  destruct (nth_error (runs s) r0) as [run|] eqn:Hnth; [|left; reflexivity].
  assert (Hlt : (r0 < List.length (runs s))%nat)
    by (apply nth_error_Some; congruence).
  destruct (stage run), v; try (left; reflexivity);
    try (destruct (Nat.eqb audio audio0); [|left; reflexivity]);
    right;
    unfold afterBase64, afterSTT, afterGPT, afterSpeech, afterPlayback,
      performSTT, performGPTProcessing, playAudioWithInterruption,
      logProcessingMetrics;
    destruct res; cbn iota beta;
    repeat match goal with
           | |- context [tryCatchFinally _ _ (match ?x with _ => _ end)] =>
               destruct x
           | |- context [tryCatchFinally _ _ (if ?x then _ else _)] =>
               destruct x
           end;
    (apply tryCatchFinally_flag;
     [simpl; rewrite ?length_app; simpl; lia
     |intros next H; first [discriminate H
                           | injection H as <-; intros how; discriminate]]).
Qed.

Lemma settlePlayback_flag (a : nat) (res : Awaited unit) (s : Engine) :
  settlePlayback a res s = s
  \/ isProcessing (settlePlayback a res s) = false
  \/ exists r st, stageOf r (settlePlayback a res s) = Some st /\ inFlight st.
Proof.
  unfold settlePlayback. destruct (nth_error (audios s) a) as [el|];
    [|left; reflexivity].
  destruct (resume_flag (awaitedBy el) (Playback a res) s) as [H|[H|(st & H)]].
  - left. exact H.
  - right. left. exact H.
  - right. right. exists (awaitedBy el), st. exact H.
Qed.

(** X24.  While [isProcessing] is true a run is in flight: in every state
    the engine can reach, the flag is set only if some call of
    [processAudioWithInterruption] has not settled yet. *)
Theorem isProcessing_means_run_in_flight (s : Engine) :
  reachable s ->
  isProcessing s = true ->
  exists r st, stageOf r s = Some st /\ inFlight st.
Proof.
  induction 1 as [|s ev _ IH]; [discriminate|].
  assert (Hsame : forall s',
            sameRuns s s' -> isProcessing s' = isProcessing s ->
            isProcessing s' = true ->
            exists r st, stageOf r s' = Some st /\ inFlight st).
  { intros s' [Hr _] Hf Ht. unfold stageOf. rewrite Hr. apply IH. congruence. }
  assert (Hres : forall r0 v,
            isProcessing (resume r0 v s) = true ->
            exists r st, stageOf r (resume r0 v s) = Some st /\ inFlight st).
  { intros r0 v Ht.
    destruct (resume_flag r0 v s) as [E|[E|(st & E)]].
    - rewrite E in *. apply IH. assumption.
    - congruence.
    - exists r0, st. exact E. }
  assert (Hplay : forall a res s1,
            runs s1 = runs s -> isProcessing s1 = isProcessing s ->
            isProcessing (settlePlayback a res s1) = true ->
            exists r st, stageOf r (settlePlayback a res s1) = Some st
                         /\ inFlight st).
  { intros a res s1 Hr Hf Ht.
    destruct (settlePlayback_flag a res s1) as [E|[E|E]].
    - rewrite E in *. unfold stageOf. rewrite Hr. apply IH. congruence.
    - congruence.
    - exact E. }
  destruct ev; cbn [step].
  - apply Hsame; [apply elapse_runs | apply elapse_flag].
  - apply Hsame; [apply detectActivity_runs | apply detectActivity_flag].
  - apply Hsame; unfold ondataavailable; destruct (0 <? size)%N;
      first [same_runs | reflexivity].
  - unfold onstop. destruct (audioChunks s); [exact IH|].
    intros _. exists (List.length (runs s)), (ReadingBlob (clock s)).
    split; [|intros how; discriminate].
    unfold stageOf, processAudioWithInterruption. simpl.
    rewrite nth_error_app2 by lia. rewrite Nat.sub_diag. reflexivity.
  - apply Hres.
  - apply Hres.
  - apply Hres.
  - apply Hres.
  - unfold audio_onended. apply Hplay;
      destruct (nth_error (audios s) a); reflexivity.
  - unfold audio_onerror. apply Hplay; reflexivity.
  - unfold audio_play_catch. apply Hplay; reflexivity.
  - apply Hsame;
      [apply interruptCurrentResponse_runs | apply interruptCurrentResponse_flag].
  - intros Ht. destruct (cleanup_fields s) as (_ & _ & Hf & _). congruence.
Qed.

Lemma isProcessing_means_run_in_flight_witness :
  exists r st, stageOf r overlap = Some st /\ inFlight st.
Proof.
  apply (isProcessing_means_run_in_flight overlap).
  - apply reachable_exec, reachable_exec, reachable_exec, reachable_exec.
    constructor.
  - vm_compute. reflexivity.
Defined.

(** * Properties of the dashboard statistics *)

Lemma ratesInRange_1000 : ratesInRange 1000 2 1 = true.
Proof. vm_compute. reflexivity. Qed.

Lemma rowInRange_spec (count : nat) (first total completed : Z) :
  rowInRange count first total = true ->
  first <= completed < first + Z.of_nat count ->
  rateInRange completed total = true.
Proof.
  revert first. induction count as [|count IH]; intros first Hrow Hc.
  - simpl in Hc. lia.
  - cbn [rowInRange] in Hrow. apply andb_prop in Hrow.
    destruct Hrow as (Hfirst & Hrest).
    destruct (Z.eq_dec completed first) as [->|Hne]; [assumption|].
    apply (IH (first + 1)); [assumption | lia].
Qed.

Lemma ratesInRange_spec (count width : nat) (first total completed : Z) :
  ratesInRange count width first = true ->
  Z.of_nat width = first + 1 ->
  first <= total < first + Z.of_nat count ->
  0 <= completed <= total ->
  rateInRange completed total = true.
Proof.
  revert width first. induction count as [|count IH];
    intros width first Htable Hwidth Ht Hc.
  - simpl in Ht. lia.
  - cbn [ratesInRange] in Htable. apply andb_prop in Htable.
    destruct Htable as (Hrow & Hrest).
    destruct (Z.eq_dec total first) as [->|Hne].
    + apply (rowInRange_spec width 0 first completed Hrow). lia.
    + apply (IH (S width) (first + 1)); [assumption | lia | lia | assumption].
Qed.

Lemma filter_length_le {A : Type} (f : A -> bool) (l : list A) :
  (List.length (List.filter f l) <= List.length l)%nat.
Proof.
  induction l as [|x l IH]; simpl; [lia|]. destruct (f x); simpl; lia.
Qed.

Lemma filter_length_all {A : Type} (f : A -> bool) (l : list A) :
  List.length (List.filter f l) = List.length l <-> Forall (fun x => f x = true) l.
Proof.
  induction l as [|x l IH]; simpl.
  - split; [constructor | reflexivity].
  - pose proof (filter_length_le f l) as Hle. destruct (f x) eqn:E; simpl.
    + split.
      * intros H. constructor; [assumption|]. apply IH. lia.
      * intros H. inversion H; subst. f_equal. apply IH. assumption.
    + split; [lia|]. intros H. inversion H; subst. congruence.
Qed.

Lemma filter_length_none {A : Type} (f : A -> bool) (l : list A) :
  List.length (List.filter f l) = 0%nat <-> Forall (fun x => f x = false) l.
Proof.
  induction l as [|x l IH]; simpl.
  - split; [constructor | reflexivity].
  - destruct (f x) eqn:E; simpl.
    + split; [discriminate|]. intros H. inversion H; subst. congruence.
    + split.
      * intros H. constructor; [assumption|]. apply IH. assumption.
      * intros H. inversion H; subst. apply IH. assumption.
Qed.

Lemma rate_checked (completed total : nat) :
  (1 <= total <= 1000)%nat -> (completed <= total)%nat ->
  rateInRange (Z.of_nat completed) (Z.of_nat total) = true.
Proof.
  intros Ht Hc.
  apply (ratesInRange_spec 1000 2 1 _ _ ratesInRange_1000); lia.
Qed.

Lemma calculateStats_percentage
  {Appointment Consultation : Type}
  (appointments : list Appointment) (consultations : list Consultation)
  (callSessions : list CallSession) :
  (List.length callSessions <= 1000)%nat ->
  let stats := calculateStats appointments consultations callSessions in
  PrimFloat.leb PrimFloat.zero (successRate stats) = true
  /\ PrimFloat.leb (successRate stats) (numberOf 100) = true
  /\ (PrimFloat.eqb (successRate stats) (numberOf 100) = true <->
      callSessions <> []
      /\ Forall (fun call => session_status call = "completed"%string)
           callSessions)
  /\ (PrimFloat.eqb (successRate stats) PrimFloat.zero = true <->
      Forall (fun call => session_status call <> "completed"%string)
        callSessions)
  /\ (callSessions = [] ->
      successRate stats = PrimFloat.zero /\ avgLatency stats = PrimFloat.zero)
  /\ (activeCalls stats <= totalCalls stats)%nat.
Proof.
  intros Hlimit.
  destruct callSessions as [|call rest];
    [|remember (call :: rest) as sessions eqn:E]; intros stats;
    assert (Hactive : (activeCalls stats <= totalCalls stats)%nat)
      by apply filter_length_le.
  - split; [reflexivity|]. split; [reflexivity|].
    split; [|split; [|split; [|exact Hactive]]].
    + split; [intros Hrate; discriminate Hrate|].
      intros [Hne _]. contradiction.
    + split; [constructor | reflexivity].
    + intros _. split; reflexivity.
  - assert (Hpos : (1 <= List.length sessions)%nat)
      by (rewrite E; simpl; lia).
    set (completed := List.length
                        (List.filter (hasStatus "completed") sessions)).
    assert (Hc : (completed <= List.length sessions)%nat)
      by apply filter_length_le.
    assert (Hrate : successRate stats
                    = rateOf (Z.of_nat completed)
                        (Z.of_nat (List.length sessions))).
    { unfold stats, calculateStats. cbn [successRate].
      destruct (Nat.ltb 0 (List.length sessions)) eqn:El; [reflexivity|].
      apply Nat.ltb_ge in El. lia. }
    pose proof (rate_checked completed (List.length sessions)
                  (conj Hpos Hlimit) Hc) as Hcheck.
    unfold rateInRange in Hcheck. cbv zeta in Hcheck.
    apply andb_prop in Hcheck. destruct Hcheck as (Hcheck & H0).
    apply andb_prop in Hcheck. destruct Hcheck as (Hcheck & H100).
    apply andb_prop in Hcheck. destruct Hcheck as (Hlo & Hhi).
    apply Bool.eqb_prop in H0, H100.
    rewrite Hrate. split; [exact Hlo|]. split; [exact Hhi|].
    split; [|split; [|split; [|exact Hactive]]].
    + change (numberOf 100) with (PrimFloat.of_uint63 (Uint63.of_Z 100)).
      rewrite H100, Z.eqb_eq, Nat2Z.inj_iff. unfold completed.
      rewrite filter_length_all. split.
      * intros Hall. split; [rewrite E; discriminate|].
        eapply Forall_impl; [|exact Hall]. intros c Hs.
        apply String.eqb_eq. exact Hs.
      * intros [_ Hall]. eapply Forall_impl; [|exact Hall]. intros c Hs.
        apply String.eqb_eq. exact Hs.
    + rewrite H0, Z.eqb_eq. change 0 with (Z.of_nat 0).
      rewrite Nat2Z.inj_iff. unfold completed.
      rewrite filter_length_none. split.
      * intros Hall. eapply Forall_impl; [|exact Hall]. intros c Hs.
        apply String.eqb_neq. exact Hs.
      * intros Hall. eapply Forall_impl; [|exact Hall]. intros c Hs.
        apply String.eqb_neq. exact Hs.
    + intros Hnil. rewrite E in Hnil. discriminate Hnil.
Qed.


(** X25.  When the three lists have arrived, with up to 1000 call
    sessions, the limit of the request, the success rate that
    [loadDashboardStats] computes on floating-point numbers lies between 0
    and 100; it is 100 exactly when every call is completed and 0 exactly
    when none is; without calls the rate and the average latency are 0, with
    no division by zero; and the number of active calls never exceeds the
    total. *)
Theorem success_rate_is_a_percentage
  {Appointment Consultation : Type}
  (user : string)
  (appointments : list Appointment) (consultations : list Consultation)
  (callSessions : list CallSession) (previous : DashboardStats) :
  user <> ""%string ->
  (List.length callSessions <= 1000)%nat ->
  let stats :=
    loadDashboardStats (Some user) (Resolved appointments)
      (Resolved consultations) (Resolved callSessions) previous in
  PrimFloat.leb PrimFloat.zero (successRate stats) = true
  /\ PrimFloat.leb (successRate stats) (numberOf 100) = true
  /\ (PrimFloat.eqb (successRate stats) (numberOf 100) = true <->
      callSessions <> []
      /\ Forall (fun call => session_status call = "completed"%string)
           callSessions)
  /\ (PrimFloat.eqb (successRate stats) PrimFloat.zero = true <->
      Forall (fun call => session_status call <> "completed"%string)
        callSessions)
  /\ (callSessions = [] ->
      successRate stats = PrimFloat.zero /\ avgLatency stats = PrimFloat.zero)
  /\ (activeCalls stats <= totalCalls stats)%nat.
Proof.
  intros Huser Hlimit. apply String.eqb_neq in Huser.
  unfold loadDashboardStats. rewrite Huser.
  apply calculateStats_percentage. exact Hlimit.
Qed.

Lemma success_rate_is_a_percentage_witness :
  PrimFloat.leb PrimFloat.zero (successRate threeCallsStats) = true
  /\ PrimFloat.leb (successRate threeCallsStats) (numberOf 100) = true
  /\ (PrimFloat.eqb (successRate threeCallsStats) (numberOf 100) = true <->
      threeCalls <> []
      /\ Forall (fun call => session_status call = "completed"%string)
           threeCalls)
  /\ (PrimFloat.eqb (successRate threeCallsStats) PrimFloat.zero = true <->
      Forall (fun call => session_status call <> "completed"%string)
        threeCalls)
  /\ (threeCalls = [] ->
      successRate threeCallsStats = PrimFloat.zero
      /\ avgLatency threeCallsStats = PrimFloat.zero)
  /\ (activeCalls threeCallsStats <= totalCalls threeCallsStats)%nat.
Proof.
  apply (success_rate_is_a_percentage "user-1" (@nil unit) (@nil unit)
           threeCalls noStats).
  - discriminate.
  - simpl. lia.
Defined.
